(** * Remote persistent collections

    A shallow embedding of the [remotetypes] package (RemoteDict, RemoteList,
    RemoteSet, their iterators, the Factory, the PersistentObject base class
    and StringSet) and of the operation dispatcher of [kafka_client.py],
    followed by the properties proved about them.

    Modelling conventions.
    - A method [m(self, args)] that touches the backing store becomes a
      function from the receiver and the disk to a [result], the receiver
      after the call and the disk after the call.  What was mutated before an
      exception is raised stays mutated, as in Python.
    - A Python [dict] is an association list in insertion order with unique
      keys; a Python [list] is a [list]; a Python [set] of strings is a
      [gset string], whose enumeration order ([elements]) stands for the
      order of the hash table.
    - A backing file holds either text that [json.load] rejects or a decoded
      JSON object.  [json.dump] followed by [json.load] is the identity on the
      objects this program writes (strings, arrays of strings, objects), and
      writes succeed.
    - A write that fails is outside the model.  In the code [open] can raise
      (a missing directory, as for an identifier with a slash in it, or a
      missing permission); RemoteDict and RemoteList re-raise that as
      RuntimeError and RemoteSet lets it through, in each case after the
      contents and the counter have changed in memory.  So the model
      describes the runs in which every write goes through: where a
      property depends on a write it is stated for a call that returned
      normally, and what is proved about calls that raise is about the
      KeyError and IndexError of the remote types. *)

From Stdlib Require Import ZArith String List Lia.
From stdpp Require Import base option list gmap sets strings sorting pretty.

(** ** Exceptions and results *)

(** The exceptions of the [RemoteTypes] slice raised by the servants, the
    builtin exceptions that reach the callers, and the exception a client
    sees when a servant fails with anything else. *)
Inductive exn : Type :=
  | KeyError (key : string)
  | IndexError (message : string)
  | StopIteration
  | CancelIteration
  | PyKeyError (key : string)
  | PyValueError (message : string)
  | PyRuntimeError (message : string)
  | IceUnknownException (message : string).

Inductive exn_class : Type :=
  | cKeyError | cIndexError | cStopIteration | cCancelIteration
  | cPyKeyError | cPyValueError | cPyRuntimeError | cIceUnknownException.

Definition class_of (e : exn) : exn_class :=
  match e with
  | KeyError _ => cKeyError
  | IndexError _ => cIndexError
  | StopIteration => cStopIteration
  | CancelIteration => cCancelIteration
  | PyKeyError _ => cPyKeyError
  | PyValueError _ => cPyValueError
  | PyRuntimeError _ => cPyRuntimeError
  | IceUnknownException _ => cIceUnknownException
  end.

Inductive result (A : Type) : Type :=
  | Ok (a : A)
  | Raise (e : exn).
Arguments Ok {A} a.
Arguments Raise {A} e.

(** ** The builtin containers the program relies on *)

Module Py.

Section dict.
Context {V : Type}.

(** [d[k]] and [d.get(k)] *)
Fixpoint dict_get (k : string) (d : list (string * V)) : option V :=
  match d with
  | [] => None
  | (k', v) :: d' => if decide (k = k') then Some v else dict_get k d'
  end.

(** [d[k] = v]: an existing key keeps its place, a new key goes last. *)
Fixpoint dict_set (k : string) (v : V) (d : list (string * V))
  : list (string * V) :=
  match d with
  | [] => [(k, v)]
  | (k', v') :: d' =>
      if decide (k = k') then (k, v) :: d' else (k', v') :: dict_set k v d'
  end.

(** [del d[k]]; [None] stands for the builtin [KeyError]. *)
Fixpoint dict_del (k : string) (d : list (string * V))
  : option (list (string * V)) :=
  match d with
  | [] => None
  | (k', v) :: d' =>
      if decide (k = k') then Some d' else cons (k', v) <$> dict_del k d'
  end.

(** [d.pop(k)]; [None] stands for the builtin [KeyError]. *)
Definition dict_pop (k : string) (d : list (string * V))
  : option (V * list (string * V)) :=
  match dict_get k d, dict_del k d with
  | Some v, Some d' => Some (v, d')
  | _, _ => None
  end.
End dict.

(** The position an index [i] denotes in a sequence of [n] elements:
    negative indices count from the end; [None] is [IndexError]. *)
Definition index (i : Z) (n : nat) : option nat :=
  let j := if (i <? 0)%Z then (i + Z.of_nat n)%Z else i in
  if ((0 <=? j)%Z && (j <? Z.of_nat n)%Z)%bool then Some (Z.to_nat j) else None.

(** [l[i]] *)
Definition list_getitem (l : list string) (i : Z) : option string :=
  match index i (length l) with
  | Some j => l !! j
  | None => None
  end.

(** [l.pop(i)]; [l.pop()] is [l.pop(-1)]. *)
Definition list_pop (l : list string) (i : Z) : option (string * list string) :=
  match index i (length l) with
  | Some j =>
      match l !! j with
      | Some x => Some (x, delete j l)
      | None => None
      end
  | None => None
  end.

(** [l.remove(x)] removes the first occurrence; [None] is [ValueError]. *)
Fixpoint list_remove (x : string) (l : list string) : option (list string) :=
  match l with
  | [] => None
  | y :: l' => if decide (x = y) then Some l' else cons y <$> list_remove x l'
  end.

(** [s.pop()] on a set: removes and returns the first element in
    enumeration order; [None] on the empty set. *)
Definition set_pop (s : gset string) : option (string * gset string) :=
  match elements s with
  | [] => None
  | x :: _ => Some (x, s ∖ {[x]})
  end.

(** One step of a builtin iterator: a value, [StopIteration], or the
    [RuntimeError] of a container that changed size during iteration. *)
Inductive step (A : Type) : Type :=
  | Yield (a : A)
  | Stop
  | Changed.
Arguments Yield {A} a.
Arguments Stop {A}.
Arguments Changed {A}.

(** The iterator of a list: the next index into the live list, [None] once
    it is exhausted. *)
Definition list_iter_next {A : Type} (it : option nat) (live : list A)
  : step A * option nat :=
  match it with
  | None => (Stop, None)
  | Some i =>
      match live !! i with
      | Some x => (Yield x, Some (S i))
      | None => (Stop, None)
      end
  end.

(** The iterator of a dict view or of a set: it remembers the size of the
    container when it was created ([si_used], [None] once a size change was
    seen), the position reached, and whether it still refers to the
    container ([si_live], cleared on exhaustion). *)
Record sized_iter : Type := SizedIter {
  si_used : option nat;
  si_pos : nat;
  si_live : bool
}.

Definition sized_iter_new (n : nat) : sized_iter :=
  {| si_used := Some n; si_pos := 0; si_live := true |}.

Definition sized_iter_next {A : Type} (it : sized_iter) (live : list A)
  : step A * sized_iter :=
  if si_live it then
    if decide (si_used it = Some (length live)) then
      match live !! si_pos it with
      | Some x =>
          (Yield x, {| si_used := si_used it; si_pos := S (si_pos it);
                       si_live := true |})
      | None =>
          (Stop, {| si_used := si_used it; si_pos := si_pos it;
                    si_live := false |})
      end
    else
      (Changed, {| si_used := None; si_pos := si_pos it; si_live := true |})
  else (Stop, it).

(** The order of [sorted] on [(key, value)] tuples of strings. *)
Definition item_le (a b : string * string) : Prop :=
  if decide (a.1 = b.1) then String.le a.2 b.2 else String.le a.1 b.1.

#[export] Instance item_le_dec : RelDecision item_le.
Proof. intros a b. unfold item_le. destruct (decide (a.1 = b.1)); apply _. Defined.

Definition sorted (items : list (string * string)) : list (string * string) :=
  merge_sort item_le items.

(** The builtin [hash], on the three kinds of value the program hashes.
    Its values are machine integers ([Py_hash_t]); beyond that nothing is
    assumed: the string hash is salted per process. *)
Class Hash : Type := {
  hash_modulus : Z;
  hash_tuple_items : list (string * string) → Z;
  hash_tuple : list string → Z;
  hash_frozenset : gset string → Z;
  hash_tuple_items_range t :
    (- hash_modulus ≤ hash_tuple_items t < hash_modulus)%Z;
  hash_tuple_range t : (- hash_modulus ≤ hash_tuple t < hash_modulus)%Z;
  hash_frozenset_range s :
    (- hash_modulus ≤ hash_frozenset s < hash_modulus)%Z
}.

End Py.

(** ** The backing store *)

Inductive file (A : Type) : Type :=
  | Malformed
  | Doc (data : A).
Arguments Malformed {A}.
Arguments Doc {A} data.

(** Files by path.  [dict_files] are the files RemoteDict reads and writes
    (an object from keys to strings); [seq_files] are those of RemoteList and
    RemoteSet (an object from identifiers to arrays of strings).  The two
    kinds never share a path under the names the factory gives them. *)
Record disk : Type := Disk {
  dict_files : gmap string (file (list (string * string)));
  seq_files : gmap string (file (list (string * list string)))
}.

Definition no_files : disk := {| dict_files := ∅; seq_files := ∅ |}.


(** The [current] of an invocation; only its presence is inspected. *)
Definition Current : Type := unit.

(** ** remotedict.py *)

Module RemoteDict.

Record t : Type := Build {
  id_ : string;
  storage_file : string;
  _storage_ : list (string * string);
  _modification_count : Z
}.

Definition _load_data (storage_file : string) (fs : disk)
  : list (string * string) :=
  match dict_files fs !! storage_file with
  | Some (Doc data) => data
  | Some Malformed => []
  | None => []
  end.

Definition __init__ (identifier storage_file : string) (fs : disk) : t :=
  {| id_ := identifier;
     storage_file := storage_file;
     _storage_ := _load_data storage_file fs;
     _modification_count := 0 |}.

(** The write is taken to go through; the code re-raises a failed write as
    RuntimeError. *)
Definition _save_data (self : t) (fs : disk) : disk :=
  {| dict_files := <[storage_file self := Doc (_storage_ self)]> (dict_files fs);
     seq_files := seq_files fs |}.

(** [self._storage_ := d; self._modification_count += 1] *)
Definition mutated (self : t) (d : list (string * string)) : t :=
  {| id_ := id_ self;
     storage_file := storage_file self;
     _storage_ := d;
     _modification_count := (_modification_count self + 1)%Z |}.

Definition identifier (self : t) : string := id_ self.

Definition remove (key : string) (self : t) (fs : disk)
  : result unit * t * disk :=
  match Py.dict_del key (_storage_ self) with
  | Some d =>
      let self' := mutated self d in
      (Ok tt, self', _save_data self' fs)
  | None => (Raise (KeyError key), self, fs)
  end.

Definition length (self : t) : nat := List.length (_storage_ self).

Definition contains (key : string) (self : t) : bool :=
  bool_decide (is_Some (Py.dict_get key (_storage_ self))).

Definition hash `{Py.Hash} (self : t) : Z :=
  let items := Py.sorted (_storage_ self) in
  Py.hash_tuple_items items.

Definition setItem (key item : string) (self : t) (fs : disk)
  : result unit * t * disk :=
  let self' := mutated self (Py.dict_set key item (_storage_ self)) in
  (Ok tt, self', _save_data self' fs).

Definition getItem (key : string) (self : t) : result string :=
  match Py.dict_get key (_storage_ self) with
  | Some value => Ok value
  | None => Raise (KeyError key)
  end.

Definition pop (key : string) (self : t) (fs : disk)
  : result string * t * disk :=
  match Py.dict_pop key (_storage_ self) with
  | Some (value, d) =>
      let self' := mutated self d in
      (Ok value, self', _save_data self' fs)
  | None => (Raise (KeyError key), self, fs)
  end.

End RemoteDict.

(** The iterator refers to its dictionary: [next] reads the live object,
    which is passed to it. *)
Module DictIterator.

Record t : Type := Build {
  _expected_mod_count : Z;
  _iterator : Py.sized_iter
}.

Definition __init__ (remote_dict : RemoteDict.t) (expected_mod_count : Z) : t :=
  {| _expected_mod_count := expected_mod_count;
     _iterator :=
       Py.sized_iter_new (List.length (RemoteDict._storage_ remote_dict)) |}.

Definition next (self : t) (_dict : RemoteDict.t) : result string * t :=
  if decide (_expected_mod_count self ≠ RemoteDict._modification_count _dict)
  then (Raise CancelIteration, self)
  else
    match Py.sized_iter_next (_iterator self) (RemoteDict._storage_ _dict) with
    | (Py.Yield (key, value), it) =>
        (Ok (key +:+ ": " +:+ value),
         {| _expected_mod_count := _expected_mod_count self; _iterator := it |})
    | (Py.Stop, it) =>
        (Raise StopIteration,
         {| _expected_mod_count := _expected_mod_count self; _iterator := it |})
    | (Py.Changed, it) =>
        (Raise (PyRuntimeError "dictionary changed size during iteration"),
         {| _expected_mod_count := _expected_mod_count self; _iterator := it |})
    end.

(** [RemoteDict.iter] *)
Definition iter (current : option Current) (self : RemoteDict.t) : result t :=
  match current with
  | None => Raise (PyRuntimeError "El objeto 'current' es necesario.")
  | Some _ => Ok (__init__ self (RemoteDict._modification_count self))
  end.

End DictIterator.

(** ** remotelist.py *)

Module RemoteList.

Record t : Type := Build {
  id_ : string;
  storage_file : string;
  _modification_count : Z;
  _storage_ : list string
}.

Definition _load_data (id_ storage_file : string) (fs : disk) : list string :=
  match seq_files fs !! storage_file with
  | Some (Doc data) => default [] (Py.dict_get id_ data)
  | Some Malformed => []
  | None => []
  end.

Definition __init__ (identifier storage_file : string) (fs : disk) : t :=
  {| id_ := identifier;
     storage_file := storage_file;
     _modification_count := 0;
     _storage_ := _load_data identifier storage_file fs |}.

(** The write is taken to go through; the code re-raises a failed write as
    RuntimeError. *)
Definition _save_data (self : t) (fs : disk) : disk :=
  let data :=
    match seq_files fs !! storage_file self with
    | Some (Doc data) => data
    | Some Malformed => []
    | None => []
    end in
  let data := Py.dict_set (id_ self) (_storage_ self) data in
  {| dict_files := dict_files fs;
     seq_files := <[storage_file self := Doc data]> (seq_files fs) |}.

(** [self._storage_ := l; self._modification_count += 1] *)
Definition mutated (self : t) (l : list string) : t :=
  {| id_ := id_ self;
     storage_file := storage_file self;
     _modification_count := (_modification_count self + 1)%Z;
     _storage_ := l |}.

Definition identifier (self : t) : string := id_ self.

Definition append (item : string) (self : t) (fs : disk)
  : result unit * t * disk :=
  let self' := mutated self (_storage_ self ++ [item]) in
  (Ok tt, self', _save_data self' fs).

Definition remove (item : string) (self : t) (fs : disk)
  : result unit * t * disk :=
  match Py.list_remove item (_storage_ self) with
  | Some l =>
      let self' := mutated self l in
      (Ok tt, self', _save_data self' fs)
  | None => (Raise (KeyError ("Item " +:+ item +:+ " not found in list")), self, fs)
  end.

Definition contains (item : string) (self : t) : bool :=
  bool_decide (item ∈ _storage_ self).

Definition length (self : t) : nat := List.length (_storage_ self).

Definition hash `{Py.Hash} (self : t) : Z := Py.hash_tuple (_storage_ self).

(** The text of [{index}] in the messages: a number or [None]. *)
Definition show_index (index : option Z) : string :=
  match index with
  | Some i => pretty i
  | None => "None"
  end.

Definition getItem (index : Z) (self : t) : result string :=
  match Py.list_getitem (_storage_ self) index with
  | Some item => Ok item
  | None =>
      Raise (IndexError ("Index " +:+ show_index (Some index) +:+ " is out of range"))
  end.

Definition pop (index : option Z) (self : t) (fs : disk)
  : result string * t * disk :=
  let popped :=
    match index with
    | None => Py.list_pop (_storage_ self) (-1)
    | Some i => Py.list_pop (_storage_ self) i
    end in
  match popped with
  | Some (item, l) =>
      let self' := mutated self l in
      (Ok item, self', _save_data self' fs)
  | None =>
      (Raise (IndexError ("Index " +:+ show_index index +:+ " is out of range")),
       self, fs)
  end.

End RemoteList.

Module ListIterator.

Record t : Type := Build {
  _expected_mod_count : Z;
  _iterator : option nat
}.

Definition __init__ (remote_list : RemoteList.t) (expected_mod_count : Z) : t :=
  {| _expected_mod_count := expected_mod_count; _iterator := Some 0 |}.

Definition next (self : t) (_list : RemoteList.t) : result string * t :=
  if decide (_expected_mod_count self ≠ RemoteList._modification_count _list)
  then (Raise CancelIteration, self)
  else
    match Py.list_iter_next (_iterator self) (RemoteList._storage_ _list) with
    | (Py.Yield item, it) =>
        (Ok item,
         {| _expected_mod_count := _expected_mod_count self; _iterator := it |})
    | (_, it) =>
        (Raise StopIteration,
         {| _expected_mod_count := _expected_mod_count self; _iterator := it |})
    end.

(** [RemoteList.iter] *)
Definition iter (current : option Current) (self : RemoteList.t) : result t :=
  match current with
  | None => Raise (PyRuntimeError "El objeto 'current' es necesario.")
  | Some _ => Ok (__init__ self (RemoteList._modification_count self))
  end.

End ListIterator.

(** ** remoteset.py *)

Module RemoteSet.

Definition GLOBAL_STORAGE_FILE : string := "remoteset_data.json".

Record t : Type := Build {
  identifier : string;
  data : gset string;
  _modification_count : Z;
  storage_file : string
}.

Definition _load_data (identifier storage_file : string) (fs : disk)
  : gset string :=
  match seq_files fs !! storage_file with
  | Some (Doc storage) =>
      match Py.dict_get identifier storage with
      | Some elems => list_to_set elems
      | None => ∅
      end
  | Some Malformed => ∅
  | None => ∅
  end.

Definition __init__ (identifier : string) (fs : disk) : t :=
  {| identifier := identifier;
     data := _load_data identifier GLOBAL_STORAGE_FILE fs;
     _modification_count := 0;
     storage_file := GLOBAL_STORAGE_FILE |}.

(** The write is taken to go through; the code lets the error of a failed
    write through. *)
Definition _save_global_storage (self : t) (fs : disk) : disk :=
  let storage :=
    match seq_files fs !! storage_file self with
    | Some (Doc storage) => storage
    | Some Malformed => []
    | None => []
    end in
  let storage := Py.dict_set (identifier self) (elements (data self)) storage in
  {| dict_files := dict_files fs;
     seq_files := <[storage_file self := Doc storage]> (seq_files fs) |}.

(** [self.data := s; self._modification_count += 1] *)
Definition mutated (self : t) (s : gset string) : t :=
  {| identifier := identifier self;
     data := s;
     _modification_count := (_modification_count self + 1)%Z;
     storage_file := storage_file self |}.

Definition add (item : string) (self : t) (fs : disk)
  : result unit * t * disk :=
  if decide (item ∉ data self) then
    let self' := mutated self (data self ∪ {[item]}) in
    (Ok tt, self', _save_global_storage self' fs)
  else (Ok tt, self, fs).

Definition remove (item : string) (self : t) (fs : disk)
  : result unit * t * disk :=
  if decide (item ∉ data self) then
    (Raise (KeyError ("El elemento '" +:+ item +:+ "' no existe en el conjunto.")),
     self, fs)
  else
    let self' := mutated self (data self ∖ {[item]}) in
    (Ok tt, self', _save_global_storage self' fs).

Definition contains (item : string) (self : t) : bool :=
  bool_decide (item ∈ data self).

Definition length (self : t) : nat := size (data self).

Definition hash `{Py.Hash} (self : t) : Z := Py.hash_frozenset (data self).

Definition pop (self : t) (fs : disk) : result string * t * disk :=
  match Py.set_pop (data self) with
  | None => (Raise (KeyError "El conjunto está vacío."), self, fs)
  | Some (item, s) =>
      let self' := mutated self s in
      (Ok item, self', _save_global_storage self' fs)
  end.

End RemoteSet.

(** The iterator keeps only the builtin iterator of the set; [next] reads the
    live set, which is passed to it. *)
Module RemoteSetIterator.

Record t : Type := Build {
  _iterator : Py.sized_iter
}.

Definition __init__ (remote_set : RemoteSet.t) : t :=
  {| _iterator := Py.sized_iter_new (size (RemoteSet.data remote_set)) |}.

Definition next (self : t) (remote_set : RemoteSet.t) : result string * t :=
  match Py.sized_iter_next (_iterator self) (elements (RemoteSet.data remote_set)) with
  | (Py.Yield next_item, it) => (Ok next_item, {| _iterator := it |})
  | (Py.Stop, it) => (Raise StopIteration, {| _iterator := it |})
  | (Py.Changed, it) => (Raise CancelIteration, {| _iterator := it |})
  end.

(** [RemoteSet.iter] *)
Definition iter (current : option Current) (self : RemoteSet.t) : result t :=
  match current with
  | None => Raise (PyRuntimeError "El objeto 'current' es necesario.")
  | Some _ => Ok (__init__ self)
  end.

End RemoteSetIterator.

(** ** persistentObject.py *)

(** The base class keeps the whole file in [_data]; [_initialize_data] is the
    subclass hook. *)
Module PersistentObject.

Record t : Type := Build {
  id_ : string;
  storage_file : string;
  _data : list (string * list string)
}.

(** [None]: the file exists and [json.load] raises. *)
Definition _load_from_file (storage_file : string) (fs : disk)
  : option (list (string * list string)) :=
  match seq_files fs !! storage_file with
  | Some (Doc data) => Some data
  | Some Malformed => None
  | None => Some []
  end.

Definition _save_to_file (self : t) (fs : disk) : disk :=
  {| dict_files := dict_files fs;
     seq_files := <[storage_file self := Doc (_data self)]> (seq_files fs) |}.

Definition __init__ (_initialize_data : list string)
    (identifier storage_file : string) (fs : disk) : result t * disk :=
  match _load_from_file storage_file fs with
  | None => (Raise (PyValueError "JSONDecodeError"), fs)
  | Some data =>
      let self :=
        {| id_ := identifier; storage_file := storage_file; _data := data |} in
      if decide (is_Some (Py.dict_get identifier data)) then (Ok self, fs)
      else
        let self' :=
          {| id_ := identifier; storage_file := storage_file;
             _data := Py.dict_set identifier _initialize_data data |} in
        (Ok self', _save_to_file self' fs)
  end.

End PersistentObject.

(** ** factory.py *)

Inductive TypeName : Type :=
  | RDict
  | RList
  | RSet
  | OtherType (name : string).

(** A proxy names the servant it was created for. *)
Inductive proxy : Type :=
  | RDictPrx (identifier : string)
  | RListPrx (identifier : string)
  | RSetPrx (identifier : string).

Module Factory.

Definition STORAGE_PATH : string := "storage".

(** [os.path.join(STORAGE_PATH, name)] for a relative [name] *)
Definition path_join (dir name : string) : string := dir +:+ "/" +:+ name.

(** The caches hold the servants behind the proxies they map to. *)
Record t : Type := Build {
  _rdicts : gmap string RemoteDict.t;
  _rlists : gmap string RemoteList.t;
  _rsets : gmap string RemoteSet.t
}.

Definition __init__ : t := {| _rdicts := ∅; _rlists := ∅; _rsets := ∅ |}.

Definition _get_rdict (identifier : string) (self : t) (fs : disk)
  : proxy * t :=
  match _rdicts self !! identifier with
  | None =>
      let storage_file :=
        path_join STORAGE_PATH ("rdict_" +:+ identifier +:+ ".json") in
      let rdict := RemoteDict.__init__ identifier storage_file fs in
      (RDictPrx identifier,
       {| _rdicts := <[identifier := rdict]> (_rdicts self);
          _rlists := _rlists self; _rsets := _rsets self |})
  | Some _ => (RDictPrx identifier, self)
  end.

Definition _get_rlist (identifier : string) (self : t) (fs : disk)
  : proxy * t :=
  match _rlists self !! identifier with
  | None =>
      let storage_file :=
        path_join STORAGE_PATH ("rlist_" +:+ identifier +:+ ".json") in
      let rlist := RemoteList.__init__ identifier storage_file fs in
      (RListPrx identifier,
       {| _rdicts := _rdicts self;
          _rlists := <[identifier := rlist]> (_rlists self);
          _rsets := _rsets self |})
  | Some _ => (RListPrx identifier, self)
  end.

Definition _get_rset (identifier : string) (self : t) (fs : disk)
  : proxy * t :=
  match _rsets self !! identifier with
  | None =>
      let rset := RemoteSet.__init__ identifier fs in
      (RSetPrx identifier,
       {| _rdicts := _rdicts self; _rlists := _rlists self;
          _rsets := <[identifier := rset]> (_rsets self) |})
  | Some _ => (RSetPrx identifier, self)
  end.

(** [identifier or default]: [None] and the empty string are falsy. *)
Definition or_default (identifier : option string) (default : string) : string :=
  match identifier with
  | None => default
  | Some "" => default
  | Some s => s
  end.

(** The call is made with a [current], whose adapter registers the new
    servant.  The constructors only read the disk, so [get] returns the disk
    as it was. *)
Definition get (typeName : TypeName) (identifier : option string)
    (self : t) (fs : disk) : result proxy * t * disk :=
  match typeName with
  | RDict =>
      let '(p, self') := _get_rdict (or_default identifier "default_rdict") self fs in
      (Ok p, self', fs)
  | RList =>
      let '(p, self') := _get_rlist (or_default identifier "default_rlist") self fs in
      (Ok p, self', fs)
  | RSet =>
      let '(p, self') := _get_rset (or_default identifier "default_rset") self fs in
      (Ok p, self', fs)
  | OtherType name =>
      (Raise (PyValueError ("Tipo inválido solicitado: " +:+ name)), self, fs)
  end.

End Factory.

(** ** kafka_client.py *)

Module KafkaClient.

(** What an operation returns to the dispatcher. *)
Inductive value : Type :=
  | VStr (s : string)
  | VInt (z : Z)
  | VBool (b : bool).

(** The value under ["id"]: JSON null or a token. *)
Inductive json_id : Type :=
  | IdNull
  | IdTok (tok : string).

(** The value under ["index"]: something [int()] converts, or not. *)
Inductive index_arg : Type :=
  | IntLike (z : Z)
  | NotIntLike.

Record args : Type := Args {
  a_item : option string;
  a_index : option index_arg;
  a_key : option string
}.

(** An operation descriptor; [None] is a key that is absent. *)
Record event : Type := Event {
  e_id : option json_id;
  e_object_type : option string;
  e_object_identifier : option string;
  e_operation : option string;
  e_args : option args
}.

Record response : Type := Response {
  r_id : json_id;
  r_status : string;
  r_result : option value;
  r_error : option string
}.

(** The server side the client talks to: the factory with its servants and
    the disk. *)
Record world : Type := World {
  factory : Factory.t;
  fs : disk
}.

(** Computations that may raise and that change the world. *)
Definition M (A : Type) : Type := world → result A * world.

Definition ret {A : Type} (a : A) : M A := fun w => (Ok a, w).
Definition raise {A : Type} (e : exn) : M A := fun w => (Raise e, w).
Definition bind {A B : Type} (m : M A) (k : A → M B) : M B :=
  fun w =>
    match m w with
    | (Ok a, w') => k a w'
    | (Raise e, w') => (Raise e, w')
    end.

Notation "'perform' p := m ; k" := (bind m (fun p => k))
  (at level 10, p pattern, m at level 100, k at level 200, only parsing).

(** [args[name]] *)
Definition subscript {A : Type} (name : string) (field : option A) : M A :=
  match field with
  | Some a => ret a
  | None => raise (PyKeyError name)
  end.

(** [int(x)] *)
Definition int (x : index_arg) : M Z :=
  match x with
  | IntLike z => ret z
  | NotIntLike => raise (PyValueError "invalid literal for int()")
  end.

(** Invocations through a proxy run the method on the servant in the
    factory's cache and leave the servant as the method left it. *)
Definition on_rdict {A : Type} (identifier : string)
    (method : RemoteDict.t → disk → result A * RemoteDict.t * disk) : M A :=
  fun w =>
    match Factory._rdicts (factory w) !! identifier with
    | Some servant =>
        let '(r, servant', fs') := method servant (fs w) in
        (r, {| factory :=
                 {| Factory._rdicts :=
                      <[identifier := servant']> (Factory._rdicts (factory w));
                    Factory._rlists := Factory._rlists (factory w);
                    Factory._rsets := Factory._rsets (factory w) |};
               fs := fs' |})
    | None => (Raise (IceUnknownException "ObjectNotExistException"), w)
    end.

Definition on_rlist {A : Type} (identifier : string)
    (method : RemoteList.t → disk → result A * RemoteList.t * disk) : M A :=
  fun w =>
    match Factory._rlists (factory w) !! identifier with
    | Some servant =>
        let '(r, servant', fs') := method servant (fs w) in
        (r, {| factory :=
                 {| Factory._rdicts := Factory._rdicts (factory w);
                    Factory._rlists :=
                      <[identifier := servant']> (Factory._rlists (factory w));
                    Factory._rsets := Factory._rsets (factory w) |};
               fs := fs' |})
    | None => (Raise (IceUnknownException "ObjectNotExistException"), w)
    end.

Definition on_rset {A : Type} (identifier : string)
    (method : RemoteSet.t → disk → result A * RemoteSet.t * disk) : M A :=
  fun w =>
    match Factory._rsets (factory w) !! identifier with
    | Some servant =>
        let '(r, servant', fs') := method servant (fs w) in
        (r, {| factory :=
                 {| Factory._rdicts := Factory._rdicts (factory w);
                    Factory._rlists := Factory._rlists (factory w);
                    Factory._rsets :=
                      <[identifier := servant']> (Factory._rsets (factory w)) |};
               fs := fs' |})
    | None => (Raise (IceUnknownException "ObjectNotExistException"), w)
    end.

(** A method that neither fails nor changes anything. *)
Definition query {S A : Type} (f : S → A) (self : S) (fs : disk)
  : result A * S * disk := (Ok (f self), self, fs).

(** A method that may fail and changes nothing. *)
Definition attempt {S A : Type} (f : S → result A) (self : S) (fs : disk)
  : result A * S * disk := (f self, self, fs).

Definition factory_get (typeName : TypeName) (identifier : option string)
  : M proxy :=
  fun w =>
    let '(r, f', fs') := Factory.get typeName identifier (factory w) (fs w) in
    (r, {| factory := f'; fs := fs' |}).

Definition get_rtype_proxy (obj_type : string) (obj_identifier : string)
  : M (option proxy) :=
  if decide (obj_type = "RList") then
    perform p := factory_get RList (Some obj_identifier); ret (Some p)
  else if decide (obj_type = "RDict") then
    perform p := factory_get RDict (Some obj_identifier); ret (Some p)
  else if decide (obj_type = "RSet") then
    perform p := factory_get RSet (Some obj_identifier); ret (Some p)
  else ret None.

Section dispatch.
Context `{Py.Hash}.

(** The methods every remote type offers, by proxy.  A RemoteSet stores its
    identifier in an attribute named [identifier], which hides the method of
    that name: invoking it fails in the servant. *)
Definition rtype_identifier (prx : proxy) : M string :=
  match prx with
  | RDictPrx i => on_rdict i (query RemoteDict.identifier)
  | RListPrx i => on_rlist i (query RemoteList.identifier)
  | RSetPrx i => raise (IceUnknownException "'str' object is not callable")
  end.

Definition rtype_remove (prx : proxy) (item : string) : M unit :=
  match prx with
  | RDictPrx i => on_rdict i (RemoteDict.remove item)
  | RListPrx i => on_rlist i (RemoteList.remove item)
  | RSetPrx i => on_rset i (RemoteSet.remove item)
  end.

Definition rtype_length (prx : proxy) : M nat :=
  match prx with
  | RDictPrx i => on_rdict i (query RemoteDict.length)
  | RListPrx i => on_rlist i (query RemoteList.length)
  | RSetPrx i => on_rset i (query RemoteSet.length)
  end.

Definition rtype_contains (prx : proxy) (item : string) : M bool :=
  match prx with
  | RDictPrx i => on_rdict i (query (RemoteDict.contains item))
  | RListPrx i => on_rlist i (query (RemoteList.contains item))
  | RSetPrx i => on_rset i (query (RemoteSet.contains item))
  end.

Definition rtype_hash (prx : proxy) : M Z :=
  match prx with
  | RDictPrx i => on_rdict i (query RemoteDict.hash)
  | RListPrx i => on_rlist i (query RemoteList.hash)
  | RSetPrx i => on_rset i (query RemoteSet.hash)
  end.

(** Each function below returns the pair [(result, error)]. *)
Definition process_common_operation (rtype_prx : proxy) (operation : string)
    (args : args) : M (option value * option string) :=
  if decide (operation = "identifier") then
    perform s := rtype_identifier rtype_prx; ret (Some (VStr s), None)
  else if decide (operation = "remove") then
    perform item := subscript "item" (a_item args);
    perform _ := rtype_remove rtype_prx item;
    ret (None, None)
  else if decide (operation = "length") then
    perform n := rtype_length rtype_prx; ret (Some (VInt (Z.of_nat n)), None)
  else if decide (operation = "contains") then
    perform item := subscript "item" (a_item args);
    perform b := rtype_contains rtype_prx item;
    ret (Some (VBool b), None)
  else if decide (operation = "hash") then
    perform h := rtype_hash rtype_prx; ret (Some (VInt h), None)
  else if decide (operation = "iter") then
    ret (None, Some "OperationNotSupported")
  else ret (None, None).

Definition process_rlist (identifier : string) (operation : string)
    (args : args) : M (option value * option string) :=
  if decide (operation = "append") then
    perform item := subscript "item" (a_item args);
    perform _ := on_rlist identifier (RemoteList.append item);
    ret (None, None)
  else if decide (operation = "pop") then
    match a_index args with
    | Some index =>
        perform i := int index;
        perform _ := on_rlist identifier (RemoteList.pop (Some i));
        ret (None, None)
    | None =>
        perform _ := on_rlist identifier (RemoteList.pop None);
        ret (None, None)
    end
  else if decide (operation = "getItem") then
    perform index := subscript "index" (a_index args);
    perform i := int index;
    perform item := on_rlist identifier (attempt (RemoteList.getItem i));
    ret (Some (VStr item), None)
  else ret (None, None).

Definition process_rdict (identifier : string) (operation : string)
    (args : args) : M (option value * option string) :=
  if decide (operation = "setItem") then
    perform key := subscript "key" (a_key args);
    perform item := subscript "item" (a_item args);
    perform _ := on_rdict identifier (RemoteDict.setItem key item);
    ret (None, None)
  else if decide (operation = "getItem") then
    perform key := subscript "key" (a_key args);
    perform item := on_rdict identifier (attempt (RemoteDict.getItem key));
    ret (Some (VStr item), None)
  else if decide (operation = "pop") then
    perform key := subscript "key" (a_key args);
    perform _ := on_rdict identifier (RemoteDict.pop key);
    ret (None, None)
  else ret (None, None).

Definition process_rset (identifier : string) (operation : string)
    (args : args) : M (option value * option string) :=
  if decide (operation = "add") then
    perform item := subscript "item" (a_item args);
    perform _ := on_rset identifier (RemoteSet.add item);
    ret (None, None)
  else if decide (operation = "pop") then
    perform _ := on_rset identifier RemoteSet.pop;
    ret (None, None)
  else ret (None, None).

Definition no_args : args :=
  {| a_item := None; a_index := None; a_key := None |}.

Definition hacer_evento (event : event) : M (option value * option string) :=
  match e_id event, e_object_type event, e_object_identifier event,
        e_operation event with
  | Some _, Some obj_type, Some obj_identifier, Some operation =>
      let args := default no_args (e_args event) in
      perform rtype_prx := get_rtype_proxy obj_type obj_identifier;
      match rtype_prx with
      | None => ret (None, Some "UnknownObjectType")
      | Some rtype_prx =>
          perform (result, error) := process_common_operation rtype_prx operation args;
          if decide (is_Some result ∨ is_Some error) then ret (result, error)
          else
            match rtype_prx with
            | RListPrx i => process_rlist i operation args
            | RDictPrx i => process_rdict i operation args
            | RSetPrx i => process_rset i operation args
            end
      end
  | _, _, _, _ => ret (None, Some "MalformedOperation")
  end.

(** [if error:] *)
Definition truthy (error : option string) : bool :=
  match error with
  | None => false
  | Some "" => false
  | Some _ => true
  end.

(** [op["id"]] *)
Definition op_id (op : event) : M json_id := subscript "id" (e_id op).

(** The body of [for op in event_list], appending to [message]. *)
Definition process_op (op : event) (message : list response)
  : M (list response) :=
  perform (result, error) := hacer_evento op;
  if truthy error then
    match e_id op with
    | Some (IdTok tok) =>
        ret (message ++ [{| r_id := IdTok tok; r_status := "error";
                            r_result := None; r_error := error |}])
    | _ => ret message
    end
  else
    match result with
    | Some v =>
        perform i := op_id op;
        ret (message ++ [{| r_id := i; r_status := "ok";
                            r_result := Some v; r_error := None |}])
    | None =>
        perform i := op_id op;
        ret (message ++ [{| r_id := i; r_status := "ok";
                            r_result := None; r_error := None |}])
    end.

Fixpoint process_ops (event_list : list event) (message : list response)
  : M (list response) :=
  match event_list with
  | [] => ret message
  | op :: rest =>
      perform message' := process_op op message;
      process_ops rest message'
  end.

(** One turn of the consuming loop on a received payload: [None] is a
    payload that is not JSON.  The outcome is what is produced to the output
    topic, if anything. *)
Definition consume_and_process_message (payload : option (list event))
  : M (option (list response)) :=
  match payload with
  | None => ret None
  | Some event_list =>
      perform message := process_ops event_list [];
      match message with
      | [] => ret None
      | _ => ret (Some message)
      end
  end.

End dispatch.

End KafkaClient.

(** ** The three remote types behind one interface *)

(** A remote type [T] with its calls [call] (those that change a collection
    or may fail): what a call does and returns (a string or nothing), and the
    views of a collection the properties below speak about.  [same_pair] tells a [setItem] that stores under a key
    the value the key already has; [reopen] constructs a new instance with
    the identifier and the backing file of the given one. *)
Class RType (T call : Type) : Type := {
  contents : Type;
  contents_eq_dec :: EqDecision contents;
  contents_of : T → contents;
  mod_count : T → Z;
  len : T → nat;
  invoke : call → T → disk → result (option string) * T * disk;
  same_pair : call → T → bool;
  save : T → disk → disk;
  reopen : T → disk → T
}.

Definition returning_nothing {S : Type} (r : result unit * S * disk)
  : result (option string) * S * disk :=
  match r with
  | (Ok _, s, fs) => (Ok None, s, fs)
  | (Raise e, s, fs) => (Raise e, s, fs)
  end.

Definition returning_string {S : Type} (r : result string * S * disk)
  : result (option string) * S * disk :=
  match r with
  | (Ok v, s, fs) => (Ok (Some v), s, fs)
  | (Raise e, s, fs) => (Raise e, s, fs)
  end.

Inductive dict_call : Type :=
  | DictRemove (key : string)
  | DictSetItem (key item : string)
  | DictGetItem (key : string)
  | DictPop (key : string).

Inductive list_call : Type :=
  | ListAppend (item : string)
  | ListRemove (item : string)
  | ListGetItem (index : Z)
  | ListPop (index : option Z).

Inductive set_call : Type :=
  | SetAdd (item : string)
  | SetRemove (item : string)
  | SetPop.

#[export] Instance RemoteDict_RType : RType RemoteDict.t dict_call := {|
  contents := list (string * string);
  contents_of := RemoteDict._storage_;
  mod_count := RemoteDict._modification_count;
  len := RemoteDict.length;
  invoke c self fs :=
    match c with
    | DictRemove key => returning_nothing (RemoteDict.remove key self fs)
    | DictSetItem key item => returning_nothing (RemoteDict.setItem key item self fs)
    | DictGetItem key => returning_string (RemoteDict.getItem key self, self, fs)
    | DictPop key => returning_string (RemoteDict.pop key self fs)
    end;
  same_pair c self :=
    match c with
    | DictSetItem key item =>
        bool_decide (Py.dict_get key (RemoteDict._storage_ self) = Some item)
    | _ => false
    end;
  save := RemoteDict._save_data;
  reopen self fs :=
    RemoteDict.__init__ (RemoteDict.id_ self) (RemoteDict.storage_file self) fs
|}.

#[export] Instance RemoteList_RType : RType RemoteList.t list_call := {|
  contents := list string;
  contents_of := RemoteList._storage_;
  mod_count := RemoteList._modification_count;
  len := RemoteList.length;
  invoke c self fs :=
    match c with
    | ListAppend item => returning_nothing (RemoteList.append item self fs)
    | ListRemove item => returning_nothing (RemoteList.remove item self fs)
    | ListGetItem index => returning_string (RemoteList.getItem index self, self, fs)
    | ListPop index => returning_string (RemoteList.pop index self fs)
    end;
  same_pair _ _ := false;
  save := RemoteList._save_data;
  reopen self fs :=
    RemoteList.__init__ (RemoteList.id_ self) (RemoteList.storage_file self) fs
|}.

(** A RemoteSet is always constructed on [GLOBAL_STORAGE_FILE]. *)
#[export] Instance RemoteSet_RType : RType RemoteSet.t set_call := {|
  contents := gset string;
  contents_of := RemoteSet.data;
  mod_count := RemoteSet._modification_count;
  len := RemoteSet.length;
  invoke c self fs :=
    match c with
    | SetAdd item => returning_nothing (RemoteSet.add item self fs)
    | SetRemove item => returning_nothing (RemoteSet.remove item self fs)
    | SetPop => returning_string (RemoteSet.pop self fs)
    end;
  same_pair _ _ := false;
  save := RemoteSet._save_global_storage;
  reopen self fs := RemoteSet.__init__ (RemoteSet.identifier self) fs
|}.

Section sequences.
Context {T call : Type} `{RType T call}.

(** The collection and the disk after a call. *)
Definition after (c : call) (x : T) (fs : disk) : T * disk :=
  let '(_, x', fs') := invoke c x fs in (x', fs').

(** Whether a call changes the contents. *)
Definition changes (c : call) (x : T) (fs : disk) : bool :=
  bool_decide (contents_of (after c x fs).1 ≠ contents_of x).

(** A sequence of calls, results dropped. *)
Fixpoint run (calls : list call) (x : T) (fs : disk) : T * disk :=
  match calls with
  | [] => (x, fs)
  | c :: rest => let '(x', fs') := after c x fs in run rest x' fs'
  end.

(** How many calls of the sequence satisfy [p] in the state they run in. *)
Fixpoint count_calls (p : call → T → disk → bool) (calls : list call)
    (x : T) (fs : disk) : Z :=
  match calls with
  | [] => 0
  | c :: rest =>
      let '(x', fs') := after c x fs in
      ((if p c x fs then 1 else 0) + count_calls p rest x' fs')%Z
  end.

(** A call that leaves the contents as they were and still stores: a
    [setItem] of a pair the dictionary holds. *)
Definition restores (c : call) (x : T) (fs : disk) : bool :=
  negb (changes c x fs) && same_pair c x.

End sequences.

(** The remote types of the package. *)
Inductive remote_type : ∀ T call : Type, RType T call → Prop :=
  | remote_dict : remote_type RemoteDict.t dict_call RemoteDict_RType
  | remote_list : remote_type RemoteList.t list_call RemoteList_RType
  | remote_set : remote_type RemoteSet.t set_call RemoteSet_RType.


(** A hash that tells nothing apart; it serves where a hash has to be
    supplied and no operation asks for one. *)
Definition constant_hash : Py.Hash.
Proof.
  refine {| Py.hash_modulus := 1;
            Py.hash_tuple_items := fun _ => 0%Z;
            Py.hash_tuple := fun _ => 0%Z;
            Py.hash_frozenset := fun _ => 0%Z |}; intros; lia.
Defined.

(** What links an iterator of a dictionary to the dictionary: the counter
    has not gone below the one captured, and while it is the one captured
    the dictionary has the size the builtin iterator remembers. *)
Definition dict_iter_inv (it : DictIterator.t) (d : RemoteDict.t) : Prop :=
  (DictIterator._expected_mod_count it ≤ RemoteDict._modification_count d)%Z
  ∧ (DictIterator._expected_mod_count it = RemoteDict._modification_count d →
     Py.si_used (DictIterator._iterator it) =
     Some (length (RemoteDict._storage_ d))).

(** [n] calls of [next] in a row on an iterator [it] of the object [c]:
    what the calls return or raise, in order, and the iterator after them. *)
Fixpoint nexts {I C : Type} (next : I → C → result string * I) (n : nat)
    (it : I) (c : C) : list (result string) * I :=
  match n with
  | O => ([], it)
  | S n' =>
      let '(r, it') := next it c in
      let '(rs, it'') := nexts next n' it' c in
      (r :: rs, it'')
  end.

(** ** customset.py *)

(** [StringSet] is a builtin set of strings with a flag.  What is added or
    looked up is a Python object: a string, or something else, of which the
    code uses only what [str()] gives.  [upper] is [str.upper]. *)
Module StringSet.

Inductive object : Type :=
  | Str (s : string)
  | NotStr (str : string).

Record t : Type := Build {
  upper_case : bool;
  elems : gset string
}.

Section upper.
Variable upper : string → string.

(** [if self.upper_case: item = item.upper()] *)
Definition cased (upper_case : bool) (item : string) : string :=
  if upper_case then upper item else item.

(** The loop of [__init__] over the iterable, building [new_iterable]. *)
Fixpoint new_iterable (upper_case : bool) (iterable : list object)
  : result (list string) :=
  match iterable with
  | [] => Ok []
  | NotStr item :: _ =>
      Raise (PyValueError ("El elemento '" +:+ item +:+ "' no es una cadena"))
  | Str item :: rest =>
      match new_iterable upper_case rest with
      | Ok items => Ok (cased upper_case item :: items)
      | Raise e => Raise e
      end
  end.

(** [args] is the optional iterable. *)
Definition __init__ (args : option (list object)) (force_upper_case : bool)
  : result t :=
  match args with
  | Some iterable =>
      match new_iterable force_upper_case iterable with
      | Ok items =>
          Ok {| upper_case := force_upper_case; elems := list_to_set items |}
      | Raise e => Raise e
      end
  | None => Ok {| upper_case := force_upper_case; elems := ∅ |}
  end.

Definition add (item : object) (self : t) : result unit * t :=
  match item with
  | NotStr item =>
      (Raise (PyValueError ("El elemento '" +:+ item +:+ "' no es una cadena")),
       self)
  | Str item =>
      (Ok tt,
       {| upper_case := upper_case self;
          elems := elems self ∪ {[cased (upper_case self) item]} |})
  end.

Definition __contains__ (o : object) (self : t) : bool :=
  let o := match o with Str s => s | NotStr str => str end in
  bool_decide (cased (upper_case self) o ∈ elems self).

End upper.

End StringSet.

(** ** Auxiliary notions for the dispatcher *)

(** A computation of the dispatcher that leaves the disk as it found it. *)
Definition keeps_disk {A : Type} (m : KafkaClient.M A) : Prop :=
  ∀ w : KafkaClient.world, KafkaClient.fs (m w).2 = KafkaClient.fs w.

(** A descriptor that has all its keys. *)
Definition descriptor (i : KafkaClient.json_id)
    (object_type identifier operation : string) (a : KafkaClient.args)
  : KafkaClient.event :=
  {| KafkaClient.e_id := Some i;
     KafkaClient.e_object_type := Some object_type;
     KafkaClient.e_object_identifier := Some identifier;
     KafkaClient.e_operation := Some operation;
     KafkaClient.e_args := Some a |}.

(** * Properties *)

(** ** The builtin containers *)

Section dict_facts.
Context {V : Type}.
Implicit Types (k : string) (v : V) (d : list (string * V)).

Lemma dict_get_set k v d : Py.dict_get k (Py.dict_set k v d) = Some v.
Proof.
  induction d as [|[k' v'] d IH]; simpl.
  - by rewrite decide_True.
  - destruct (decide (k = k')) as [->|Hne]; simpl.
    + by rewrite decide_True.
    + by rewrite decide_False.
Qed.

Lemma dict_get_set_ne k k' v d :
  k ≠ k' → Py.dict_get k' (Py.dict_set k v d) = Py.dict_get k' d.
Proof.
  intros Hne. induction d as [|[k0 v0] d IH]; simpl.
  - by rewrite decide_False.
  - destruct (decide (k = k0)) as [->|Hk]; simpl.
    + by rewrite !decide_False.
    + destruct (decide (k' = k0)); done.
Qed.

Lemma dict_set_same k v d : Py.dict_set k v d = d ↔ Py.dict_get k d = Some v.
Proof.
  split.
  - intros Heq. rewrite <- Heq. apply dict_get_set.
  - induction d as [|[k' v'] d IH]; simpl; [done|].
    destruct (decide (k = k')) as [->|Hne]; [congruence|].
    intros Hget. by rewrite IH.
Qed.

Lemma dict_del_length k d d' :
  Py.dict_del k d = Some d' → length d = S (length d').
Proof.
  revert d'. induction d as [|[k' v'] d IH]; simpl; intros d' Hdel; [done|].
  destruct (decide (k = k')); [by simplify_eq|].
  destruct (Py.dict_del k d) as [d0|]; simplify_eq/=. by rewrite (IH d0).
Qed.

Lemma dict_del_changes k d d' : Py.dict_del k d = Some d' → d' ≠ d.
Proof. intros Hdel%dict_del_length ->. lia. Qed.

Lemma dict_pop_del k d v d' :
  Py.dict_pop k d = Some (v, d') → Py.dict_del k d = Some d'.
Proof.
  unfold Py.dict_pop.
  destruct (Py.dict_get k d), (Py.dict_del k d); naive_solver.
Qed.

End dict_facts.

Lemma list_remove_length x l l' :
  Py.list_remove x l = Some l' → length l = S (length l').
Proof.
  revert l'. induction l as [|y l IH]; simpl; intros l' Hrm; [done|].
  destruct (decide (x = y)); [by simplify_eq|].
  destruct (Py.list_remove x l) as [l0|]; simplify_eq/=. by rewrite (IH l0).
Qed.

Lemma index_lt i n j : Py.index i n = Some j → j < n.
Proof.
  unfold Py.index. intros Hi.
  destruct (i <? 0)%Z;
    (destruct (_ && _)%bool eqn:Hin; simplify_eq;
     apply andb_prop in Hin as [?%Z.leb_le ?%Z.ltb_lt]; lia).
Qed.

Lemma list_pop_length l i x l' :
  Py.list_pop l i = Some (x, l') → length l = S (length l').
Proof.
  unfold Py.list_pop. destruct (Py.index i (length l)) as [j|] eqn:Hj; [|done].
  destruct (l !! j) as [y|] eqn:Hy; [|done]. intros [= _ <-].
  rewrite length_delete; [|by eauto]. apply lookup_lt_Some in Hy. lia.
Qed.

Lemma set_pop_spec s x s' :
  Py.set_pop s = Some (x, s') → x ∈ s ∧ s' = s ∖ {[x]}.
Proof.
  unfold Py.set_pop. destruct (elements s) as [|y ys] eqn:He; [done|].
  intros [= -> <-]. split; [|done].
  apply elem_of_elements. rewrite He. left.
Qed.

Lemma set_pop_None s : Py.set_pop s = None ↔ s = ∅.
Proof.
  unfold Py.set_pop. split.
  - destruct (elements s) eqn:He; [|done]. intros _. by apply elements_empty_inv in He; apply leibniz_equiv.
  - intros ->. by rewrite elements_empty.
Qed.

(** ** The modification counter *)

Local Open Scope Z_scope.

Lemma dict_counter_step (c : dict_call) (x : RemoteDict.t) (fs : disk) :
  mod_count (after c x fs).1 =
  mod_count x + (if changes c x fs then 1 else if same_pair c x then 1 else 0).
Proof.
  unfold changes, after. destruct c as [key|key item|key|key]; simpl.
  - unfold RemoteDict.remove.
    destruct (Py.dict_del key (RemoteDict._storage_ x)) as [d|] eqn:Hdel; simpl.
    + rewrite bool_decide_eq_true_2; [done|]. by eapply dict_del_changes.
    + rewrite bool_decide_eq_false_2; [lia|]. by intros [].
  - destruct (decide (Py.dict_get key (RemoteDict._storage_ x) = Some item))
      as [Hsame|Hnew].
    + rewrite (bool_decide_eq_true_2 _ Hsame).
      apply dict_set_same in Hsame. rewrite Hsame.
      rewrite bool_decide_eq_false_2; [done|]. by intros [].
    + rewrite bool_decide_eq_true_2; [done|]. by rewrite dict_set_same.
  - destruct (RemoteDict.getItem key x); simpl;
      (rewrite bool_decide_eq_false_2; [lia|]; by intros []).
  - unfold RemoteDict.pop.
    destruct (Py.dict_pop key (RemoteDict._storage_ x)) as [[v d]|] eqn:Hpop; simpl.
    + rewrite bool_decide_eq_true_2; [done|].
      eapply dict_del_changes, dict_pop_del, Hpop.
    + rewrite bool_decide_eq_false_2; [lia|]. by intros [].
Qed.

Lemma list_counter_step (c : list_call) (x : RemoteList.t) (fs : disk) :
  mod_count (after c x fs).1 =
  mod_count x + (if changes c x fs then 1 else if same_pair c x then 1 else 0).
Proof.
  unfold changes, after. destruct c as [item|item|index|index]; simpl.
  - rewrite bool_decide_eq_true_2; [done|].
    intros Heq%(f_equal length). rewrite length_app in Heq. simpl in Heq. lia.
  - unfold RemoteList.remove.
    destruct (Py.list_remove item (RemoteList._storage_ x)) as [l|] eqn:Hrm; simpl.
    + rewrite bool_decide_eq_true_2; [done|].
      intros ->. apply list_remove_length in Hrm. lia.
    + rewrite bool_decide_eq_false_2; [lia|]. by intros [].
  - destruct (RemoteList.getItem index x); simpl;
      (rewrite bool_decide_eq_false_2; [lia|]; by intros []).
  - unfold RemoteList.pop.
    set (popped := match index with
                   | Some i => Py.list_pop (RemoteList._storage_ x) i
                   | None => Py.list_pop (RemoteList._storage_ x) (-1)
                   end).
    assert (Hlen : ∀ v l, popped = Some (v, l) →
                          length (RemoteList._storage_ x) = S (length l)).
    { intros v l. subst popped. destruct index; apply list_pop_length. }
    destruct popped as [[v l]|]; simpl.
    + rewrite bool_decide_eq_true_2; [done|].
      intros ->. specialize (Hlen v _ eq_refl). lia.
    + rewrite bool_decide_eq_false_2; [lia|]. by intros [].
Qed.

Lemma set_counter_step (c : set_call) (x : RemoteSet.t) (fs : disk) :
  mod_count (after c x fs).1 =
  mod_count x + (if changes c x fs then 1 else if same_pair c x then 1 else 0).
Proof.
  unfold changes, after. destruct c as [item|item|]; simpl.
  - unfold RemoteSet.add.
    destruct (decide (item ∉ RemoteSet.data x)) as [Hnew|Hold]; simpl.
    + rewrite bool_decide_eq_true_2; [done|].
      intros Heq. apply Hnew. rewrite <- Heq.
      apply elem_of_union. right. by apply elem_of_singleton.
    + rewrite bool_decide_eq_false_2; [lia|]. by intros [].
  - unfold RemoteSet.remove. destruct (decide (item ∉ RemoteSet.data x)); simpl.
    + rewrite bool_decide_eq_false_2; [lia|]. by intros [].
    + rewrite bool_decide_eq_true_2; [done|]. set_solver.
  - unfold RemoteSet.pop.
    destruct (Py.set_pop (RemoteSet.data x)) as [[v s]|] eqn:Hpop; simpl.
    + rewrite bool_decide_eq_true_2; [done|].
      apply set_pop_spec in Hpop as [Hin ->]. set_solver.
    + rewrite bool_decide_eq_false_2; [lia|]. by intros [].
Qed.

Lemma counter_step (T call : Type) `{RType T call} :
  remote_type T call _ → ∀ (c : call) (x : T) (fs : disk),
  mod_count (after c x fs).1 =
  mod_count x + (if changes c x fs then 1 else if same_pair c x then 1 else 0).
Proof.
  destruct 1; [apply dict_counter_step|apply list_counter_step|apply set_counter_step].
Qed.

Section run_facts.
Context {T call : Type} `{RType T call}.
Hypothesis step_law : ∀ (c : call) (x : T) (fs : disk),
  mod_count (after c x fs).1 =
  mod_count x + (if changes c x fs then 1 else if same_pair c x then 1 else 0).

Lemma run_counter (calls : list call) (x : T) (fs : disk) :
  mod_count (run calls x fs).1 =
  mod_count x + count_calls changes calls x fs + count_calls restores calls x fs.
Proof.
  revert x fs. induction calls as [|c calls IH]; intros x fs; simpl; [lia|].
  pose proof (step_law c x fs) as Hc.
  assert (Hr : restores c x fs = negb (changes c x fs) && same_pair c x) by done.
  destruct (after c x fs) as [x' fs'] eqn:Hafter. simpl in Hc.
  rewrite IH, Hc, Hr. destruct (changes c x fs), (same_pair c x); simpl; lia.
Qed.

Lemma count_calls_nonneg (p : call → T → disk → bool) calls x fs :
  0 ≤ count_calls p calls x fs.
Proof.
  revert x fs. induction calls as [|c calls IH]; intros x fs; simpl; [lia|].
  destruct (after c x fs) as [x' fs']. specialize (IH x' fs').
  destruct (p c x fs); lia.
Qed.

End run_facts.




(** ** Failed calls *)

(** C9.  A call that raises leaves the collection (contents and counter) and
    the disk as they were, and what it raises is a [KeyError] or an
    [IndexError]: absent key, absent item, invalid index, empty set. *)
Theorem failed_call_changes_nothing (T call : Type) `{RType T call} :
  remote_type T call _ →
  ∀ (c : call) (x x' : T) (fs fs' : disk) (e : exn),
    invoke c x fs = (Raise e, x', fs') →
    x' = x ∧ fs' = fs ∧ (class_of e = cKeyError ∨ class_of e = cIndexError).
Proof.
  intros HT c x x' fs fs' e. destruct HT; destruct c; simpl.
  - unfold RemoteDict.remove.
    destruct (Py.dict_del key _); simpl; intros; simplify_eq; auto.
  - done.
  - unfold RemoteDict.getItem.
    destruct (Py.dict_get key _); simpl; intros; simplify_eq; auto.
  - unfold RemoteDict.pop.
    destruct (Py.dict_pop key _) as [[??]|]; simpl; intros; simplify_eq; auto.
  - done.
  - unfold RemoteList.remove.
    destruct (Py.list_remove item _); simpl; intros; simplify_eq; auto.
  - unfold RemoteList.getItem.
    destruct (Py.list_getitem _ index); simpl; intros; simplify_eq; auto.
  - unfold RemoteList.pop.
    destruct index as [i|];
      (destruct (Py.list_pop _ _) as [[??]|]; simpl; intros; simplify_eq; auto).
  - unfold RemoteSet.add.
    destruct (decide (item ∉ _)); simpl; intros; simplify_eq.
  - unfold RemoteSet.remove.
    destruct (decide (item ∉ _)); simpl; intros; simplify_eq; auto.
  - unfold RemoteSet.pop.
    destruct (Py.set_pop _) as [[??]|]; simpl; intros; simplify_eq; auto.
Qed.

Lemma failed_call_changes_nothing_witness :
  let x := (RemoteList.append "a"
              (RemoteList.__init__ "l" "storage/rlist_l.json" no_files)
              no_files).1.2 in
  let e := IndexError "Index 10 is out of range" in
  remote_type RemoteList.t list_call _
  ∧ invoke (ListPop (Some 10%Z)) x no_files = (Raise e, x, no_files)
  ∧ x = x ∧ no_files = no_files
  ∧ (class_of e = cKeyError ∨ class_of e = cIndexError).
Proof.
  intros x e.
  assert (Hcall : invoke (ListPop (Some 10%Z)) x no_files = (Raise e, x, no_files))
    by (vm_compute; reflexivity).
  split; [constructor|]. split; [exact Hcall|].
  exact (failed_call_changes_nothing RemoteList.t list_call remote_list _ _ _ _ _ _ Hcall).
Defined.

(** ** Persistence round trip *)

Lemma set_storage_file_after (c : set_call) (x : RemoteSet.t) fs :
  RemoteSet.storage_file (after c x fs).1 = RemoteSet.storage_file x.
Proof.
  unfold after. destruct c; simpl.
  - unfold RemoteSet.add. by destruct (decide _).
  - unfold RemoteSet.remove. by destruct (decide _).
  - unfold RemoteSet.pop. by destruct (Py.set_pop _) as [[??]|].
Qed.

Lemma set_identifier_after (c : set_call) (x : RemoteSet.t) fs :
  RemoteSet.identifier (after c x fs).1 = RemoteSet.identifier x.
Proof.
  unfold after. destruct c; simpl.
  - unfold RemoteSet.add. by destruct (decide _).
  - unfold RemoteSet.remove. by destruct (decide _).
  - unfold RemoteSet.pop. by destruct (Py.set_pop _) as [[??]|].
Qed.

Lemma set_storage_file_run (calls : list (set_call)) x fs :
  RemoteSet.storage_file (run calls x fs).1 = RemoteSet.storage_file x.
Proof.
  revert x fs. induction calls as [|c calls IH]; intros x fs; simpl; [done|].
  pose proof (set_storage_file_after c x fs) as Hc.
  destruct (after c x fs) as [x' fs']. by rewrite IH.
Qed.

Lemma dict_round_trip (x : RemoteDict.t) (fs : disk) :
  contents_of (reopen x (save x fs)) = contents_of x.
Proof.
  simpl. unfold RemoteDict._load_data, RemoteDict._save_data. simpl.
  by rewrite lookup_insert_eq.
Qed.

Lemma list_round_trip (x : RemoteList.t) (fs : disk) :
  contents_of (reopen x (save x fs)) = contents_of x.
Proof.
  simpl. unfold RemoteList._load_data, RemoteList._save_data. simpl.
  by rewrite lookup_insert_eq, dict_get_set.
Qed.

Lemma set_round_trip (x : RemoteSet.t) (fs : disk) :
  RemoteSet.storage_file x = RemoteSet.GLOBAL_STORAGE_FILE →
  contents_of (reopen x (save x fs)) = contents_of x.
Proof.
  intros Hfile. simpl.
  unfold RemoteSet._load_data, RemoteSet._save_global_storage. simpl.
  rewrite Hfile, lookup_insert_eq, dict_get_set.
  apply list_to_set_elements_L.
Qed.

(** C7.  Whatever calls a newly constructed collection has gone through,
    saving its state (on any disk) and constructing a new instance with the
    same identifier and backing file gives the same contents and the same
    length. *)
Theorem persist_reload_round_trip (T call : Type) `{RType T call} :
  remote_type T call _ →
  ∀ (x0 : T) (fs0 : disk) (calls : list call) (fs : disk),
    let x := (run calls (reopen x0 fs0) fs0).1 in
    contents_of (reopen x (save x fs)) = contents_of x
    ∧ len (reopen x (save x fs)) = len x.
Proof.
  intros HT x0 fs0 calls fs x.
  assert (Hc : contents_of (reopen x (save x fs)) = contents_of x).
  { destruct HT.
    - apply dict_round_trip.
    - apply list_round_trip.
    - apply set_round_trip. subst x. by rewrite set_storage_file_run. }
  split; [done|].
  destruct HT; simpl in *.
  - unfold RemoteDict.length. simpl. by rewrite Hc.
  - unfold RemoteList.length. simpl. by rewrite Hc.
  - unfold RemoteSet.length. simpl. by rewrite Hc.
Qed.

Lemma persist_reload_round_trip_witness :
  remote_type RemoteDict.t dict_call _ ∧
  let x0 := RemoteDict.__init__ "d" "storage/rdict_d.json" no_files in
  let calls : list (dict_call) :=
    [DictSetItem "k" "v"; DictSetItem "j" "w"; DictRemove "k"] in
  let x := (run calls (reopen x0 no_files) no_files).1 in
  contents_of (reopen x (save x no_files)) = contents_of x
  ∧ len (reopen x (save x no_files)) = len x.
Proof.
  split; [constructor|].
  exact (persist_reload_round_trip RemoteDict.t dict_call remote_dict
           (RemoteDict.__init__ "d" "storage/rdict_d.json" no_files) no_files
           [DictSetItem "k" "v"; DictSetItem "j" "w"; DictRemove "k"] no_files).
Defined.

(** ** RemoteSet.pop *)

(** C4 (as the code has it).  On an empty set [pop] raises the [KeyError] of
    the slice and changes nothing; on a non-empty set it returns one of the
    elements, removes it, counts one modification and saves. *)
Theorem set_pop_raises_KeyError_or_removes_an_element
    (s : RemoteSet.t) (fs : disk) :
  (RemoteSet.data s = ∅ →
   RemoteSet.pop s fs = (Raise (KeyError "El conjunto está vacío."), s, fs))
  ∧ (RemoteSet.data s ≠ ∅ →
     ∃ item : string,
       item ∈ RemoteSet.data s
       ∧ let s' := RemoteSet.mutated s (RemoteSet.data s ∖ {[item]}) in
         RemoteSet.pop s fs =
         (Ok item, s', RemoteSet._save_global_storage s' fs)).
Proof.
  unfold RemoteSet.pop. split.
  - intros Hempty. apply set_pop_None in Hempty. by rewrite Hempty.
  - intros Hne. destruct (Py.set_pop (RemoteSet.data s)) as [[item s']|] eqn:Hpop.
    + apply set_pop_spec in Hpop as [Hin ->]. by exists item.
    + by apply set_pop_None in Hpop.
Qed.

Lemma set_pop_raises_KeyError_or_removes_an_element_witness :
  let s0 := RemoteSet.__init__ "s" no_files in
  let s1 := (RemoteSet.add "a" s0 no_files).1.2 in
  RemoteSet.pop s0 no_files =
    (Raise (KeyError "El conjunto está vacío."), s0, no_files)
  ∧ ∃ item : string,
      item ∈ RemoteSet.data s1
      ∧ let s' := RemoteSet.mutated s1 (RemoteSet.data s1 ∖ {[item]}) in
        RemoteSet.pop s1 no_files =
        (Ok item, s', RemoteSet._save_global_storage s' no_files).
Proof.
  intros s0 s1. split.
  - apply (set_pop_raises_KeyError_or_removes_an_element s0 no_files).
    reflexivity.
  - apply (set_pop_raises_KeyError_or_removes_an_element s1 no_files).
    vm_compute. discriminate.
Defined.

(** C4 as stated fails: there is no error of its own for the empty set;
    [pop] raises the exception [remove] raises for an absent element. *)
Lemma set_pop_on_empty_raises_what_remove_raises :
  let s := RemoteSet.__init__ "s" no_files in
  ∃ e_pop e_remove : exn,
    (RemoteSet.pop s no_files).1.1 = Raise e_pop
    ∧ (RemoteSet.remove "a" s no_files).1.1 = Raise e_remove
    ∧ e_pop = KeyError "El conjunto está vacío."
    ∧ class_of e_pop = class_of e_remove.
Proof. simpl. do 2 eexists. repeat split; vm_compute; reflexivity. Qed.

(** ** Backing files *)

Local Open Scope nat_scope.

Lemma string_length_app (s1 s2 : string) :
  String.length (s1 +:+ s2) = String.length s1 + String.length s2.
Proof. induction s1 as [|c s1 IH]; simpl; [done|]. by rewrite IH. Qed.

Lemma string_app_inj_r (t s1 s2 : string) : s1 +:+ t = s2 +:+ t → s1 = s2.
Proof.
  revert s2. induction s1 as [|c s1 IH]; intros [|c' s2] Heq; simpl in *.
  - done.
  - apply (f_equal String.length) in Heq. simpl in Heq.
    rewrite !string_length_app in Heq. simpl in Heq. lia.
  - apply (f_equal String.length) in Heq. simpl in Heq.
    rewrite !string_length_app in Heq. simpl in Heq. lia.
  - injection Heq as -> Heq. f_equal. by apply IH.
Qed.

(** The file the factory gives a dictionary or a list determines the
    identifier. *)
Lemma storage_file_inj (kind i j : string) :
  Factory.path_join Factory.STORAGE_PATH (kind +:+ i +:+ ".json") =
  Factory.path_join Factory.STORAGE_PATH (kind +:+ j +:+ ".json") →
  i = j.
Proof.
  unfold Factory.path_join. intros Heq.
  do 3 apply String.app_inj in Heq. by apply string_app_inj_r in Heq.
Qed.

Lemma dict_save_lookup (d : RemoteDict.t) (fs : disk) :
  dict_files (RemoteDict._save_data d fs) !! RemoteDict.storage_file d =
  Some (Doc (RemoteDict._storage_ d)).
Proof. unfold RemoteDict._save_data. simpl. by rewrite lookup_insert_eq. Qed.

Lemma list_save_lookup (l : RemoteList.t) (fs : disk) :
  ∃ doc : list (string * list string),
    seq_files (RemoteList._save_data l fs) !! RemoteList.storage_file l =
    Some (Doc doc)
    ∧ Py.dict_get (RemoteList.id_ l) doc = Some (RemoteList._storage_ l)
    ∧ ∀ (j : string) (old : list (string * list string)),
        j ≠ RemoteList.id_ l →
        seq_files fs !! RemoteList.storage_file l = Some (Doc old) →
        Py.dict_get j doc = Py.dict_get j old.
Proof.
  unfold RemoteList._save_data. simpl. eexists. rewrite lookup_insert_eq.
  split; [done|]. split; [apply dict_get_set|].
  intros j old Hj ->. by apply dict_get_set_ne.
Qed.

Lemma set_save_lookup (s : RemoteSet.t) (fs : disk) :
  ∃ doc : list (string * list string),
    seq_files (RemoteSet._save_global_storage s fs) !! RemoteSet.storage_file s =
    Some (Doc doc)
    ∧ Py.dict_get (RemoteSet.identifier s) doc = Some (elements (RemoteSet.data s))
    ∧ ∀ (j : string) (old : list (string * list string)),
        j ≠ RemoteSet.identifier s →
        seq_files fs !! RemoteSet.storage_file s = Some (Doc old) →
        Py.dict_get j doc = Py.dict_get j old.
Proof.
  unfold RemoteSet._save_global_storage. simpl. eexists.
  rewrite lookup_insert_eq.
  split; [done|]. split; [apply dict_get_set|].
  intros j old Hj ->. by apply dict_get_set_ne.
Qed.

(** C3 (as the code has it).  The factory gives every dictionary and every
    list a file of its own, named after the identifier, and every set the one
    file [remoteset_data.json].  A dictionary writes its state as the whole
    file, with no identifier around it; a list and a set write their state
    under their identifier and keep what the file holds under other
    identifiers. *)
Theorem persisted_records :
  (∀ (i : string) (f : Factory.t) (fs : disk),
     Factory._rdicts f !! i = None →
     ∃ d : RemoteDict.t,
       Factory._rdicts (Factory._get_rdict i f fs).2 !! i = Some d
       ∧ RemoteDict.id_ d = i
       ∧ RemoteDict.storage_file d = "storage/rdict_" +:+ i +:+ ".json")
  ∧ (∀ (i : string) (f : Factory.t) (fs : disk),
       Factory._rlists f !! i = None →
       ∃ l : RemoteList.t,
         Factory._rlists (Factory._get_rlist i f fs).2 !! i = Some l
         ∧ RemoteList.id_ l = i
         ∧ RemoteList.storage_file l = "storage/rlist_" +:+ i +:+ ".json")
  ∧ (∀ (i : string) (f : Factory.t) (fs : disk),
       Factory._rsets f !! i = None →
       ∃ s : RemoteSet.t,
         Factory._rsets (Factory._get_rset i f fs).2 !! i = Some s
         ∧ RemoteSet.identifier s = i
         ∧ RemoteSet.storage_file s = "remoteset_data.json")
  ∧ (∀ i j : string,
       ("storage/rdict_" +:+ i +:+ ".json" = "storage/rdict_" +:+ j +:+ ".json"
        → i = j)
       ∧ ("storage/rlist_" +:+ i +:+ ".json" = "storage/rlist_" +:+ j +:+ ".json"
          → i = j))
  ∧ (∀ (d : RemoteDict.t) (fs : disk),
       dict_files (RemoteDict._save_data d fs) !! RemoteDict.storage_file d =
       Some (Doc (RemoteDict._storage_ d)))
  ∧ (∀ (l : RemoteList.t) (fs : disk),
       ∃ doc : list (string * list string),
         seq_files (RemoteList._save_data l fs) !! RemoteList.storage_file l =
         Some (Doc doc)
         ∧ Py.dict_get (RemoteList.id_ l) doc = Some (RemoteList._storage_ l)
         ∧ ∀ (j : string) (old : list (string * list string)),
             j ≠ RemoteList.id_ l →
             seq_files fs !! RemoteList.storage_file l = Some (Doc old) →
             Py.dict_get j doc = Py.dict_get j old)
  ∧ (∀ (s : RemoteSet.t) (fs : disk),
       ∃ doc : list (string * list string),
         seq_files (RemoteSet._save_global_storage s fs)
           !! RemoteSet.storage_file s = Some (Doc doc)
         ∧ Py.dict_get (RemoteSet.identifier s) doc =
           Some (elements (RemoteSet.data s))
         ∧ ∀ (j : string) (old : list (string * list string)),
             j ≠ RemoteSet.identifier s →
             seq_files fs !! RemoteSet.storage_file s = Some (Doc old) →
             Py.dict_get j doc = Py.dict_get j old).
Proof.
  repeat split.
  - intros i f fs Hmiss. unfold Factory._get_rdict. rewrite Hmiss. simpl.
    eexists. by rewrite lookup_insert_eq.
  - intros i f fs Hmiss. unfold Factory._get_rlist. rewrite Hmiss. simpl.
    eexists. by rewrite lookup_insert_eq.
  - intros i f fs Hmiss. unfold Factory._get_rset. rewrite Hmiss. simpl.
    eexists. by rewrite lookup_insert_eq.
  - apply (storage_file_inj "rdict_").
  - apply (storage_file_inj "rlist_").
  - apply dict_save_lookup.
  - apply list_save_lookup.
  - apply set_save_lookup.
Qed.

Lemma persisted_records_witness :
  (∃ d : RemoteDict.t,
     Factory._rdicts (Factory._get_rdict "a" Factory.__init__ no_files).2 !! "a"
     = Some d
     ∧ RemoteDict.id_ d = "a"
     ∧ RemoteDict.storage_file d = "storage/rdict_a.json")
  ∧ (∃ s : RemoteSet.t,
       Factory._rsets (Factory._get_rset "a" Factory.__init__ no_files).2 !! "a"
       = Some s
       ∧ RemoteSet.identifier s = "a"
       ∧ RemoteSet.storage_file s = "remoteset_data.json").
Proof.
  destruct persisted_records as (Hd & _ & Hs & _). split.
  - apply (Hd "a" Factory.__init__ no_files). reflexivity.
  - apply (Hs "a" Factory.__init__ no_files). reflexivity.
Defined.

(** C3 as stated fails on RemoteDict: the file of dictionary [d1] holding
    [k ↦ v] is the object [{k: v}], which has nothing under [d1]. *)
Lemma dict_file_is_not_keyed_by_identifier :
  let d := RemoteDict.__init__ "d1" "storage/rdict_d1.json" no_files in
  let fs := (RemoteDict.setItem "k" "v" d no_files).2 in
  dict_files fs !! "storage/rdict_d1.json" = Some (Doc [("k", "v")])
  ∧ Py.dict_get "d1" [("k", "v")] = None.
Proof. vm_compute. done. Qed.

(** ** The factory *)

(** C5 (as the code has it).  On the first access for an identifier the
    factory constructs the instance from what the backing file holds for it,
    or empty when there is no file, the file is not JSON or has nothing for
    the identifier; the instance starts with counter 0, is cached and is the
    one the proxy names.  Nothing is written: the disk after [get] is the
    disk before it. *)
Theorem first_access_loads_and_writes_nothing
    (identifier : option string) (f : Factory.t) (fs : disk) :
  (let i := Factory.or_default identifier "default_rdict" in
   Factory._rdicts f !! i = None →
   ∃ f' : Factory.t,
     Factory.get RDict identifier f fs = (Ok (RDictPrx i), f', fs)
     ∧ Factory._rdicts f' !! i =
       Some (RemoteDict.Build i ("storage/rdict_" +:+ i +:+ ".json")
               (match dict_files fs !! ("storage/rdict_" +:+ i +:+ ".json") with
                | Some (Doc data) => data
                | _ => []
                end) 0))
  ∧ (let i := Factory.or_default identifier "default_rlist" in
     Factory._rlists f !! i = None →
     ∃ f' : Factory.t,
       Factory.get RList identifier f fs = (Ok (RListPrx i), f', fs)
       ∧ Factory._rlists f' !! i =
         Some (RemoteList.Build i ("storage/rlist_" +:+ i +:+ ".json") 0
                 (match seq_files fs !! ("storage/rlist_" +:+ i +:+ ".json") with
                  | Some (Doc data) => default [] (Py.dict_get i data)
                  | _ => []
                  end)))
  ∧ (let i := Factory.or_default identifier "default_rset" in
     Factory._rsets f !! i = None →
     ∃ f' : Factory.t,
       Factory.get RSet identifier f fs = (Ok (RSetPrx i), f', fs)
       ∧ Factory._rsets f' !! i =
         Some (RemoteSet.Build i
                 (match seq_files fs !! "remoteset_data.json" with
                  | Some (Doc storage) =>
                      list_to_set (default [] (Py.dict_get i storage))
                  | _ => ∅
                  end) 0 "remoteset_data.json")).
Proof.
  repeat split; intros i Hmiss; subst i; simpl.
  - unfold Factory._get_rdict. rewrite Hmiss. eexists. split; [done|].
    simpl. by rewrite lookup_insert_eq.
  - unfold Factory._get_rlist. rewrite Hmiss. eexists. split; [done|].
    simpl. by rewrite lookup_insert_eq.
  - unfold Factory._get_rset. rewrite Hmiss. eexists. split; [done|].
    simpl. rewrite lookup_insert_eq.
    unfold RemoteSet.__init__, RemoteSet._load_data, RemoteSet.GLOBAL_STORAGE_FILE.
    do 2 f_equal. by repeat case_match.
Qed.

Lemma first_access_loads_and_writes_nothing_witness :
  ∃ f' : Factory.t,
    Factory.get RList (Some "x") Factory.__init__ no_files =
    (Ok (RListPrx "x"), f', no_files)
    ∧ Factory._rlists f' !! "x" =
      Some (RemoteList.Build "x" "storage/rlist_x.json" 0 []).
Proof.
  destruct (first_access_loads_and_writes_nothing (Some "x") Factory.__init__
              no_files) as (_ & Hl & _).
  apply Hl. reflexivity.
Defined.

(** C5 as stated fails: after the first access for dictionary [x], list [x]
    and set [x] on an empty disk each instance exists and the disk is still
    empty; the first record is written by the first call that changes the
    collection. *)
Lemma first_access_persists_nothing :
  let '(_, f1, fs1) := Factory.get RDict (Some "x") Factory.__init__ no_files in
  let '(_, f2, fs2) := Factory.get RList (Some "x") f1 fs1 in
  let '(_, f3, fs3) := Factory.get RSet (Some "x") f2 fs2 in
  is_Some (Factory._rdicts f3 !! "x")
  ∧ is_Some (Factory._rlists f3 !! "x")
  ∧ is_Some (Factory._rsets f3 !! "x")
  ∧ dict_files fs3 !! "storage/rdict_x.json" = None
  ∧ seq_files fs3 !! "storage/rlist_x.json" = None
  ∧ seq_files fs3 !! "remoteset_data.json" = None
  ∧ fs3 = no_files.
Proof. vm_compute. repeat split; eauto. Qed.

(** C10.  [get] with the empty string does what [get] without an identifier
    does, for every type: the same result, the same factory after the call
    and the same disk.  For the three remote types the proxy returned is
    that of the instance under the default identifier of the type, and
    after the call the cache of the type holds that instance under the
    default identifier: the one that was cached there, or else a new one
    constructed for the default identifier and its file.  Nothing is
    cached under the empty string, every other entry of the cache and the
    two other caches are as they were, and a later [get] without an
    identifier returns the same proxy and leaves the factory as it is. *)
Theorem get_empty_identifier_is_get_default
    (typeName : TypeName) (f : Factory.t) (fs fs_later : disk) :
  Factory.get typeName (Some "") f fs = Factory.get typeName None f fs
  ∧ (Factory.get RDict (Some "") f fs).1.1 = Ok (RDictPrx "default_rdict")
  ∧ (Factory.get RList (Some "") f fs).1.1 = Ok (RListPrx "default_rlist")
  ∧ (Factory.get RSet (Some "") f fs).1.1 = Ok (RSetPrx "default_rset")
  ∧ (let f' := (Factory.get RDict (Some "") f fs).1.2 in
     Factory._rdicts f' !! "default_rdict" =
       Some (default
               (RemoteDict.__init__ "default_rdict"
                  "storage/rdict_default_rdict.json" fs)
               (Factory._rdicts f !! "default_rdict"))
     ∧ Factory._rdicts f' !! "" = Factory._rdicts f !! ""
     ∧ delete "default_rdict" (Factory._rdicts f')
       = delete "default_rdict" (Factory._rdicts f)
     ∧ Factory._rlists f' = Factory._rlists f
     ∧ Factory._rsets f' = Factory._rsets f
     ∧ Factory.get RDict None f' fs_later =
       (Ok (RDictPrx "default_rdict"), f', fs_later))
  ∧ (let f' := (Factory.get RList (Some "") f fs).1.2 in
     Factory._rlists f' !! "default_rlist" =
       Some (default
               (RemoteList.__init__ "default_rlist"
                  "storage/rlist_default_rlist.json" fs)
               (Factory._rlists f !! "default_rlist"))
     ∧ Factory._rlists f' !! "" = Factory._rlists f !! ""
     ∧ delete "default_rlist" (Factory._rlists f')
       = delete "default_rlist" (Factory._rlists f)
     ∧ Factory._rdicts f' = Factory._rdicts f
     ∧ Factory._rsets f' = Factory._rsets f
     ∧ Factory.get RList None f' fs_later =
       (Ok (RListPrx "default_rlist"), f', fs_later))
  ∧ (let f' := (Factory.get RSet (Some "") f fs).1.2 in
     Factory._rsets f' !! "default_rset" =
       Some (default (RemoteSet.__init__ "default_rset" fs)
               (Factory._rsets f !! "default_rset"))
     ∧ Factory._rsets f' !! "" = Factory._rsets f !! ""
     ∧ delete "default_rset" (Factory._rsets f')
       = delete "default_rset" (Factory._rsets f)
     ∧ Factory._rdicts f' = Factory._rdicts f
     ∧ Factory._rlists f' = Factory._rlists f
     ∧ Factory.get RSet None f' fs_later =
       (Ok (RSetPrx "default_rset"), f', fs_later)).
Proof.
  split; [by destruct typeName|].
  unfold Factory.get, Factory.or_default.
  unfold Factory._get_rdict, Factory._get_rlist, Factory._get_rset.
  split; [|split; [|split; [|split; [|split]]]].
  - by destruct (Factory._rdicts f !! "default_rdict").
  - by destruct (Factory._rlists f !! "default_rlist").
  - by destruct (Factory._rsets f !! "default_rset").
  - destruct (Factory._rdicts f !! "default_rdict") as [d|] eqn:Hd;
      cbn [fst snd Factory._rdicts Factory._rlists Factory._rsets default
           from_option id].
    + rewrite Hd. by destruct f.
    + rewrite lookup_insert_eq, lookup_insert_ne by done.
      rewrite delete_insert_eq. by rewrite (delete_id _ _ Hd).
  - destruct (Factory._rlists f !! "default_rlist") as [l|] eqn:Hl;
      cbn [fst snd Factory._rdicts Factory._rlists Factory._rsets default
           from_option id].
    + rewrite Hl. by destruct f.
    + rewrite lookup_insert_eq, lookup_insert_ne by done.
      rewrite delete_insert_eq. by rewrite (delete_id _ _ Hl).
  - destruct (Factory._rsets f !! "default_rset") as [s|] eqn:Hs;
      cbn [fst snd Factory._rdicts Factory._rlists Factory._rsets default
           from_option id].
    + rewrite Hs. by destruct f.
    + rewrite lookup_insert_eq, lookup_insert_ne by done.
      rewrite delete_insert_eq. by rewrite (delete_id _ _ Hs).
Qed.

(** ** Iterators *)

Local Open Scope Z_scope.

Lemma dict_iter_inv_init (d : RemoteDict.t) :
  dict_iter_inv (DictIterator.__init__ d (RemoteDict._modification_count d)) d.
Proof. split; simpl; [lia|done]. Qed.

Lemma dict_iter_inv_after (it : DictIterator.t) (d : RemoteDict.t)
    (c : dict_call) (fs : disk) :
  dict_iter_inv it d → dict_iter_inv it (after c d fs).1.
Proof.
  intros [Hle Hsize]. pose proof (dict_counter_step c d fs) as Hstep.
  unfold changes in Hstep. set (again := same_pair c d) in Hstep.
  destruct (after c d fs) as [d' fs'] eqn:Hafter. simpl in *.
  case_bool_decide as Hsame.
  - split; [lia|]. intros Heq. lia.
  - destruct again; (split; [lia|]); intros Heq; [lia|].
    rewrite Hsame. apply Hsize. lia.
Qed.

Lemma dict_iter_inv_next (it : DictIterator.t) (d : RemoteDict.t) :
  dict_iter_inv it d → dict_iter_inv (DictIterator.next it d).2 d.
Proof.
  intros [Hle Hsize]. unfold DictIterator.next.
  destruct (decide (_ ≠ _)) as [Hne|Heq%dec_stable]; [done|].
  specialize (Hsize Heq). unfold Py.sized_iter_next. rewrite Hsize.
  destruct (Py.si_live _); [|done]. rewrite decide_True by done.
  destruct (_ !! _) as [[k v]|]; done.
Qed.

(** The iterator of a dictionary does what C2 says: a moved counter cancels
    before anything else is looked at, and with the counter in place the
    call returns an entry of the dictionary as ["key: value"] or reports
    exhaustion. *)
Lemma dict_next_compares_counters_first (it : DictIterator.t) (d : RemoteDict.t) :
  dict_iter_inv it d →
  (DictIterator._expected_mod_count it ≠ RemoteDict._modification_count d →
   DictIterator.next it d = (Raise CancelIteration, it))
  ∧ (DictIterator._expected_mod_count it = RemoteDict._modification_count d →
     (DictIterator.next it d).1 = Raise StopIteration
     ∨ ∃ key value : string,
         (key, value) ∈ RemoteDict._storage_ d
         ∧ (DictIterator.next it d).1 = Ok (key +:+ ": " +:+ value)).
Proof.
  intros [Hle Hsize]. unfold DictIterator.next. split.
  - intros Hne. by rewrite decide_True.
  - intros Heq. rewrite decide_False by (by intros []).
    specialize (Hsize Heq). unfold Py.sized_iter_next. rewrite Hsize.
    destruct (Py.si_live _); [|by left]. rewrite decide_True by done.
    destruct (_ !! _) as [[k v]|] eqn:Hlook; [|by left].
    right. exists k, v. split; [|done]. by eapply list_elem_of_lookup_2.
Qed.

(** So does the iterator of a list. *)
Lemma list_next_compares_counters_first (it : ListIterator.t) (l : RemoteList.t) :
  (ListIterator._expected_mod_count it ≠ RemoteList._modification_count l →
   ListIterator.next it l = (Raise CancelIteration, it))
  ∧ (ListIterator._expected_mod_count it = RemoteList._modification_count l →
     (ListIterator.next it l).1 = Raise StopIteration
     ∨ ∃ item : string,
         item ∈ RemoteList._storage_ l
         ∧ (ListIterator.next it l).1 = Ok item).
Proof.
  unfold ListIterator.next. split.
  - intros Hne. by rewrite decide_True.
  - intros Heq. rewrite decide_False by (by intros []).
    unfold Py.list_iter_next. destruct (ListIterator._iterator it) as [i|]; [|by left].
    destruct (_ !! _) as [item|] eqn:Hlook; [|by left].
    right. exists item. split; [|done]. by eapply list_elem_of_lookup_2.
Qed.

(** The iterator of a set never looks at the counter: what [next] does is
    decided by the elements of the set alone. *)
Lemma set_next_ignores_counter (it : RemoteSetIterator.t) (s1 s2 : RemoteSet.t) :
  RemoteSet.data s1 = RemoteSet.data s2 →
  RemoteSetIterator.next it s1 = RemoteSetIterator.next it s2.
Proof. unfold RemoteSetIterator.next. by intros ->. Qed.

(** C2 fails on RemoteSet.  An iterator made when the set is [{a}] at
    counter 1 is asked for its next element after [remove a] and [add b]
    have taken the counter to 3: the size is what it was, so the call
    returns [b] instead of raising CancelIteration.  And an iterator that
    has reported exhaustion on the empty set reports exhaustion again after
    an [add]. *)
Theorem set_iterator_misses_mutations :
  (let s0 := RemoteSet.__init__ "s" no_files in
   let '(_, s1, fs1) := RemoteSet.add "a" s0 no_files in
   let it := RemoteSetIterator.__init__ s1 in
   let '(_, s2, fs2) := RemoteSet.remove "a" s1 fs1 in
   let '(_, s3, fs3) := RemoteSet.add "b" s2 fs2 in
   RemoteSet._modification_count s1 = 1
   ∧ RemoteSet._modification_count s3 = 3
   ∧ (RemoteSetIterator.next it s3).1 = Ok "b")
  ∧ (let s0 := RemoteSet.__init__ "s" no_files in
     let it := RemoteSetIterator.__init__ s0 in
     let '(r1, it1) := RemoteSetIterator.next it s0 in
     let '(_, s1, fs1) := RemoteSet.add "a" s0 no_files in
     r1 = Raise StopIteration
     ∧ RemoteSet._modification_count s0 = 0
     ∧ RemoteSet._modification_count s1 = 1
     ∧ (RemoteSetIterator.next it1 s1).1 = Raise StopIteration).
Proof. vm_compute. repeat split. Qed.

(** ** The dispatcher *)

Section dispatcher_facts.
Context `{Py.Hash}.
Import KafkaClient.

(** The loop only appends to [message], and what it does to the world does
    not depend on what [message] holds. *)
Lemma process_op_appends (op : event) (message : list response) (w : world) :
  process_op op message w =
  match process_op op [] w with
  | (Ok m, w') => (Ok (message ++ m), w')
  | (Raise e, w') => (Raise e, w')
  end.
Proof.
  unfold process_op, bind, op_id, subscript, ret, raise.
  destruct (hacer_evento op w) as [[[result error]|e] w1]; [|done].
  destruct (truthy error).
  - destruct (e_id op) as [[|tok]|]; by rewrite ?app_nil_r.
  - destruct result; destruct (e_id op); by rewrite ?app_nil_r.
Qed.

Lemma process_ops_appends (event_list : list event) (message : list response)
    (w : world) :
  process_ops event_list message w =
  match process_ops event_list [] w with
  | (Ok m, w') => (Ok (message ++ m), w')
  | (Raise e, w') => (Raise e, w')
  end.
Proof.
  revert message w. induction event_list as [|op rest IH]; intros message w.
  - simpl. unfold ret. by rewrite app_nil_r.
  - simpl. unfold bind. rewrite (process_op_appends op message).
    destruct (process_op op [] w) as [[m1|e] w1]; [|done].
    rewrite (IH (message ++ m1)), (IH m1).
    destruct (process_ops rest [] w1) as [[m2|e] w2]; [|done].
    by rewrite app_assoc.
Qed.

(** What the loop does report.  When the loop over a batch runs to its end,
    every descriptor for which [hacer_evento] returned an error and whose
    [id] is present and not null has its record in the response batch, with
    that [id], status ["error"] and the error.  [hacer_evento] is run in the
    world the descriptors before it have left. *)
Theorem returned_errors_with_id_are_reported
    (event_list : list event) (w w' : world) (message : list response) :
  process_ops event_list [] w = (Ok message, w') →
  ∀ (i : nat) (op : event) (result : option value) (error : option string)
    (tok : string) (w_i : world),
    event_list !! i = Some op →
    hacer_evento op (process_ops (take i event_list) [] w).2 =
      (Ok (result, error), w_i) →
    truthy error = true →
    e_id op = Some (IdTok tok) →
    {| r_id := IdTok tok; r_status := "error"; r_result := None;
       r_error := error |} ∈ message.
Proof.
  revert w message. induction event_list as [|op0 rest IH];
    intros w message Hrun i op result error tok w_i Hop Hev Herr Hid; [done|].
  simpl in Hrun. unfold bind in Hrun.
  destruct (process_op op0 [] w) as [[m1|e] w1] eqn:Hop0; [|done].
  rewrite process_ops_appends in Hrun.
  destruct (process_ops rest [] w1) as [[m2|e] w2] eqn:Hrest; [|done].
  injection Hrun as <- <-.
  destruct i as [|i]; simpl in Hop, Hev.
  - injection Hop as ->. apply elem_of_app. left.
    unfold process_op, bind in Hop0. unfold ret in Hev. simpl in Hev.
    rewrite Hev, Herr, Hid in Hop0. unfold ret in Hop0.
    injection Hop0 as <- _. set_solver.
  - apply elem_of_app. right.
    unfold bind in Hev. rewrite Hop0 in Hev.
    rewrite process_ops_appends in Hev.
    eapply (IH w1 m2 Hrest i op result error tok w_i Hop); [|done..].
    by destruct (process_ops (take i rest) [] w1) as [[?|?] ?] eqn:Htake.
Qed.

End dispatcher_facts.

Lemma returned_errors_with_id_are_reported_witness :
  let op1 :=
    {| KafkaClient.e_id := Some (KafkaClient.IdTok "1");
       KafkaClient.e_object_type := Some "RList";
       KafkaClient.e_object_identifier := Some "L1";
       KafkaClient.e_operation := Some "append";
       KafkaClient.e_args :=
         Some {| KafkaClient.a_item := Some "x"; KafkaClient.a_index := None;
                 KafkaClient.a_key := None |} |} in
  let op2 :=
    {| KafkaClient.e_id := Some (KafkaClient.IdTok "2");
       KafkaClient.e_object_type := Some "RList";
       KafkaClient.e_object_identifier := Some "L1";
       KafkaClient.e_operation := Some "iter";
       KafkaClient.e_args := None |} in
  {| KafkaClient.r_id := KafkaClient.IdTok "2"; KafkaClient.r_status := "error";
     KafkaClient.r_result := None;
     KafkaClient.r_error := Some "OperationNotSupported" |}
  ∈ [ {| KafkaClient.r_id := KafkaClient.IdTok "1"; KafkaClient.r_status := "ok";
         KafkaClient.r_result := None; KafkaClient.r_error := None |};
      {| KafkaClient.r_id := KafkaClient.IdTok "2"; KafkaClient.r_status := "error";
         KafkaClient.r_result := None;
         KafkaClient.r_error := Some "OperationNotSupported" |} ].
Proof.
  intros op1 op2.
  pose (w0 := {| KafkaClient.factory := Factory.__init__;
                 KafkaClient.fs := no_files |}).
  refine (returned_errors_with_id_are_reported (H := constant_hash)
            [op1; op2] w0
            (@KafkaClient.process_ops constant_hash [op1; op2] [] w0).2
            _ _ 1%nat op2 None (Some "OperationNotSupported") "2"
            (@KafkaClient.hacer_evento constant_hash op2
               (@KafkaClient.process_ops constant_hash [op1] [] w0).2).2
            _ _ _ _); vm_compute; reflexivity.
Defined.

(** The guard on [id]: a descriptor with no [id] is malformed, and one
    whose [id] is null names an unknown type; [hacer_evento] returns an error
    for each, no record is made for either, and the batch gets no response
    at all. *)
Lemma errors_without_id_are_not_reported :
  let w0 := {| KafkaClient.factory := Factory.__init__;
               KafkaClient.fs := no_files |} in
  let op1 :=
    {| KafkaClient.e_id := None;
       KafkaClient.e_object_type := Some "RDict";
       KafkaClient.e_object_identifier := Some "D1";
       KafkaClient.e_operation := Some "length";
       KafkaClient.e_args := None |} in
  let op2 :=
    {| KafkaClient.e_id := Some KafkaClient.IdNull;
       KafkaClient.e_object_type := Some "RQueue";
       KafkaClient.e_object_identifier := Some "Q1";
       KafkaClient.e_operation := Some "length";
       KafkaClient.e_args := None |} in
  (@KafkaClient.hacer_evento constant_hash op1 w0).1 =
    Ok (None, Some "MalformedOperation")
  ∧ (@KafkaClient.hacer_evento constant_hash op2 w0).1 =
      Ok (None, Some "UnknownObjectType")
  ∧ (@KafkaClient.process_ops constant_hash [op1; op2] [] w0).1 = Ok []
  ∧ (@KafkaClient.consume_and_process_message constant_hash
       (Some [op1; op2]) w0).1 = Ok None.
Proof. vm_compute. repeat split. Qed.

(** C6 fails on the code.  An operation that fails in the servant (a key
    that is not there, an index out of range, an element that is not in the
    set) is not turned into an error: the exception of the servant passes
    through [process_rdict], [process_rlist] and [process_common_operation],
    through [hacer_evento] and through the loop, none of which catches it,
    so the batch gets no response at all.  A descriptor for which
    [hacer_evento] does return an error is reported when it is alone, and
    not when a descriptor after it raises. *)
Theorem operation_failures_are_raised_not_reported :
  let w0 := {| KafkaClient.factory := Factory.__init__;
               KafkaClient.fs := no_files |} in
  let op_iter :=
    descriptor (KafkaClient.IdTok "0") "RList" "L1" "iter" KafkaClient.no_args in
  let op_key :=
    descriptor (KafkaClient.IdTok "1") "RDict" "D1" "getItem"
      {| KafkaClient.a_item := None; KafkaClient.a_index := None;
         KafkaClient.a_key := Some "missing" |} in
  let op_index :=
    descriptor (KafkaClient.IdTok "2") "RList" "L1" "getItem"
      {| KafkaClient.a_item := None;
         KafkaClient.a_index := Some (KafkaClient.IntLike 5);
         KafkaClient.a_key := None |} in
  let op_remove :=
    descriptor (KafkaClient.IdTok "3") "RSet" "S1" "remove"
      {| KafkaClient.a_item := Some "x"; KafkaClient.a_index := None;
         KafkaClient.a_key := None |} in
  (@KafkaClient.hacer_evento constant_hash op_key w0).1 =
    Raise (KeyError "missing")
  ∧ (@KafkaClient.consume_and_process_message constant_hash
       (Some [op_key]) w0).1 = Raise (KeyError "missing")
  ∧ (@KafkaClient.consume_and_process_message constant_hash
       (Some [op_index]) w0).1 = Raise (IndexError "Index 5 is out of range")
  ∧ (@KafkaClient.consume_and_process_message constant_hash
       (Some [op_remove]) w0).1 =
    Raise (KeyError "El elemento 'x' no existe en el conjunto.")
  ∧ (@KafkaClient.consume_and_process_message constant_hash
       (Some [op_iter]) w0).1 =
    Ok (Some [ {| KafkaClient.r_id := KafkaClient.IdTok "0";
                  KafkaClient.r_status := "error";
                  KafkaClient.r_result := None;
                  KafkaClient.r_error := Some "OperationNotSupported" |} ])
  ∧ (@KafkaClient.consume_and_process_message constant_hash
       (Some [op_iter; op_key]) w0).1 = Raise (KeyError "missing").
Proof. vm_compute. repeat split. Qed.

(** ** Hashes *)

#[local] Instance item_le_trans : Transitive Py.item_le.
Proof.
  intros [a1 a2] [b1 b2] [c1 c2]. unfold Py.item_le. simpl.
  repeat case_decide; simplify_eq; intros Hab Hbc; try (by etrans).
  by destruct (anti_symm String.le _ _ Hab Hbc).
Qed.

#[local] Instance item_le_anti_symm : AntiSymm (=) Py.item_le.
Proof.
  intros [a1 a2] [b1 b2]. unfold Py.item_le. simpl.
  repeat case_decide; simplify_eq; intros Hab Hba.
  - f_equal. by apply (anti_symm String.le).
  - by destruct (anti_symm String.le _ _ Hab Hba).
Qed.

#[local] Instance item_le_total : Total Py.item_le.
Proof.
  intros [a1 a2] [b1 b2]. unfold Py.item_le. simpl.
  repeat case_decide; simplify_eq; apply (total String.le).
Qed.

Lemma sorted_is_sorted (items : list (string * string)) :
  Sorted Py.item_le (Py.sorted items) ∧ Py.sorted items ≡ₚ items.
Proof.
  split; [apply (Sorted_merge_sort _)|apply merge_sort_Permutation].
Qed.

(** [sorted] makes the insertion order of a dictionary irrelevant. *)
Lemma sorted_canonical (items1 items2 : list (string * string)) :
  items1 ≡ₚ items2 → Py.sorted items1 = Py.sorted items2.
Proof.
  intros Hperm. apply (Sorted_unique Py.item_le).
  - apply sorted_is_sorted.
  - apply sorted_is_sorted.
  - by rewrite !(proj2 (sorted_is_sorted _)).
Qed.

(** No function from the natural numbers into a bounded range of integers
    is injective. *)
Lemma bounded_not_injective (M : Z) (f : nat → Z) :
  (∀ n, (- M ≤ f n < M)%Z) → ¬ (∀ i j, f i = f j → i = j).
Proof.
  intros Hrange Hinj.
  set (n := Z.to_nat (2 * M)).
  assert (Hnodup : NoDup (f <$> seq 0 (S n))).
  { apply NoDup_fmap_2; [exact Hinj|apply NoDup_seq]. }
  assert (Hsub : f <$> seq 0 (S n) ⊆+ seqZ (- M) (2 * M)).
  { apply NoDup_submseteq; [done|]. intros x [i [-> _]]%list_elem_of_fmap.
    apply elem_of_seqZ. specialize (Hrange i). lia. }
  apply submseteq_length in Hsub.
  rewrite length_fmap, length_seq, length_seqZ in Hsub. lia.
Qed.

Lemma dict_set_not_perm (k v : string) (d : list (string * string)) :
  Py.dict_set k v d ≠ d → ¬ (Py.dict_set k v d ≡ₚ d).
Proof.
  induction d as [|[k' v'] d IH]; simpl.
  - intros _ Hperm%Permutation_length. done.
  - case_decide as Hk; intros Hne Hperm.
    + subst k'. assert (Hv : v ≠ v') by (by intros ->).
      pose proof (filter_Permutation (λ p, p = (k, v)) _ _ Hperm) as Hf.
      apply Permutation_length in Hf.
      rewrite filter_cons_True in Hf by done.
      rewrite filter_cons_False in Hf by (by intros [= ?]).
      simpl in Hf. lia.
    + apply IH; [by intros Heq; apply Hne; rewrite Heq|].
      by apply (inj (cons (k', v'))) in Hperm.
Qed.

(** A call that changes a dictionary changes the sorted tuple of its
    entries. *)
Lemma dict_change_changes_sorted (c : dict_call) (d : RemoteDict.t) (fs : disk) :
  changes c d fs = true →
  Py.sorted (RemoteDict._storage_ (after c d fs).1)
  ≠ Py.sorted (RemoteDict._storage_ d).
Proof.
  intros Hch%bool_decide_eq_true Heq. apply Hch. clear Hch.
  assert (Hperm : RemoteDict._storage_ (after c d fs).1 ≡ₚ RemoteDict._storage_ d).
  { rewrite <- (proj2 (sorted_is_sorted (RemoteDict._storage_ (after c d fs).1))).
    rewrite Heq. apply sorted_is_sorted. }
  clear Heq. revert Hperm. unfold after.
  destruct c as [key|key item|key|key]; simpl.
  - unfold RemoteDict.remove.
    destruct (Py.dict_del key _) as [d'|] eqn:Hdel; simpl; [|done].
    intros Hperm%Permutation_length. apply dict_del_length in Hdel. lia.
  - intros Hperm.
    destruct (decide (Py.dict_set key item (RemoteDict._storage_ d)
                      = RemoteDict._storage_ d)) as [|Hne]; [done|].
    by destruct (dict_set_not_perm _ _ _ Hne).
  - by destruct (RemoteDict.getItem key d).
  - unfold RemoteDict.pop.
    destruct (Py.dict_pop key _) as [[v d']|] eqn:Hpop; simpl; [|done].
    intros Hperm%Permutation_length.
    apply dict_pop_del, dict_del_length in Hpop. lia.
Qed.

(** C8 (as the code has it).  Each hash is the builtin hash, a machine
    integer, of a value made from the contents alone: for a dictionary the
    tuple of its entries in sorted order, so that two dictionaries with the
    same entries hash alike whatever their insertion order; for a list the
    tuple of its elements in order; for a set the frozen set of its
    elements.  A call that changes the contents changes the value that is
    hashed: the sorted tuple of entries, the tuple of elements, the frozen
    set. *)
Theorem hash_is_a_function_of_the_contents `{Py.Hash} :
  (∀ d1 d2 : RemoteDict.t,
     RemoteDict._storage_ d1 ≡ₚ RemoteDict._storage_ d2 →
     RemoteDict.hash d1 = RemoteDict.hash d2)
  ∧ (∀ d : RemoteDict.t,
       ∃ items : list (string * string),
         RemoteDict.hash d = Py.hash_tuple_items items
         ∧ Sorted Py.item_le items
         ∧ items ≡ₚ RemoteDict._storage_ d)
  ∧ (∀ l1 l2 : RemoteList.t,
       RemoteList._storage_ l1 = RemoteList._storage_ l2 →
       RemoteList.hash l1 = RemoteList.hash l2)
  ∧ (∀ l : RemoteList.t, RemoteList.hash l = Py.hash_tuple (RemoteList._storage_ l))
  ∧ (∀ s1 s2 : RemoteSet.t,
       RemoteSet.data s1 = RemoteSet.data s2 →
       RemoteSet.hash s1 = RemoteSet.hash s2)
  ∧ (∀ (d : RemoteDict.t) (l : RemoteList.t) (s : RemoteSet.t),
       (- Py.hash_modulus ≤ RemoteDict.hash d < Py.hash_modulus)%Z
       ∧ (- Py.hash_modulus ≤ RemoteList.hash l < Py.hash_modulus)%Z
       ∧ (- Py.hash_modulus ≤ RemoteSet.hash s < Py.hash_modulus)%Z)
  ∧ (∀ s : RemoteSet.t, RemoteSet.hash s = Py.hash_frozenset (RemoteSet.data s))
  ∧ (∀ d : RemoteDict.t,
       RemoteDict.hash d =
       Py.hash_tuple_items (Py.sorted (RemoteDict._storage_ d)))
  ∧ (∀ (c : dict_call) (d : RemoteDict.t) (fs : disk),
       changes c d fs = true →
       Py.sorted (RemoteDict._storage_ (after c d fs).1)
       ≠ Py.sorted (RemoteDict._storage_ d))
  ∧ (∀ (c : list_call) (l : RemoteList.t) (fs : disk),
       changes c l fs = true →
       RemoteList._storage_ (after c l fs).1 ≠ RemoteList._storage_ l)
  ∧ (∀ (c : set_call) (s : RemoteSet.t) (fs : disk),
       changes c s fs = true →
       RemoteSet.data (after c s fs).1 ≠ RemoteSet.data s).
Proof.
  unfold RemoteDict.hash, RemoteList.hash, RemoteSet.hash.
  split; [|split; [|split; [|split; [|split; [|split; [|split; [|split;
    [|split; [|split]]]]]]]]].
  - intros d1 d2 Hperm. by rewrite (sorted_canonical _ _ Hperm).
  - intros d. eexists. split; [done|]. apply sorted_is_sorted.
  - by intros l1 l2 ->.
  - done.
  - by intros s1 s2 ->.
  - intros d l s. split; [|split].
    + apply Py.hash_tuple_items_range.
    + apply Py.hash_tuple_range.
    + apply Py.hash_frozenset_range.
  - done.
  - done.
  - apply dict_change_changes_sorted.
  - intros c l fs Hch%bool_decide_eq_true. exact Hch.
  - intros c s fs Hch%bool_decide_eq_true. exact Hch.
Qed.

Lemma hash_is_a_function_of_the_contents_witness :
  let d1 := RemoteDict.Build "d" "storage/rdict_d.json" [("a", "1"); ("b", "2")] 2 in
  let d2 := RemoteDict.Build "e" "storage/rdict_e.json" [("b", "2"); ("a", "1")] 5 in
  (RemoteDict._storage_ d1 ≡ₚ RemoteDict._storage_ d2
   ∧ @RemoteDict.hash constant_hash d1 = @RemoteDict.hash constant_hash d2)
  ∧ (changes (DictSetItem "a" "3") d2 no_files = true
     ∧ Py.sorted (RemoteDict._storage_ (after (DictSetItem "a" "3") d2 no_files).1)
       ≠ Py.sorted (RemoteDict._storage_ d2)).
Proof.
  intros d1 d2.
  assert (Hperm : RemoteDict._storage_ d1 ≡ₚ RemoteDict._storage_ d2)
    by apply perm_swap.
  assert (Hch : changes (DictSetItem "a" "3") d2 no_files = true)
    by (vm_compute; reflexivity).
  destruct (@hash_is_a_function_of_the_contents constant_hash)
    as (Hequal & _ & _ & _ & _ & _ & _ & _ & Hdict & _ & _).
  split; [split; [exact Hperm|exact (Hequal d1 d2 Hperm)]|].
  split; [exact Hch|exact (Hdict (DictSetItem "a" "3") d2 no_files Hch)].
Defined.

(** C8 as stated fails in its last part, whatever the builtin hash is: its
    values lie in a bounded range, so some [setItem] that changes the value
    under a key leaves the hash of the dictionary as it was. *)
Lemma no_hash_changes_with_every_mutation :
  ¬ ∃ H : Py.Hash,
      ∀ (d : RemoteDict.t) (fs : disk) (key item : string),
        RemoteDict._storage_ (RemoteDict.setItem key item d fs).1.2
          ≠ RemoteDict._storage_ d →
        RemoteDict.hash (RemoteDict.setItem key item d fs).1.2
          ≠ RemoteDict.hash d.
Proof.
  intros [H Hclaim].
  pose (dict_of (n : nat) :=
          RemoteDict.Build "d" "storage/rdict_d.json" [("k", pretty n)] 0).
  apply (bounded_not_injective Py.hash_modulus
           (λ n, RemoteDict.hash (dict_of n))).
  - intros n. apply Py.hash_tuple_items_range.
  - intros i j Heq. destruct (decide (i = j)) as [|Hne]; [done|].
    destruct (Hclaim (dict_of i) no_files "k" (pretty j)); simpl.
    + intros [= Hij]. by apply (inj pretty) in Hij.
    + by symmetry.
Qed.

(** ** The files of the three types are apart *)

(** The names the factory gives to dictionary files, to list files and to
    the file of the sets never coincide, which is why the disk keeps
    dictionary files and the other files in two maps. *)
Lemma storage_files_apart (i j : string) :
  "storage/rdict_" +:+ i +:+ ".json" ≠ "storage/rlist_" +:+ j +:+ ".json"
  ∧ "storage/rdict_" +:+ i +:+ ".json" ≠ RemoteSet.GLOBAL_STORAGE_FILE
  ∧ "storage/rlist_" +:+ j +:+ ".json" ≠ RemoteSet.GLOBAL_STORAGE_FILE.
Proof. repeat split; intros Heq; simpl in Heq; discriminate. Qed.

(** The base class of persistentObject.py, from which none of the three
    types derives, is the one place where construction writes: an
    identifier the file does not know gets its initial record saved. *)
Lemma persistent_object_saves_initial_record
    (initial : list string) (identifier storage_file : string) (fs : disk)
    (data : list (string * list string)) :
  PersistentObject._load_from_file storage_file fs = Some data →
  Py.dict_get identifier data = None →
  ∃ self : PersistentObject.t,
    PersistentObject.__init__ initial identifier storage_file fs =
      (Ok self, PersistentObject._save_to_file self fs)
    ∧ seq_files (PersistentObject._save_to_file self fs) !! storage_file =
      Some (Doc (Py.dict_set identifier initial data)).
Proof.
  intros Hload Hnew. unfold PersistentObject.__init__. rewrite Hload, Hnew.
  rewrite decide_False by (by intros [??]).
  eexists. split; [done|]. unfold PersistentObject._save_to_file. simpl.
  by rewrite lookup_insert_eq.
Qed.

(** * Further properties *)

(** ** RemoteDict *)

Section dict_more_facts.
Context {V : Type}.
Implicit Types (k : string) (v : V) (d : list (string * V)).

Lemma dict_get_None k d : Py.dict_get k d = None ↔ k ∉ d.*1.
Proof.
  induction d as [|[k' v'] d IH]; simpl.
  - split; [intros _; apply not_elem_of_nil|done].
  - rewrite not_elem_of_cons. destruct (decide (k = k')) as [->|Hne].
    + split; [done|]. by intros [? _].
    + rewrite IH. split; [done|]. by intros [_ ?].
Qed.

Lemma dict_set_keys_old k v d :
  k ∈ d.*1 → (Py.dict_set k v d).*1 = d.*1.
Proof.
  induction d as [|[k' v'] d IH]; simpl; intros Hin.
  - by apply not_elem_of_nil in Hin.
  - destruct (decide (k = k')) as [->|Hne]; simpl; [done|].
    apply elem_of_cons in Hin as [?|Hin]; [done|]. f_equal. by apply IH.
Qed.

Lemma dict_set_keys_new k v d :
  k ∉ d.*1 → (Py.dict_set k v d).*1 = d.*1 ++ [k].
Proof.
  induction d as [|[k' v'] d IH]; simpl; intros Hout; [done|].
  apply not_elem_of_cons in Hout as [Hne Hout].
  rewrite decide_False by done. simpl. f_equal. by apply IH.
Qed.

Lemma dict_set_keys_unique k v d : NoDup d.*1 → NoDup (Py.dict_set k v d).*1.
Proof.
  intros Hd. destruct (decide (k ∈ d.*1)) as [Hin|Hout].
  - by rewrite dict_set_keys_old.
  - rewrite dict_set_keys_new by done.
    apply NoDup_app. split; [done|]. split; [|apply NoDup_singleton].
    by intros x Hx ->%list_elem_of_singleton.
Qed.

Lemma dict_del_keys k d d' :
  Py.dict_del k d = Some d' → d'.*1 `sublist_of` d.*1.
Proof.
  revert d'. induction d as [|[k' v'] d IH]; simpl; intros d' Hdel; [done|].
  destruct (decide (k = k')); simplify_eq.
  - by apply sublist_cons.
  - destruct (Py.dict_del k d) as [d0|]; simplify_eq/=.
    apply sublist_skip. by apply IH.
Qed.

Lemma dict_del_get_ne k k' d d' :
  Py.dict_del k d = Some d' → k' ≠ k → Py.dict_get k' d' = Py.dict_get k' d.
Proof.
  revert d'. induction d as [|[k0 v0] d IH]; simpl; intros d' Hdel Hne; [done|].
  destruct (decide (k = k0)) as [->|Hk]; simplify_eq.
  - by rewrite decide_False.
  - destruct (Py.dict_del k d) as [d0|]; simplify_eq/=.
    destruct (decide (k' = k0)); [done|]. by apply IH.
Qed.

Lemma dict_del_get k d d' :
  NoDup d.*1 → Py.dict_del k d = Some d' → Py.dict_get k d' = None.
Proof.
  revert d'. induction d as [|[k0 v0] d IH]; simpl; intros d' Hd Hdel; [done|].
  apply NoDup_cons in Hd as [Hk0 Hd].
  destruct (decide (k = k0)) as [->|Hk]; simplify_eq.
  - by apply dict_get_None.
  - destruct (Py.dict_del k d) as [d0|]; simplify_eq/=.
    rewrite decide_False by done. by apply IH.
Qed.

Lemma dict_del_Some k d : is_Some (Py.dict_del k d) ↔ is_Some (Py.dict_get k d).
Proof.
  induction d as [|[k0 v0] d IH]; simpl.
  - split; intros [? ?]; done.
  - destruct (decide (k = k0)); [split; eauto|].
    rewrite <- IH. destruct (Py.dict_del k d); simpl; split; intros [? ?]; eauto; done.
Qed.

End dict_more_facts.

(** Reading back what [setItem] stored gives the item, whatever was under
    the key before; the key is then contained, and no other key is
    affected. *)
Theorem dict_setItem_then_getItem
    (key item other : string) (d : RemoteDict.t) (fs : disk) :
  let d' := (RemoteDict.setItem key item d fs).1.2 in
  RemoteDict.getItem key d' = Ok item
  ∧ RemoteDict.contains key d' = true
  ∧ (other ≠ key →
     RemoteDict.getItem other d' = RemoteDict.getItem other d
     ∧ RemoteDict.contains other d' = RemoteDict.contains other d).
Proof.
  simpl. unfold RemoteDict.getItem, RemoteDict.contains. simpl.
  rewrite dict_get_set. split; [done|].
  split; [by apply bool_decide_eq_true_2|].
  intros Hne. by rewrite dict_get_set_ne.
Qed.

Lemma dict_setItem_then_getItem_witness :
  let d := (RemoteDict.setItem "a" "1"
              (RemoteDict.__init__ "d" "storage/rdict_d.json" no_files)
              no_files).1.2 in
  let d' := (RemoteDict.setItem "b" "2" d no_files).1.2 in
  RemoteDict.getItem "a" d' = RemoteDict.getItem "a" d
  ∧ RemoteDict.contains "a" d' = RemoteDict.contains "a" d.
Proof.
  intros d d'.
  apply (dict_setItem_then_getItem "b" "2" "a" d no_files). discriminate.
Defined.

(** [setItem] adds one to the length for a new key and keeps the length for
    a key the dictionary has: storing the same pair twice makes a
    dictionary no longer than storing it once. *)
Theorem dict_setItem_length (key item : string) (d : RemoteDict.t) (fs : disk) :
  RemoteDict.length (RemoteDict.setItem key item d fs).1.2 =
  if RemoteDict.contains key d then RemoteDict.length d
  else S (RemoteDict.length d).
Proof.
  unfold RemoteDict.length, RemoteDict.contains. simpl.
  rewrite <- !(length_fmap fst).
  destruct (decide (key ∈ (RemoteDict._storage_ d).*1)) as [Hin|Hout].
  - rewrite dict_set_keys_old by done.
    rewrite bool_decide_eq_true_2; [done|].
    apply not_eq_None_Some. rewrite dict_get_None. intros Hn. by apply Hn.
  - rewrite dict_set_keys_new by done.
    rewrite bool_decide_eq_false_2.
    + rewrite length_app. simpl. lia.
    + rewrite <- not_eq_None_Some. intros Hn. apply Hn. by apply dict_get_None.
Qed.

(** The keys of a dictionary stay unique under every call. *)
Theorem dict_keys_stay_unique (c : dict_call) (d : RemoteDict.t) (fs : disk) :
  NoDup (RemoteDict._storage_ d).*1 →
  NoDup (RemoteDict._storage_ (after c d fs).1).*1.
Proof.
  intros Hd. unfold after. destruct c as [key|key item|key|key]; simpl.
  - unfold RemoteDict.remove.
    destruct (Py.dict_del key _) as [d'|] eqn:Hdel; simpl; [|done].
    eapply sublist_NoDup; [done|by eapply dict_del_keys].
  - by apply dict_set_keys_unique.
  - by destruct (RemoteDict.getItem key d).
  - unfold RemoteDict.pop.
    destruct (Py.dict_pop key _) as [[v d']|] eqn:Hpop; simpl; [|done].
    apply dict_pop_del in Hpop.
    eapply sublist_NoDup; [done|by eapply dict_del_keys].
Qed.

Lemma dict_keys_stay_unique_witness :
  let d := RemoteDict.Build "d" "storage/rdict_d.json" [("a", "1"); ("b", "2")] 2 in
  NoDup (RemoteDict._storage_ d).*1
  ∧ NoDup (RemoteDict._storage_ (after (DictSetItem "a" "3") d no_files).1).*1.
Proof.
  intros d.
  assert (Hd : NoDup (RemoteDict._storage_ d).*1).
  { simpl. apply NoDup_cons. split; [|apply NoDup_singleton].
    intros Hin%list_elem_of_singleton. discriminate. }
  split; [exact Hd|].
  exact (dict_keys_stay_unique (DictSetItem "a" "3") d no_files Hd).
Defined.

(** A [remove] that succeeds takes the key out: the key is no longer
    contained, the length goes down by one and the other keys keep their
    values. *)
Theorem dict_remove_removes_the_key
    (key other : string) (d d' : RemoteDict.t) (fs fs' : disk) :
  NoDup (RemoteDict._storage_ d).*1 →
  RemoteDict.remove key d fs = (Ok tt, d', fs') →
  RemoteDict.contains key d' = false
  ∧ RemoteDict.getItem key d' = Raise (KeyError key)
  ∧ S (RemoteDict.length d') = RemoteDict.length d
  ∧ (other ≠ key → RemoteDict.getItem other d' = RemoteDict.getItem other d).
Proof.
  intros Hd. unfold RemoteDict.remove.
  destruct (Py.dict_del key _) as [s|] eqn:Hdel; [|done].
  intros [= <- <-]. unfold RemoteDict.contains, RemoteDict.getItem,
    RemoteDict.length. simpl.
  rewrite (dict_del_get _ _ _ Hd Hdel). split; [|split; [done|split]].
  - apply bool_decide_eq_false_2. by intros [? ?].
  - symmetry. by eapply dict_del_length.
  - intros Hne. by rewrite (dict_del_get_ne _ _ _ _ Hdel Hne).
Qed.

Lemma dict_remove_removes_the_key_witness :
  let d := RemoteDict.Build "d" "storage/rdict_d.json" [("a", "1"); ("b", "2")] 2 in
  let d' := (RemoteDict.remove "a" d no_files).1.2 in
  RemoteDict.contains "a" d' = false
  ∧ RemoteDict.getItem "a" d' = Raise (KeyError "a")
  ∧ S (RemoteDict.length d') = RemoteDict.length d
  ∧ ("b" ≠ "a" → RemoteDict.getItem "b" d' = RemoteDict.getItem "b" d).
Proof.
  intros d d'.
  apply (dict_remove_removes_the_key "a" "b" d d' no_files
           (RemoteDict.remove "a" d no_files).2).
  - simpl. apply NoDup_cons. split; [|apply NoDup_singleton].
    intros Hin%list_elem_of_singleton. discriminate.
  - reflexivity.
Defined.

(** [pop] is [getItem] followed by [remove]: it returns or raises what
    [getItem] does and leaves the dictionary and the disk as [remove]
    does. *)
Theorem dict_pop_is_getItem_then_remove
    (key : string) (d : RemoteDict.t) (fs : disk) :
  (RemoteDict.pop key d fs).1.1 = RemoteDict.getItem key d
  ∧ (RemoteDict.pop key d fs).1.2 = (RemoteDict.remove key d fs).1.2
  ∧ (RemoteDict.pop key d fs).2 = (RemoteDict.remove key d fs).2.
Proof.
  unfold RemoteDict.pop, RemoteDict.remove, RemoteDict.getItem, Py.dict_pop.
  pose proof (dict_del_Some key (RemoteDict._storage_ d)) as Hiff.
  destruct (Py.dict_get key _) as [v|], (Py.dict_del key _) as [s|]; simpl;
    try done.
  - destruct (proj2 Hiff) as [? ?]; [eauto|done].
  - destruct (proj1 Hiff) as [? ?]; [eauto|done].
Qed.

(** ** RemoteList *)

Lemma index_Some (i : Z) (n j : nat) :
  Py.index i n = Some j ↔
  (- Z.of_nat n ≤ i < Z.of_nat n)%Z
  ∧ j = Z.to_nat (if (i <? 0)%Z then i + Z.of_nat n else i)%Z.
Proof.
  unfold Py.index. destruct (Z.ltb_spec i 0);
    (destruct (_ && _)%bool eqn:Hin;
     [apply andb_prop in Hin as [?%Z.leb_le ?%Z.ltb_lt]
     |apply andb_false_iff in Hin as [?%Z.leb_gt|?%Z.ltb_ge]]);
    split; try (intros [= <-]); try (intros [? ->]); try done;
    try (split; [lia|done]); lia.
Qed.

Lemma index_None (i : Z) (n : nat) :
  Py.index i n = None ↔ ¬ (- Z.of_nat n ≤ i < Z.of_nat n)%Z.
Proof.
  destruct (Py.index i n) as [j|] eqn:Hi.
  - apply index_Some in Hi as [? _]. split; [done|]. intros Hn. by destruct Hn.
  - split; [|done]. intros _ Hin.
    assert (is_Some (Py.index i n)) as [j Hj]; [|congruence].
    eexists. apply index_Some. split; [done|reflexivity].
Qed.

Lemma list_getitem_nonneg (l : list string) (i : Z) :
  (0 ≤ i < Z.of_nat (length l))%Z → Py.list_getitem l i = l !! Z.to_nat i.
Proof.
  intros Hi. unfold Py.list_getitem.
  assert (Hidx : Py.index i (length l) = Some (Z.to_nat i)).
  { apply index_Some. split; [lia|]. destruct (Z.ltb_spec i 0); [lia|done]. }
  by rewrite Hidx.
Qed.

Lemma list_getitem_last (l : list string) (item : string) :
  Py.list_getitem (l ++ [item]) (-1) = Some item.
Proof.
  unfold Py.list_getitem.
  assert (Hi : Py.index (-1) (length (l ++ [item])) = Some (length l)).
  { apply index_Some. rewrite length_app. simpl. split; [lia|].
    destruct (Z.ltb_spec (-1) 0); lia. }
  rewrite Hi. rewrite lookup_app_r by done. by rewrite Nat.sub_diag.
Qed.

(** [getItem] accepts the indices from [-length] to [length - 1]: a
    negative index counts from the end, and any other index raises
    [IndexError] naming the index. *)
Theorem list_getItem_bounds (index : Z) (l : RemoteList.t) :
  let n := Z.of_nat (RemoteList.length l) in
  ((0 ≤ index < n)%Z →
   ∃ item : string,
     RemoteList.getItem index l = Ok item
     ∧ RemoteList._storage_ l !! Z.to_nat index = Some item)
  ∧ ((- n ≤ index < 0)%Z →
     RemoteList.getItem index l = RemoteList.getItem (index + n) l
     ∧ ∃ item : string, RemoteList.getItem index l = Ok item)
  ∧ (¬ (- n ≤ index < n)%Z →
     RemoteList.getItem index l =
     Raise (IndexError ("Index " +:+ pretty index +:+ " is out of range"))).
Proof.
  intros n. unfold RemoteList.getItem, Py.list_getitem.
  assert (Hget : ∀ i, (0 ≤ i < n)%Z →
            Py.index i (length (RemoteList._storage_ l)) = Some (Z.to_nat i)
            ∧ is_Some (RemoteList._storage_ l !! Z.to_nat i)).
  { intros i Hi. split.
    - apply index_Some. unfold n, RemoteList.length in Hi.
      split; [lia|]. destruct (Z.ltb_spec i 0); [lia|done].
    - apply lookup_lt_is_Some. unfold n, RemoteList.length in Hi. lia. }
  split; [|split].
  - intros Hi. destruct (Hget index Hi) as [-> [item Hitem]].
    exists item. by rewrite Hitem.
  - intros Hi. destruct (Hget (index + n)%Z) as [Hpos [item Hitem]]; [lia|].
    assert (Hneg : Py.index index (length (RemoteList._storage_ l))
                   = Some (Z.to_nat (index + n))).
    { apply index_Some. unfold n, RemoteList.length in *.
      split; [lia|]. destruct (Z.ltb_spec index 0); [done|lia]. }
    rewrite Hneg, Hpos, Hitem. eauto.
  - intros Hout. unfold n, RemoteList.length in Hout.
    by rewrite (proj2 (index_None _ _) Hout).
Qed.

Lemma list_getItem_bounds_witness :
  let l := RemoteList.Build "l" "storage/rlist_l.json" 3 ["a"; "b"; "c"] in
  (∃ item : string,
     RemoteList.getItem 1 l = Ok item
     ∧ RemoteList._storage_ l !! Z.to_nat 1 = Some item)
  ∧ (RemoteList.getItem (-1) l = RemoteList.getItem (-1 + 3) l
     ∧ ∃ item : string, RemoteList.getItem (-1) l = Ok item)
  ∧ RemoteList.getItem 3 l =
    Raise (IndexError ("Index " +:+ pretty 3%Z +:+ " is out of range")).
Proof.
  intros l. split; [|split].
  - apply (list_getItem_bounds 1 l). subst l. cbn. lia.
  - apply (list_getItem_bounds (-1) l). subst l. cbn. lia.
  - apply (list_getItem_bounds 3 l). subst l. cbn. lia.
Defined.

(** [append] puts the item last: it is what index [-1] and index
    [length] of the old list now give, the length grows by one, the item is
    contained and the earlier positions are as they were. *)
Theorem list_append_adds_last
    (item : string) (index : Z) (l : RemoteList.t) (fs : disk) :
  let l' := (RemoteList.append item l fs).1.2 in
  RemoteList._storage_ l' = RemoteList._storage_ l ++ [item]
  ∧ RemoteList.length l' = S (RemoteList.length l)
  ∧ RemoteList.getItem (-1) l' = Ok item
  ∧ RemoteList.getItem (Z.of_nat (RemoteList.length l)) l' = Ok item
  ∧ RemoteList.contains item l' = true
  ∧ ((0 ≤ index < Z.of_nat (RemoteList.length l))%Z →
     RemoteList.getItem index l' = RemoteList.getItem index l).
Proof.
  intros l'. subst l'. simpl.
  set (s := RemoteList._storage_ l).
  unfold RemoteList.getItem, RemoteList.length, RemoteList.contains.
  cbn [RemoteList.mutated RemoteList._storage_]. fold s.
  split; [done|]. split; [rewrite length_app; simpl; lia|].
  split; [by rewrite list_getitem_last|]. split; [|split].
  - rewrite list_getitem_nonneg by (rewrite length_app; simpl; lia).
    by rewrite Nat2Z.id, lookup_app_r, Nat.sub_diag.
  - apply bool_decide_eq_true_2. apply elem_of_app. right. left.
  - intros Hin.
    rewrite !list_getitem_nonneg by (rewrite ?length_app; simpl; lia).
    by rewrite lookup_app_l by lia.
Qed.

Lemma list_append_adds_last_witness :
  let l := RemoteList.Build "l" "storage/rlist_l.json" 2 ["a"; "b"] in
  let l' := (RemoteList.append "c" l no_files).1.2 in
  RemoteList.getItem 1 l' = RemoteList.getItem 1 l.
Proof.
  intros l l'.
  apply (list_append_adds_last "c" 1 l no_files). subst l. cbn. lia.
Defined.


(** [pop] without an index takes the last element; on an empty list it
    raises [IndexError] and changes nothing. *)
Theorem list_pop_takes_the_last (l : RemoteList.t) (fs : disk) :
  (RemoteList._storage_ l = [] →
   RemoteList.pop None l fs =
   (Raise (IndexError "Index None is out of range"), l, fs))
  ∧ (∀ (rest : list string) (item : string),
       RemoteList._storage_ l = rest ++ [item] →
       let l' := RemoteList.mutated l rest in
       RemoteList.pop None l fs = (Ok item, l', RemoteList._save_data l' fs)).
Proof.
  unfold RemoteList.pop, Py.list_pop. split.
  - by intros ->.
  - intros rest item ->.
    assert (Hi : Py.index (-1) (length (rest ++ [item])) = Some (length rest)).
    { apply index_Some. rewrite length_app. simpl. split; [lia|].
      destruct (Z.ltb_spec (-1) 0); lia. }
    rewrite Hi, lookup_app_r, Nat.sub_diag by done. simpl.
    by rewrite delete_middle, app_nil_r.
Qed.

Lemma list_pop_takes_the_last_witness :
  let l0 := RemoteList.__init__ "l" "storage/rlist_l.json" no_files in
  let l := RemoteList.Build "l" "storage/rlist_l.json" 2 ["a"; "b"] in
  let l' := RemoteList.mutated l ["a"] in
  RemoteList.pop None l0 no_files =
    (Raise (IndexError "Index None is out of range"), l0, no_files)
  ∧ RemoteList.pop None l no_files =
    (Ok "b", l', RemoteList._save_data l' no_files).
Proof.
  intros l0 l l'. split.
  - apply (list_pop_takes_the_last l0 no_files). reflexivity.
  - apply (list_pop_takes_the_last l no_files). reflexivity.
Defined.

Lemma list_remove_Some (x : string) (l l' : list string) :
  Py.list_remove x l = Some l' →
  ∃ before after : list string,
    l = before ++ x :: after ∧ (x ∉ before) ∧ l' = before ++ after.
Proof.
  revert l'. induction l as [|y l IH]; simpl; intros l' Hrm; [done|].
  destruct (decide (x = y)) as [->|Hne].
  - injection Hrm as <-. exists [], l. split; [done|].
    split; [apply not_elem_of_nil|done].
  - destruct (Py.list_remove x l) as [l0|]; simplify_eq/=.
    destruct (IH l0 eq_refl) as (before & after & -> & Hout & ->).
    exists (y :: before), after. split; [done|]. split; [|done].
    by apply not_elem_of_cons.
Qed.

Lemma list_remove_None (x : string) (l : list string) :
  Py.list_remove x l = None ↔ x ∉ l.
Proof.
  induction l as [|y l IH]; simpl.
  - split; [intros _; apply not_elem_of_nil|done].
  - rewrite not_elem_of_cons. destruct (decide (x = y)) as [->|Hne].
    + split; [done|]. by intros [? _].
    + rewrite <- IH. destruct (Py.list_remove x l); simpl.
      * split; [done|]. by intros [_ ?].
      * done.
Qed.

(** [remove] takes out the first occurrence of the item and nothing else;
    when the list does not contain the item it raises [KeyError] and changes
    nothing. *)
Theorem list_remove_takes_the_first_occurrence
    (item : string) (l : RemoteList.t) (fs : disk) :
  (RemoteList.contains item l = false →
   RemoteList.remove item l fs =
   (Raise (KeyError ("Item " +:+ item +:+ " not found in list")), l, fs))
  ∧ (RemoteList.contains item l = true →
     ∃ before after : list string,
       RemoteList._storage_ l = before ++ item :: after
       ∧ (item ∉ before)
       ∧ let l' := RemoteList.mutated l (before ++ after) in
         RemoteList.remove item l fs =
         (Ok tt, l', RemoteList._save_data l' fs)).
Proof.
  unfold RemoteList.contains, RemoteList.remove. split.
  - intros Hout%bool_decide_eq_false. apply list_remove_None in Hout.
    by rewrite Hout.
  - intros Hin%bool_decide_eq_true.
    destruct (Py.list_remove item _) as [s|] eqn:Hrm.
    + apply list_remove_Some in Hrm as (before & after & Hl & Hout & ->).
      by exists before, after.
    + by apply list_remove_None in Hrm.
Qed.

Lemma list_remove_takes_the_first_occurrence_witness :
  let l0 := RemoteList.__init__ "l" "storage/rlist_l.json" no_files in
  let l := RemoteList.Build "l" "storage/rlist_l.json" 3 ["a"; "b"; "a"] in
  RemoteList.remove "a" l0 no_files =
    (Raise (KeyError ("Item " +:+ "a" +:+ " not found in list")), l0, no_files)
  ∧ ∃ before after : list string,
      RemoteList._storage_ l = before ++ "a" :: after
      ∧ ("a" ∉ before)
      ∧ let l' := RemoteList.mutated l (before ++ after) in
        RemoteList.remove "a" l no_files =
        (Ok tt, l', RemoteList._save_data l' no_files).
Proof.
  intros l0 l. split.
  - apply (list_remove_takes_the_first_occurrence "a" l0 no_files). reflexivity.
  - apply (list_remove_takes_the_first_occurrence "a" l no_files). reflexivity.
Defined.

(** ** RemoteSet *)

(** [add] is idempotent: after one [add] of an item the item is contained,
    and a second [add] of it changes neither the set nor its counter nor the
    disk.  The length grows by one exactly when the item was not there. *)
Theorem set_add_is_idempotent (item : string) (s : RemoteSet.t) (fs : disk) :
  let s1 := (RemoteSet.add item s fs).1.2 in
  let fs1 := (RemoteSet.add item s fs).2 in
  RemoteSet.contains item s1 = true
  ∧ RemoteSet.add item s1 fs1 = (Ok tt, s1, fs1)
  ∧ RemoteSet.length s1 =
    (if RemoteSet.contains item s then RemoteSet.length s
     else S (RemoteSet.length s)).
Proof.
  unfold RemoteSet.add, RemoteSet.contains, RemoteSet.length.
  destruct (decide (item ∉ RemoteSet.data s)) as [Hnew|Hold]; simpl.
  - assert (Hin : item ∈ RemoteSet.data s ∪ {[item]}).
    { apply elem_of_union. right. by apply elem_of_singleton. }
    split; [by apply bool_decide_eq_true_2|]. split.
    + by rewrite decide_False by (by intros Hn).
    + rewrite bool_decide_eq_false_2 by done.
      rewrite size_union, size_singleton; [lia|].
      intros x Hx ->%elem_of_singleton. done.
  - apply dec_stable in Hold.
    split; [by apply bool_decide_eq_true_2|]. split.
    + by rewrite decide_False by (by intros Hn).
    + by rewrite bool_decide_eq_true_2.
Qed.

(** A [remove] of a contained item takes it out and nothing else: the item
    is no longer contained, the other elements stay, and the length goes down
    by one. *)
Theorem set_remove_removes_the_item
    (item other : string) (s : RemoteSet.t) (fs : disk) :
  RemoteSet.contains item s = true →
  let s' := (RemoteSet.remove item s fs).1.2 in
  (RemoteSet.remove item s fs).1.1 = Ok tt
  ∧ RemoteSet.contains item s' = false
  ∧ S (RemoteSet.length s') = RemoteSet.length s
  ∧ (other ≠ item →
     RemoteSet.contains other s' = RemoteSet.contains other s).
Proof.
  intros Hin%bool_decide_eq_true.
  unfold RemoteSet.remove, RemoteSet.contains, RemoteSet.length.
  rewrite decide_False by (by intros Hn). simpl.
  split; [done|]. split; [|split].
  - apply bool_decide_eq_false_2.
    rewrite elem_of_difference, elem_of_singleton. by intros [_ ?].
  - rewrite size_difference by (by apply singleton_subseteq_l).
    rewrite size_singleton.
    assert (size (RemoteSet.data s) ≠ 0%nat); [|lia].
    intros Hz%size_empty_iff. rewrite Hz in Hin.
    by apply not_elem_of_empty in Hin.
  - intros Hne. apply bool_decide_ext.
    rewrite elem_of_difference, elem_of_singleton.
    split; [by intros [? _]|]. intros Hother. by split.
Qed.

Lemma set_remove_removes_the_item_witness :
  let s := (RemoteSet.add "a" (RemoteSet.__init__ "s" no_files) no_files).1.2 in
  let s' := (RemoteSet.remove "a" s no_files).1.2 in
  RemoteSet.contains "a" s = true
  ∧ (RemoteSet.remove "a" s no_files).1.1 = Ok tt
  ∧ RemoteSet.contains "a" s' = false
  ∧ S (RemoteSet.length s') = RemoteSet.length s
  ∧ ("b" ≠ "a" → RemoteSet.contains "b" s' = RemoteSet.contains "b" s).
Proof.
  intros s s'.
  assert (Hin : RemoteSet.contains "a" s = true) by (vm_compute; reflexivity).
  split; [exact Hin|].
  exact (set_remove_removes_the_item "a" "b" s no_files Hin).
Defined.

(** ** Saving *)

Lemma dict_call_saves (c : dict_call) (x : RemoteDict.t) (fs : disk) :
  (mod_count (after c x fs).1 = mod_count x → after c x fs = (x, fs))
  ∧ (mod_count (after c x fs).1 ≠ mod_count x →
     (after c x fs).2 = save (after c x fs).1 fs).
Proof.
  unfold after. destruct c as [key|key item|key|key]; simpl.
  - unfold RemoteDict.remove. destruct (Py.dict_del key _); simpl;
      (split; [try done; lia|done]).
  - split; [lia|done].
  - destruct (RemoteDict.getItem key x); simpl; (split; [done|done]).
  - unfold RemoteDict.pop. destruct (Py.dict_pop key _) as [[??]|]; simpl;
      (split; [try done; lia|done]).
Qed.

Lemma list_call_saves (c : list_call) (x : RemoteList.t) (fs : disk) :
  (mod_count (after c x fs).1 = mod_count x → after c x fs = (x, fs))
  ∧ (mod_count (after c x fs).1 ≠ mod_count x →
     (after c x fs).2 = save (after c x fs).1 fs).
Proof.
  unfold after. destruct c as [item|item|index|index]; simpl.
  - split; [lia|done].
  - unfold RemoteList.remove. destruct (Py.list_remove item _); simpl;
      (split; [try done; lia|done]).
  - destruct (RemoteList.getItem index x); simpl; (split; [done|done]).
  - unfold RemoteList.pop.
    destruct index; (destruct (Py.list_pop _ _) as [[??]|]; simpl;
      (split; [try done; lia|done])).
Qed.

Lemma set_call_saves (c : set_call) (x : RemoteSet.t) (fs : disk) :
  (mod_count (after c x fs).1 = mod_count x → after c x fs = (x, fs))
  ∧ (mod_count (after c x fs).1 ≠ mod_count x →
     (after c x fs).2 = save (after c x fs).1 fs).
Proof.
  unfold after. destruct c as [item|item|]; simpl.
  - unfold RemoteSet.add. destruct (decide _); simpl;
      (split; [try done; lia|done]).
  - unfold RemoteSet.remove. destruct (decide _); simpl;
      (split; [try done; lia|done]).
  - unfold RemoteSet.pop. destruct (Py.set_pop _) as [[??]|]; simpl;
      (split; [try done; lia|done]).
Qed.

(** A call that returns has saved what it counted.  A call that returns
    normally either leaves the collection, its counter and the disk as they
    were, or has counted one modification and saved: a new instance
    constructed from the disk the call leaves has the contents the
    collection has in memory.  (A call whose write fails does not return
    normally.) *)
Theorem counted_modifications_are_on_disk (T call : Type) `{RType T call} :
  remote_type T call _ →
  ∀ (x0 : T) (fs0 : disk) (calls : list call) (c : call) (fs : disk)
    (returned : option string),
    let x := (run calls (reopen x0 fs0) fs0).1 in
    let x' := (after c x fs).1 in
    let fs' := (after c x fs).2 in
    (invoke c x fs).1.1 = Ok returned →
    (mod_count x' = mod_count x ∧ x' = x ∧ fs' = fs)
    ∨ (mod_count x' = (mod_count x + 1)%Z
       ∧ contents_of (reopen x' fs') = contents_of x').
Proof.
  intros HT x0 fs0 calls c fs returned x x' fs' _.
  pose proof (counter_step T call HT c x fs) as Hstep. fold x' in Hstep.
  assert (Hsaves :
    (mod_count x' = mod_count x → after c x fs = (x, fs))
    ∧ (mod_count x' ≠ mod_count x → fs' = save x' fs)).
  { destruct HT; [apply dict_call_saves|apply list_call_saves
                 |apply set_call_saves]. }
  destruct Hsaves as [Hsame Hsaved].
  destruct (decide (mod_count x' = mod_count x)) as [Heq|Hne].
  - left. specialize (Hsame Heq). subst x' fs'. by rewrite Hsame.
  - right. split.
    + destruct (changes c x fs), (same_pair c x); lia.
    + rewrite (Hsaved Hne). destruct HT.
      * apply dict_round_trip.
      * apply list_round_trip.
      * apply set_round_trip. subst x' x.
        by rewrite set_storage_file_after, set_storage_file_run.
Qed.

Lemma counted_modifications_are_on_disk_witness :
  remote_type RemoteSet.t set_call _ ∧
  let x := (run [SetAdd "a"] (reopen (RemoteSet.__init__ "s" no_files) no_files)
              no_files).1 in
  let x' := (after (SetAdd "b") x no_files).1 in
  let fs' := (after (SetAdd "b") x no_files).2 in
  (invoke (SetAdd "b") x no_files).1.1 = Ok None
  ∧ ((mod_count x' = mod_count x ∧ x' = x ∧ fs' = no_files)
     ∨ (mod_count x' = (mod_count x + 1)%Z
        ∧ contents_of (reopen x' fs') = contents_of x')).
Proof.
  split; [constructor|]. intros x x' fs'.
  assert (Hreturned : (invoke (SetAdd "b") x no_files).1.1 = Ok None)
    by (vm_compute; reflexivity).
  split; [exact Hreturned|].
  exact (counted_modifications_are_on_disk RemoteSet.t set_call remote_set
           (RemoteSet.__init__ "s" no_files) no_files [SetAdd "a"]
           (SetAdd "b") no_files None Hreturned).
Defined.

Lemma dict_fields_after (c : dict_call) (x : RemoteDict.t) (fs : disk) :
  RemoteDict.id_ (after c x fs).1 = RemoteDict.id_ x
  ∧ RemoteDict.storage_file (after c x fs).1 = RemoteDict.storage_file x.
Proof.
  unfold after. destruct c as [key|key item|key|key]; simpl.
  - unfold RemoteDict.remove. by destruct (Py.dict_del key _).
  - done.
  - by destruct (RemoteDict.getItem key x).
  - unfold RemoteDict.pop. by destruct (Py.dict_pop key _) as [[??]|].
Qed.

Lemma list_fields_after (c : list_call) (x : RemoteList.t) (fs : disk) :
  RemoteList.id_ (after c x fs).1 = RemoteList.id_ x
  ∧ RemoteList.storage_file (after c x fs).1 = RemoteList.storage_file x.
Proof.
  unfold after. destruct c as [item|item|index|index]; simpl.
  - done.
  - unfold RemoteList.remove. by destruct (Py.list_remove item _).
  - by destruct (RemoteList.getItem index x).
  - unfold RemoteList.pop.
    destruct index; by destruct (Py.list_pop _ _) as [[??]|].
Qed.

Lemma list_save_keeps_others (x : RemoteList.t) (fs : disk) (j : string) :
  j ≠ RemoteList.id_ x →
  RemoteList._load_data j (RemoteList.storage_file x) (RemoteList._save_data x fs)
  = RemoteList._load_data j (RemoteList.storage_file x) fs.
Proof.
  intros Hj. unfold RemoteList._load_data, RemoteList._save_data. simpl.
  rewrite lookup_insert_eq, dict_get_set_ne by done.
  by destruct (seq_files fs !! RemoteList.storage_file x) as [[|data]|].
Qed.

Lemma set_save_keeps_others (x : RemoteSet.t) (fs : disk) (j : string) :
  j ≠ RemoteSet.identifier x →
  RemoteSet._load_data j (RemoteSet.storage_file x)
    (RemoteSet._save_global_storage x fs)
  = RemoteSet._load_data j (RemoteSet.storage_file x) fs.
Proof.
  intros Hj. unfold RemoteSet._load_data, RemoteSet._save_global_storage. simpl.
  rewrite lookup_insert_eq, dict_get_set_ne by done.
  by destruct (seq_files fs !! RemoteSet.storage_file x) as [[|data]|].
Qed.

(** A call writes to no file but the collection's own, and in a file that
    several lists or all sets share it leaves what a collection with another
    identifier would load as it was. *)
Theorem calls_touch_only_their_own_record (path other : string) (fs : disk) :
  (∀ (c : dict_call) (d : RemoteDict.t),
     seq_files (after c d fs).2 = seq_files fs
     ∧ (path ≠ RemoteDict.storage_file d →
        dict_files (after c d fs).2 !! path = dict_files fs !! path))
  ∧ (∀ (c : list_call) (l : RemoteList.t),
       dict_files (after c l fs).2 = dict_files fs
       ∧ (path ≠ RemoteList.storage_file l →
          seq_files (after c l fs).2 !! path = seq_files fs !! path)
       ∧ (other ≠ RemoteList.id_ l →
          RemoteList._load_data other (RemoteList.storage_file l) (after c l fs).2
          = RemoteList._load_data other (RemoteList.storage_file l) fs))
  ∧ (∀ (c : set_call) (s : RemoteSet.t),
       dict_files (after c s fs).2 = dict_files fs
       ∧ (path ≠ RemoteSet.storage_file s →
          seq_files (after c s fs).2 !! path = seq_files fs !! path)
       ∧ (other ≠ RemoteSet.identifier s →
          RemoteSet._load_data other (RemoteSet.storage_file s) (after c s fs).2
          = RemoteSet._load_data other (RemoteSet.storage_file s) fs)).
Proof.
  split; [|split].
  - intros c d. destruct (dict_call_saves c d fs) as [Hsame Hsaved].
    destruct (dict_fields_after c d fs) as [_ Hfile].
    destruct (decide (mod_count (after c d fs).1 = mod_count d)) as [Heq|Hne].
    + by rewrite (Hsame Heq).
    + rewrite (Hsaved Hne). simpl. split; [done|]. intros Hpath.
      rewrite lookup_insert_ne; [done|]. by rewrite Hfile.
  - intros c l. destruct (list_call_saves c l fs) as [Hsame Hsaved].
    destruct (list_fields_after c l fs) as [Hid Hfile].
    destruct (decide (mod_count (after c l fs).1 = mod_count l)) as [Heq|Hne].
    + by rewrite (Hsame Heq).
    + rewrite (Hsaved Hne). simpl. split; [done|]. split.
      * intros Hpath. rewrite lookup_insert_ne; [done|]. by rewrite Hfile.
      * intros Hother. rewrite <- Hfile.
        apply list_save_keeps_others. by rewrite Hid.
  - intros c s. destruct (set_call_saves c s fs) as [Hsame Hsaved].
    pose proof (set_storage_file_after c s fs) as Hfile.
    pose proof (set_identifier_after c s fs) as Hid.
    destruct (decide (mod_count (after c s fs).1 = mod_count s)) as [Heq|Hne].
    + by rewrite (Hsame Heq).
    + rewrite (Hsaved Hne). simpl. split; [done|]. split.
      * intros Hpath. rewrite lookup_insert_ne; [done|]. by rewrite Hfile.
      * intros Hother. rewrite <- Hfile.
        apply set_save_keeps_others. by rewrite Hid.
Qed.

Lemma calls_touch_only_their_own_record_witness :
  let sa := RemoteSet.__init__ "a" no_files in
  let fs1 := (after (SetAdd "x") sa no_files).2 in
  let sb := RemoteSet.__init__ "b" fs1 in
  RemoteSet._load_data "a" (RemoteSet.storage_file sb) (after (SetAdd "y") sb fs1).2
  = RemoteSet._load_data "a" (RemoteSet.storage_file sb) fs1.
Proof.
  intros sa fs1 sb.
  destruct (calls_touch_only_their_own_record "p" "a" fs1) as (_ & _ & Hset).
  apply (Hset (SetAdd "y") sb). discriminate.
Defined.

(** ** The factory: one instance for a type and an identifier *)

(** Asking again for the same type and identifier gives the same result and
    leaves the factory as the first call left it, whatever the disk holds by
    then: the instance is constructed once and never loaded again.  And
    [get] never replaces or drops an instance that is in a cache. *)
Theorem factory_get_is_cached
    (typeName : TypeName) (identifier : option string)
    (f : Factory.t) (fs fs' : disk) :
  let r := (Factory.get typeName identifier f fs).1.1 in
  let f1 := (Factory.get typeName identifier f fs).1.2 in
  Factory.get typeName identifier f1 fs' = (r, f1, fs')
  ∧ (∀ (j : string) (d : RemoteDict.t),
       Factory._rdicts f !! j = Some d → Factory._rdicts f1 !! j = Some d)
  ∧ (∀ (j : string) (l : RemoteList.t),
       Factory._rlists f !! j = Some l → Factory._rlists f1 !! j = Some l)
  ∧ (∀ (j : string) (s : RemoteSet.t),
       Factory._rsets f !! j = Some s → Factory._rsets f1 !! j = Some s).
Proof.
  destruct typeName as [| | |name]; simpl.
  - unfold Factory._get_rdict.
    set (i := Factory.or_default identifier "default_rdict").
    destruct (Factory._rdicts f !! i) as [d0|] eqn:Hi; simpl.
    + by rewrite Hi.
    + rewrite lookup_insert_eq. split; [done|]. split; [|done].
      intros j d Hj. rewrite lookup_insert_ne; [done|]. congruence.
  - unfold Factory._get_rlist.
    set (i := Factory.or_default identifier "default_rlist").
    destruct (Factory._rlists f !! i) as [l0|] eqn:Hi; simpl.
    + by rewrite Hi.
    + rewrite lookup_insert_eq. split; [done|]. split; [done|]. split; [|done].
      intros j l Hj. rewrite lookup_insert_ne; [done|]. congruence.
  - unfold Factory._get_rset.
    set (i := Factory.or_default identifier "default_rset").
    destruct (Factory._rsets f !! i) as [s0|] eqn:Hi; simpl.
    + by rewrite Hi.
    + rewrite lookup_insert_eq. do 3 (split; [done|]).
      intros j s Hj. rewrite lookup_insert_ne; [done|]. congruence.
  - done.
Qed.

Lemma factory_get_is_cached_witness :
  let f := (Factory.get RDict (Some "a") Factory.__init__ no_files).1.2 in
  let f1 := (Factory.get RDict (Some "b") f no_files).1.2 in
  Factory._rdicts f1 !! "a" =
  Some (RemoteDict.__init__ "a" "storage/rdict_a.json" no_files).
Proof.
  intros f f1.
  destruct (factory_get_is_cached RDict (Some "b") f no_files no_files)
    as (_ & Hd & _).
  apply Hd. reflexivity.
Defined.

(** ** Iterating to the end *)

Lemma nexts_app {I C : Type} (next : I → C → result string * I)
    (n m : nat) (it : I) (c : C) :
  nexts next (n + m) it c =
  let '(rs1, it1) := nexts next n it c in
  let '(rs2, it2) := nexts next m it1 c in
  (rs1 ++ rs2, it2).
Proof.
  revert it. induction n as [|n IH]; intros it; simpl.
  - by destruct (nexts next m it c).
  - destruct (next it c) as [r it']. rewrite IH.
    destruct (nexts next n it' c) as [rs1 it1].
    by destruct (nexts next m it1 c).
Qed.

Lemma nexts_S {I C : Type} (next : I → C → result string * I)
    (n : nat) (it : I) (c : C) :
  nexts next (S n) it c =
  let '(r, it') := next it c in
  let '(rs, it'') := nexts next n it' c in
  (r :: rs, it'').
Proof. done. Qed.

Lemma dict_nexts_exhausted (d : RemoteDict.t) (used : option nat) (pos k : nat) :
  let it := DictIterator.Build (RemoteDict._modification_count d)
              (Py.SizedIter used pos false) in
  nexts DictIterator.next k it d = (replicate k (Raise StopIteration), it).
Proof.
  intros it. induction k as [|k IH]; simpl; [done|].
  unfold DictIterator.next at 1. simpl. rewrite decide_False by (by intros []).
  fold it. by rewrite IH.
Qed.

Lemma dict_next_at (d : RemoteDict.t) (pos : nat) :
  let n := length (RemoteDict._storage_ d) in
  DictIterator.next
    (DictIterator.Build (RemoteDict._modification_count d)
       (Py.SizedIter (Some n) pos true)) d =
  match RemoteDict._storage_ d !! pos with
  | Some (key, value) =>
      (Ok (key +:+ ": " +:+ value),
       DictIterator.Build (RemoteDict._modification_count d)
         (Py.SizedIter (Some n) (S pos) true))
  | None =>
      (Raise StopIteration,
       DictIterator.Build (RemoteDict._modification_count d)
         (Py.SizedIter (Some n) pos false))
  end.
Proof.
  intros n. unfold DictIterator.next, Py.sized_iter_next.
  cbn [DictIterator._expected_mod_count DictIterator._iterator
       Py.si_live Py.si_used Py.si_pos].
  rewrite decide_False by (by intros Hne). rewrite decide_True by done.
  by destruct (_ !! _) as [[key value]|].
Qed.

Lemma dict_nexts_from (d : RemoteDict.t) (pre suf : list (string * string)) :
  RemoteDict._storage_ d = pre ++ suf →
  let n := length (RemoteDict._storage_ d) in
  (nexts DictIterator.next (S (length suf))
     (DictIterator.Build (RemoteDict._modification_count d)
        (Py.SizedIter (Some n) (length pre) true)) d).1 =
  ((λ kv, Ok (kv.1 +:+ ": " +:+ kv.2)) <$> suf) ++ [Raise StopIteration]
  ∧ (nexts DictIterator.next (S (length suf))
       (DictIterator.Build (RemoteDict._modification_count d)
          (Py.SizedIter (Some n) (length pre) true)) d).2 =
    DictIterator.Build (RemoteDict._modification_count d)
      (Py.SizedIter (Some n) n false).
Proof.
  intros Hd n. revert pre Hd. induction suf as [|[k v] suf IH]; intros pre Hd.
  - cbn [length]. rewrite nexts_S, dict_next_at.
    rewrite app_nil_r in Hd. rewrite lookup_ge_None_2 by (by rewrite Hd).
    unfold n. by rewrite Hd.
  - cbn [length]. rewrite nexts_S, dict_next_at.
    rewrite Hd, lookup_app_r, Nat.sub_diag by done. cbn [lookup list_lookup].
    specialize (IH (pre ++ [(k, v)])).
    rewrite length_app, Nat.add_1_r in IH. rewrite <- Hd.
    destruct IH as [IH1 IH2]; [by rewrite <- app_assoc|]. fold n.
    destruct (nexts _ _ _ _) as [rs it']. simpl in *. by subst.
Qed.

Lemma list_nexts_exhausted (l : RemoteList.t) (k : nat) :
  let it := ListIterator.Build (RemoteList._modification_count l) None in
  nexts ListIterator.next k it l = (replicate k (Raise StopIteration), it).
Proof.
  intros it. induction k as [|k IH]; simpl; [done|].
  unfold ListIterator.next at 1. simpl. rewrite decide_False by (by intros []).
  fold it. by rewrite IH.
Qed.

Lemma list_next_at (l : RemoteList.t) (pos : nat) :
  ListIterator.next
    (ListIterator.Build (RemoteList._modification_count l) (Some pos)) l =
  match RemoteList._storage_ l !! pos with
  | Some item =>
      (Ok item,
       ListIterator.Build (RemoteList._modification_count l) (Some (S pos)))
  | None =>
      (Raise StopIteration,
       ListIterator.Build (RemoteList._modification_count l) None)
  end.
Proof.
  unfold ListIterator.next, Py.list_iter_next.
  cbn [ListIterator._expected_mod_count ListIterator._iterator].
  rewrite decide_False by (by intros Hne).
  by destruct (_ !! _).
Qed.

Lemma list_nexts_from (l : RemoteList.t) (pre suf : list string) :
  RemoteList._storage_ l = pre ++ suf →
  nexts ListIterator.next (S (length suf))
    (ListIterator.Build (RemoteList._modification_count l) (Some (length pre))) l
  = ((Ok <$> suf) ++ [Raise StopIteration],
     ListIterator.Build (RemoteList._modification_count l) None).
Proof.
  revert pre. induction suf as [|x suf IH]; intros pre Hl.
  - cbn [length]. rewrite nexts_S, list_next_at.
    rewrite app_nil_r in Hl. by rewrite lookup_ge_None_2 by (by rewrite Hl).
  - cbn [length]. rewrite nexts_S, list_next_at.
    rewrite Hl, lookup_app_r, Nat.sub_diag by done. cbn [lookup list_lookup].
    specialize (IH (pre ++ [x])).
    rewrite length_app, Nat.add_1_r in IH.
    rewrite IH; [done|]. by rewrite <- app_assoc.
Qed.

Lemma set_nexts_exhausted (s : RemoteSet.t) (used : option nat) (pos k : nat) :
  let it := RemoteSetIterator.Build (Py.SizedIter used pos false) in
  nexts RemoteSetIterator.next k it s = (replicate k (Raise StopIteration), it).
Proof.
  intros it. induction k as [|k IH]; simpl; [done|]. fold it. by rewrite IH.
Qed.

Lemma set_next_at (s : RemoteSet.t) (n pos : nat) :
  n = length (elements (RemoteSet.data s)) →
  RemoteSetIterator.next
    (RemoteSetIterator.Build (Py.SizedIter (Some n) pos true)) s =
  match elements (RemoteSet.data s) !! pos with
  | Some item =>
      (Ok item, RemoteSetIterator.Build (Py.SizedIter (Some n) (S pos) true))
  | None =>
      (Raise StopIteration,
       RemoteSetIterator.Build (Py.SizedIter (Some n) pos false))
  end.
Proof.
  intros ->. unfold RemoteSetIterator.next, Py.sized_iter_next.
  cbn [RemoteSetIterator._iterator Py.si_live Py.si_used Py.si_pos].
  rewrite decide_True by done.
  by destruct (_ !! _).
Qed.

Lemma set_nexts_from (s : RemoteSet.t) (n : nat) (pre suf : list string) :
  n = length (elements (RemoteSet.data s)) →
  elements (RemoteSet.data s) = pre ++ suf →
  nexts RemoteSetIterator.next (S (length suf))
    (RemoteSetIterator.Build (Py.SizedIter (Some n) (length pre) true)) s
  = ((Ok <$> suf) ++ [Raise StopIteration],
     RemoteSetIterator.Build (Py.SizedIter (Some n) n false)).
Proof.
  intros Hn. revert pre. induction suf as [|x suf IH]; intros pre Hs.
  - cbn [length]. rewrite nexts_S, set_next_at by done.
    rewrite app_nil_r in Hs. rewrite lookup_ge_None_2 by (by rewrite Hs).
    cbn [nexts fmap list_fmap app]. do 4 f_equal. by rewrite Hn, Hs.
  - cbn [length]. rewrite nexts_S, set_next_at by done.
    rewrite Hs, lookup_app_r, Nat.sub_diag by done. cbn [lookup list_lookup].
    specialize (IH (pre ++ [x])).
    rewrite length_app, Nat.add_1_r in IH.
    rewrite IH; [done|]. by rewrite <- app_assoc.
Qed.

(** An iterator made on a collection that is then left alone returns the
    elements present, each once and in the order of the collection (the
    entries of a dictionary as ["key: value"]), then raises StopIteration,
    and raises it again on every further call. *)
Theorem iterators_return_every_element_then_stop (k : nat) :
  (∀ d : RemoteDict.t,
     (nexts DictIterator.next (length (RemoteDict._storage_ d) + S k)
        (DictIterator.__init__ d (RemoteDict._modification_count d)) d).1
     = ((λ kv, Ok (kv.1 +:+ ": " +:+ kv.2)) <$> RemoteDict._storage_ d)
       ++ replicate (S k) (Raise StopIteration))
  ∧ (∀ l : RemoteList.t,
       (nexts ListIterator.next (length (RemoteList._storage_ l) + S k)
          (ListIterator.__init__ l (RemoteList._modification_count l)) l).1
       = (Ok <$> RemoteList._storage_ l)
         ++ replicate (S k) (Raise StopIteration))
  ∧ (∀ s : RemoteSet.t,
       (nexts RemoteSetIterator.next (size (RemoteSet.data s) + S k)
          (RemoteSetIterator.__init__ s) s).1
       = (Ok <$> elements (RemoteSet.data s))
         ++ replicate (S k) (Raise StopIteration)).
Proof.
  split; [|split].
  - intros d. replace (length (RemoteDict._storage_ d) + S k)%nat
      with (S (length (RemoteDict._storage_ d)) + k)%nat by lia.
    rewrite nexts_app.
    destruct (dict_nexts_from d [] (RemoteDict._storage_ d) eq_refl)
      as [Hrs Hit].
    unfold DictIterator.__init__, Py.sized_iter_new.
    cbn [length] in Hrs, Hit.
    destruct (nexts DictIterator.next (S _) _ d) as [rs1 it1].
    simpl in Hrs, Hit. subst rs1 it1.
    rewrite dict_nexts_exhausted. simpl. by rewrite <- app_assoc.
  - intros l. replace (length (RemoteList._storage_ l) + S k)%nat
      with (S (length (RemoteList._storage_ l)) + k)%nat by lia.
    rewrite nexts_app.
    pose proof (list_nexts_from l [] (RemoteList._storage_ l) eq_refl) as Hrun.
    unfold ListIterator.__init__. cbn [length] in Hrun.
    rewrite Hrun, list_nexts_exhausted. simpl.
    by rewrite <- app_assoc.
  - intros s.
    assert (Hsize : size (RemoteSet.data s) = length (elements (RemoteSet.data s)))
      by done.
    unfold RemoteSetIterator.__init__, Py.sized_iter_new.
    rewrite Hsize.
    replace (length (elements (RemoteSet.data s)) + S k)%nat
      with (S (length (elements (RemoteSet.data s))) + k)%nat by lia.
    rewrite nexts_app.
    pose proof (set_nexts_from s _ [] (elements (RemoteSet.data s))
                  eq_refl eq_refl) as Hrun.
    cbn [length] in Hrun.
    rewrite Hrun, set_nexts_exhausted. simpl. by rewrite <- app_assoc.
Qed.

(** ** Iterators and later modifications *)

Lemma run_counter_le (T call : Type) `{RType T call} :
  remote_type T call _ → ∀ (calls : list call) (x : T) (fs : disk),
  mod_count x ≤ mod_count (run calls x fs).1.
Proof.
  intros Hrt calls x fs.
  rewrite (run_counter (counter_step T call Hrt)).
  pose proof (count_calls_nonneg changes calls x fs).
  pose proof (count_calls_nonneg restores calls x fs). lia.
Qed.

Lemma changed_counter_lt (T call : Type) `{RType T call} :
  remote_type T call _ → ∀ (c : call) (calls : list call) (x : T) (fs : disk),
  changes c x fs = true →
  mod_count x < mod_count (run (c :: calls) x fs).1.
Proof.
  intros Hrt c calls x fs Hch. simpl.
  pose proof (counter_step T call Hrt c x fs) as Hstep. rewrite Hch in Hstep.
  destruct (after c x fs) as [x' fs'] eqn:Hafter. simpl in Hstep.
  pose proof (run_counter_le T call Hrt calls x' fs'). lia.
Qed.

Lemma dict_nexts_cancelled (it : DictIterator.t) (d : RemoteDict.t) (k : nat) :
  DictIterator._expected_mod_count it ≠ RemoteDict._modification_count d →
  nexts DictIterator.next k it d = (replicate k (Raise CancelIteration), it).
Proof.
  intros Hne. induction k as [|k IH]; [done|].
  rewrite nexts_S. unfold DictIterator.next at 1.
  rewrite decide_True by done. by rewrite IH.
Qed.

Lemma list_nexts_cancelled (it : ListIterator.t) (l : RemoteList.t) (k : nat) :
  ListIterator._expected_mod_count it ≠ RemoteList._modification_count l →
  nexts ListIterator.next k it l = (replicate k (Raise CancelIteration), it).
Proof.
  intros Hne. induction k as [|k IH]; [done|].
  rewrite nexts_S. unfold ListIterator.next at 1.
  rewrite decide_True by done. by rewrite IH.
Qed.

(** Once a call has changed a dictionary or a list, an iterator made before
    the call is cancelled for good: whatever calls follow, and also when
    they bring the old contents back, every [next] raises CancelIteration
    and leaves the iterator where it was. *)
Theorem a_change_cancels_the_iterator_for_good (k : nat) :
  (∀ (it : DictIterator.t) (d : RemoteDict.t) (fs : disk)
     (c : dict_call) (calls : list dict_call),
     DictIterator._expected_mod_count it = RemoteDict._modification_count d →
     changes c d fs = true →
     nexts DictIterator.next k it (run (c :: calls) d fs).1 =
     (replicate k (Raise CancelIteration), it))
  ∧ (∀ (it : ListIterator.t) (l : RemoteList.t) (fs : disk)
       (c : list_call) (calls : list list_call),
       ListIterator._expected_mod_count it = RemoteList._modification_count l →
       changes c l fs = true →
       nexts ListIterator.next k it (run (c :: calls) l fs).1 =
       (replicate k (Raise CancelIteration), it)).
Proof.
  split.
  - intros it d fs c calls Hit Hch. apply dict_nexts_cancelled.
    pose proof (changed_counter_lt _ _ remote_dict c calls d fs Hch) as Hlt.
    rewrite Hit. intros Heq.
    change (mod_count d = mod_count (run (c :: calls) d fs).1) in Heq. lia.
  - intros it l fs c calls Hit Hch. apply list_nexts_cancelled.
    pose proof (changed_counter_lt _ _ remote_list c calls l fs Hch) as Hlt.
    rewrite Hit. intros Heq.
    change (mod_count l = mod_count (run (c :: calls) l fs).1) in Heq. lia.
Qed.

Lemma a_change_cancels_the_iterator_for_good_witness :
  let d := RemoteDict.Build "d" "storage/rdict_d.json" [("a", "1")] 1 in
  let it := DictIterator.__init__ d (RemoteDict._modification_count d) in
  nexts DictIterator.next 2 it
    (run [DictRemove "a"; DictSetItem "a" "1"] d no_files).1 =
  (replicate 2 (Raise CancelIteration), it).
Proof.
  intros d it.
  exact (proj1 (a_change_cancels_the_iterator_for_good 2) it d no_files
           (DictRemove "a") [DictSetItem "a" "1"] eq_refl eq_refl).
Defined.

Lemma set_changes_size (c : set_call) (s : RemoteSet.t) (fs : disk) :
  changes c s fs = true →
  size (RemoteSet.data (after c s fs).1) ≠ size (RemoteSet.data s).
Proof.
  unfold changes, after. intros Hch%bool_decide_eq_true. revert Hch.
  destruct c as [item|item|]; simpl.
  - unfold RemoteSet.add.
    destruct (decide (item ∉ RemoteSet.data s)) as [Hnew|Hold]; simpl; [|done].
    intros _. rewrite size_union by (by apply disjoint_singleton_r).
    rewrite size_singleton. lia.
  - unfold RemoteSet.remove.
    destruct (decide (item ∉ RemoteSet.data s)) as [Hnew|Hold%dec_stable];
      simpl; [done|].
    intros _. pose proof (size_union_alt {[item]} (RemoteSet.data s)) as Hsz.
    rewrite (subseteq_union_1_L {[item]} (RemoteSet.data s)) in Hsz
      by (by apply singleton_subseteq_l).
    rewrite size_singleton in Hsz. lia.
  - unfold RemoteSet.pop.
    destruct (Py.set_pop (RemoteSet.data s)) as [[v s']|] eqn:Hpop; simpl;
      [|done].
    apply set_pop_spec in Hpop as [Hin ->]. intros _.
    pose proof (size_union_alt {[v]} (RemoteSet.data s)) as Hsz.
    rewrite (subseteq_union_1_L {[v]} (RemoteSet.data s)) in Hsz
      by (by apply singleton_subseteq_l).
    rewrite size_singleton in Hsz. lia.
Qed.

Lemma set_nexts_cancelled (s : RemoteSet.t) (pos k : nat) :
  nexts RemoteSetIterator.next k
    (RemoteSetIterator.Build (Py.SizedIter None pos true)) s =
  (replicate k (Raise CancelIteration),
   RemoteSetIterator.Build (Py.SizedIter None pos true)).
Proof.
  induction k as [|k IH]; [done|].
  rewrite nexts_S. unfold RemoteSetIterator.next at 1, Py.sized_iter_next.
  cbn [RemoteSetIterator._iterator Py.si_live Py.si_used Py.si_pos].
  rewrite decide_False by done. by rewrite IH.
Qed.

(** The iterator of a set that has not reached the end is cancelled by a
    [next] that directly follows one call that changed the set, and then for
    good: on whatever the set becomes, every later [next] raises
    CancelIteration. *)
Theorem set_iterator_cancelled_by_the_next_after_a_change
    (it : RemoteSetIterator.t) (s s_later : RemoteSet.t) (fs : disk)
    (c : set_call) (k : nat) :
  Py.si_live (RemoteSetIterator._iterator it) = true →
  Py.si_used (RemoteSetIterator._iterator it) = Some (size (RemoteSet.data s)) →
  changes c s fs = true →
  let r := RemoteSetIterator.next it (after c s fs).1 in
  r.1 = Raise CancelIteration
  ∧ (nexts RemoteSetIterator.next k r.2 s_later).1 =
    replicate k (Raise CancelIteration).
Proof.
  intros Hlive Hused Hch r.
  pose proof (set_changes_size c s fs Hch) as Hsize.
  destruct it as [[used pos live]]. simpl in Hlive, Hused. subst used live.
  assert (Hstep : r = (Raise CancelIteration,
                       RemoteSetIterator.Build (Py.SizedIter None pos true))).
  { subst r. unfold RemoteSetIterator.next, Py.sized_iter_next.
    cbn [RemoteSetIterator._iterator Py.si_live Py.si_used Py.si_pos].
    rewrite decide_False; [done|].
    intros [= Heq]. apply Hsize. symmetry. exact Heq. }
  rewrite Hstep. split; [done|]. cbn [snd]. by rewrite set_nexts_cancelled.
Qed.

Lemma set_iterator_cancelled_by_the_next_after_a_change_witness :
  let s := RemoteSet.Build "s" {[ "a" ]} 1 RemoteSet.GLOBAL_STORAGE_FILE in
  let it := RemoteSetIterator.__init__ s in
  let r := RemoteSetIterator.next it (after (SetAdd "b") s no_files).1 in
  r.1 = Raise CancelIteration
  ∧ (nexts RemoteSetIterator.next 2 r.2 s).1 =
    replicate 2 (Raise CancelIteration).
Proof.
  intros s it.
  apply (set_iterator_cancelled_by_the_next_after_a_change it s s no_files
           (SetAdd "b") 2); vm_compute; reflexivity.
Defined.

(** ** The dispatcher: the response batch *)

Section dispatcher_more_facts.
Context `{Py.Hash}.
Import KafkaClient.

Lemma process_op_record (op : event) (w w' : world) (m : list response) :
  process_op op [] w = (Ok m, w') →
  m = []
  ∨ ∃ r : response,
      m = [r] ∧ e_id op = Some (r_id r)
      ∧ ((r_status r = "ok" ∧ r_error r = None)
         ∨ (r_status r = "error" ∧ r_result r = None
            ∧ truthy (r_error r) = true ∧ r_id r ≠ IdNull)).
Proof.
  unfold process_op, bind, op_id, subscript, ret, raise.
  destruct (hacer_evento op w) as [[[result error]|e] w1]; [|done].
  destruct (truthy error) eqn:Herr.
  - destruct (e_id op) as [[|tok]|]; intros [= <- <-]; [by left| |by left].
    right. eexists. split; [done|]. split; [done|]. by right.
  - destruct result, (e_id op); intros [= <- <-];
      right; (eexists; split; [done|]; split; [done|]; by left).
Qed.

Lemma process_ops_app (l1 l2 : list event) (message : list response) (w : world) :
  process_ops (l1 ++ l2) message w =
  match process_ops l1 message w with
  | (Ok m, w') => process_ops l2 m w'
  | (Raise e, w') => (Raise e, w')
  end.
Proof.
  revert message w. induction l1 as [|op l1 IH]; intros message w; [done|].
  simpl. unfold bind. destruct (process_op op message w) as [[m|e] w1]; [|done].
  apply IH.
Qed.

(** When the loop over a batch runs to its end, the response batch follows
    the descriptors: it has at most one record for a descriptor, the records
    are in the order of their descriptors, each carries the [id] of its
    descriptor, and each is either an ["ok"] record without an error or an
    ["error"] record with an error, a non-null [id] and no result. *)
Theorem responses_follow_the_descriptors
    (event_list : list event) (w w' : world) (message : list response) :
  process_ops event_list [] w = (Ok message, w') →
  ((λ r, Some (r_id r)) <$> message) `sublist_of` (e_id <$> event_list)
  ∧ (length message ≤ length event_list)%nat
  ∧ Forall (λ r, (r_status r = "ok" ∧ r_error r = None)
                 ∨ (r_status r = "error" ∧ r_result r = None
                    ∧ truthy (r_error r) = true ∧ r_id r ≠ IdNull)) message.
Proof.
  revert w message. induction event_list as [|op rest IH]; intros w message.
  - intros [= <- <-]. split; [done|]. split; [done|]. constructor.
  - simpl. unfold bind.
    destruct (process_op op [] w) as [[m1|e] w1] eqn:Hop; [|done].
    rewrite process_ops_appends.
    destruct (process_ops rest [] w1) as [[m2|e] w2] eqn:Hrest; [|done].
    intros [= <- <-]. destruct (IH _ _ Hrest) as (Hsub & Hlen & Hall).
    apply process_op_record in Hop as [->|(r & -> & Hid & Hshape)]; simpl.
    + split; [by apply sublist_cons|]. split; [lia|done].
    + rewrite Hid. split; [by apply sublist_skip|].
      split; [lia|]. by constructor.
Qed.

(** When the processing of one descriptor raises, the whole batch does: the
    exception leaves the loop, nothing is produced, not even the records of
    the descriptors before it, and the descriptors after it are not
    processed; what the earlier ones did to the collections and to the disk
    stays. *)
Theorem an_exception_discards_the_batch
    (before rest : list event) (op : event) (w w1 w2 : world)
    (message : list response) (e : exn) :
  process_ops before [] w = (Ok message, w1) →
  process_op op message w1 = (Raise e, w2) →
  consume_and_process_message (Some (before ++ op :: rest)) w = (Raise e, w2).
Proof.
  intros Hbefore Hop. unfold consume_and_process_message, bind.
  rewrite process_ops_app, Hbefore. simpl. unfold bind. by rewrite Hop.
Qed.

End dispatcher_more_facts.

Lemma responses_follow_the_descriptors_witness :
  let w0 := {| KafkaClient.factory := Factory.__init__;
               KafkaClient.fs := no_files |} in
  let op1 :=
    {| KafkaClient.e_id := Some (KafkaClient.IdTok "1");
       KafkaClient.e_object_type := Some "RSet";
       KafkaClient.e_object_identifier := Some "S1";
       KafkaClient.e_operation := Some "add";
       KafkaClient.e_args :=
         Some {| KafkaClient.a_item := Some "x"; KafkaClient.a_index := None;
                 KafkaClient.a_key := None |} |} in
  let op2 :=
    {| KafkaClient.e_id := None;
       KafkaClient.e_object_type := Some "RSet";
       KafkaClient.e_object_identifier := Some "S1";
       KafkaClient.e_operation := Some "length";
       KafkaClient.e_args := None |} in
  let op3 :=
    {| KafkaClient.e_id := Some (KafkaClient.IdTok "3");
       KafkaClient.e_object_type := Some "RSet";
       KafkaClient.e_object_identifier := Some "S1";
       KafkaClient.e_operation := Some "iter";
       KafkaClient.e_args := None |} in
  let message :=
    [ {| KafkaClient.r_id := KafkaClient.IdTok "1"; KafkaClient.r_status := "ok";
         KafkaClient.r_result := None; KafkaClient.r_error := None |};
      {| KafkaClient.r_id := KafkaClient.IdTok "3"; KafkaClient.r_status := "error";
         KafkaClient.r_result := None;
         KafkaClient.r_error := Some "OperationNotSupported" |} ] in
  ((λ r, Some (KafkaClient.r_id r)) <$> message)
    `sublist_of` (KafkaClient.e_id <$> [op1; op2; op3])
  ∧ (length message ≤ length [op1; op2; op3])%nat
  ∧ Forall (λ r, (KafkaClient.r_status r = "ok" ∧ KafkaClient.r_error r = None)
                 ∨ (KafkaClient.r_status r = "error"
                    ∧ KafkaClient.r_result r = None
                    ∧ KafkaClient.truthy (KafkaClient.r_error r) = true
                    ∧ KafkaClient.r_id r ≠ KafkaClient.IdNull)) message.
Proof.
  intros w0 op1 op2 op3 message.
  refine (responses_follow_the_descriptors (H := constant_hash)
            [op1; op2; op3] w0
            (@KafkaClient.process_ops constant_hash [op1; op2; op3] [] w0).2
            message _).
  vm_compute. reflexivity.
Defined.

Lemma an_exception_discards_the_batch_witness :
  let w0 := {| KafkaClient.factory := Factory.__init__;
               KafkaClient.fs := no_files |} in
  let op1 :=
    {| KafkaClient.e_id := Some (KafkaClient.IdTok "1");
       KafkaClient.e_object_type := Some "RList";
       KafkaClient.e_object_identifier := Some "L1";
       KafkaClient.e_operation := Some "append";
       KafkaClient.e_args :=
         Some {| KafkaClient.a_item := Some "x"; KafkaClient.a_index := None;
                 KafkaClient.a_key := None |} |} in
  let op2 :=
    {| KafkaClient.e_id := Some (KafkaClient.IdTok "2");
       KafkaClient.e_object_type := Some "RList";
       KafkaClient.e_object_identifier := Some "L1";
       KafkaClient.e_operation := Some "getItem";
       KafkaClient.e_args :=
         Some {| KafkaClient.a_item := None;
                 KafkaClient.a_index := Some (KafkaClient.IntLike 5);
                 KafkaClient.a_key := None |} |} in
  let op3 :=
    {| KafkaClient.e_id := Some (KafkaClient.IdTok "3");
       KafkaClient.e_object_type := Some "RList";
       KafkaClient.e_object_identifier := Some "L1";
       KafkaClient.e_operation := Some "length";
       KafkaClient.e_args := None |} in
  let w1 := (@KafkaClient.process_ops constant_hash [op1] [] w0).2 in
  @KafkaClient.consume_and_process_message constant_hash
    (Some ([op1] ++ op2 :: [op3])) w0 =
  (Raise (IndexError "Index 5 is out of range"), w1).
Proof.
  intros w0 op1 op2 op3 w1.
  refine (an_exception_discards_the_batch (H := constant_hash)
            [op1] [op3] op2 w0 w1 w1
            [ {| KafkaClient.r_id := KafkaClient.IdTok "1";
                 KafkaClient.r_status := "ok";
                 KafkaClient.r_result := None;
                 KafkaClient.r_error := None |} ]
            (IndexError "Index 5 is out of range") _ _);
    vm_compute; reflexivity.
Defined.

(** ** The dispatcher: what reaches the disk *)

Section dispatcher_disk_facts.
Context `{Py.Hash}.
Import KafkaClient.

Lemma keeps_disk_ret {A : Type} (a : A) : keeps_disk (ret a).
Proof. done. Qed.

Lemma keeps_disk_raise {A : Type} (e : exn) : keeps_disk (raise (A := A) e).
Proof. done. Qed.

Lemma keeps_disk_bind {A B : Type} (m : M A) (k : A → M B) :
  keeps_disk m → (∀ a, keeps_disk (k a)) → keeps_disk (bind m k).
Proof.
  intros Hm Hk w. unfold bind. specialize (Hm w).
  destruct (m w) as [[a|e] w1]; simpl in *; [|done].
  by rewrite Hk.
Qed.

Lemma keeps_disk_subscript {A : Type} (name : string) (field : option A) :
  keeps_disk (subscript name field).
Proof. by destruct field. Qed.

Lemma keeps_disk_int (x : index_arg) : keeps_disk (int x).
Proof. by destruct x. Qed.

Lemma keeps_disk_factory_get (typeName : TypeName) (identifier : option string) :
  keeps_disk (factory_get typeName identifier).
Proof.
  intros w. unfold factory_get, Factory.get.
  destruct typeName; simpl; [| | |done].
  - by destruct (Factory._get_rdict _ _ _).
  - by destruct (Factory._get_rlist _ _ _).
  - by destruct (Factory._get_rset _ _ _).
Qed.

Lemma keeps_disk_get_rtype_proxy (obj_type obj_identifier : string) :
  keeps_disk (get_rtype_proxy obj_type obj_identifier).
Proof.
  unfold get_rtype_proxy.
  repeat case_decide;
    try (apply keeps_disk_bind; [apply keeps_disk_factory_get|intros ?]);
    apply keeps_disk_ret.
Qed.

Lemma keeps_disk_on_rdict {A : Type} (identifier : string)
    (method : RemoteDict.t → disk → result A * RemoteDict.t * disk) :
  (∀ self fs, (method self fs).2 = fs) → keeps_disk (on_rdict identifier method).
Proof.
  intros Hm w. unfold on_rdict.
  destruct (_ !! _) as [servant|]; [|done].
  specialize (Hm servant (fs w)).
  by destruct (method servant (fs w)) as [[r servant'] fs'].
Qed.

Lemma keeps_disk_on_rlist {A : Type} (identifier : string)
    (method : RemoteList.t → disk → result A * RemoteList.t * disk) :
  (∀ self fs, (method self fs).2 = fs) → keeps_disk (on_rlist identifier method).
Proof.
  intros Hm w. unfold on_rlist.
  destruct (_ !! _) as [servant|]; [|done].
  specialize (Hm servant (fs w)).
  by destruct (method servant (fs w)) as [[r servant'] fs'].
Qed.

Lemma keeps_disk_on_rset {A : Type} (identifier : string)
    (method : RemoteSet.t → disk → result A * RemoteSet.t * disk) :
  (∀ self fs, (method self fs).2 = fs) → keeps_disk (on_rset identifier method).
Proof.
  intros Hm w. unfold on_rset.
  destruct (_ !! _) as [servant|]; [|done].
  specialize (Hm servant (fs w)).
  by destruct (method servant (fs w)) as [[r servant'] fs'].
Qed.

Lemma keeps_disk_process_common_operation
    (rtype_prx : proxy) (operation : string) (args : args) :
  operation ≠ "remove" →
  keeps_disk (process_common_operation rtype_prx operation args).
Proof.
  intros Hop. unfold process_common_operation.
  repeat case_decide; try done; try apply keeps_disk_ret;
    repeat (apply keeps_disk_bind;
            [first [apply keeps_disk_subscript|idtac]|intros ?]);
    try apply keeps_disk_ret;
    destruct rtype_prx; simpl;
    first [apply keeps_disk_on_rdict|apply keeps_disk_on_rlist
          |apply keeps_disk_on_rset|apply keeps_disk_raise]; done.
Qed.

Lemma keeps_disk_process_rlist (identifier operation : string) (args : args) :
  operation ≠ "append" → operation ≠ "pop" →
  keeps_disk (process_rlist identifier operation args).
Proof.
  intros Ha Hp. unfold process_rlist.
  rewrite decide_False by done. rewrite decide_False by done.
  case_decide; [|apply keeps_disk_ret].
  apply keeps_disk_bind; [apply keeps_disk_subscript|intros index].
  apply keeps_disk_bind; [apply keeps_disk_int|intros i].
  apply keeps_disk_bind; [by apply keeps_disk_on_rlist|intros item].
  apply keeps_disk_ret.
Qed.

Lemma keeps_disk_process_rdict (identifier operation : string) (args : args) :
  operation ≠ "setItem" → operation ≠ "pop" →
  keeps_disk (process_rdict identifier operation args).
Proof.
  intros Hs Hp. unfold process_rdict.
  rewrite decide_False by done.
  case_decide.
  - apply keeps_disk_bind; [apply keeps_disk_subscript|intros key].
    apply keeps_disk_bind; [by apply keeps_disk_on_rdict|intros item].
    apply keeps_disk_ret.
  - rewrite decide_False by done. apply keeps_disk_ret.
Qed.

Lemma keeps_disk_process_rset (identifier operation : string) (args : args) :
  operation ≠ "add" → operation ≠ "pop" →
  keeps_disk (process_rset identifier operation args).
Proof.
  intros Ha Hp. unfold process_rset.
  rewrite decide_False by done. rewrite decide_False by done.
  apply keeps_disk_ret.
Qed.

(** Only [remove], [append], [pop], [setItem] and [add] write: a descriptor
    with any other operation, known or not, with a malformed shape or with an
    unknown object type, leaves the disk as it was, whether [hacer_evento]
    returns or raises. *)
Theorem only_the_modifying_operations_write (ev : event) (w : world) :
  e_operation ev ∉ [Some "remove"; Some "append"; Some "pop"; Some "setItem";
                    Some "add"] →
  fs (hacer_evento ev w).2 = fs w.
Proof.
  intros Hop. revert w. change (keeps_disk (hacer_evento ev)).
  unfold hacer_evento.
  destruct (e_id ev) as [i|]; [|apply keeps_disk_ret].
  destruct (e_object_type ev) as [obj_type|]; [|apply keeps_disk_ret].
  destruct (e_object_identifier ev) as [obj_identifier|]; [|apply keeps_disk_ret].
  destruct (e_operation ev) as [operation|]; [|apply keeps_disk_ret].
  assert (Hne : ∀ name, name ∈ ["remove"; "append"; "pop"; "setItem"; "add"] →
                        operation ≠ name).
  { intros name Hin ->. apply Hop.
    apply (list_elem_of_fmap_2 Some) in Hin. exact Hin. }
  apply keeps_disk_bind; [apply keeps_disk_get_rtype_proxy|].
  intros [rtype_prx|]; [|apply keeps_disk_ret].
  apply keeps_disk_bind.
  { apply keeps_disk_process_common_operation, Hne. set_solver. }
  intros [result error]. case_decide; [apply keeps_disk_ret|].
  destruct rtype_prx.
  - apply keeps_disk_process_rdict; apply Hne; set_solver.
  - apply keeps_disk_process_rlist; apply Hne; set_solver.
  - apply keeps_disk_process_rset; apply Hne; set_solver.
Qed.

End dispatcher_disk_facts.

Lemma only_the_modifying_operations_write_witness :
  let l := RemoteList.Build "L1" "storage/rlist_L1.json" 1 ["x"] in
  let w :=
    {| KafkaClient.factory :=
         {| Factory._rdicts := ∅; Factory._rlists := {[ "L1" := l ]};
            Factory._rsets := ∅ |};
       KafkaClient.fs := RemoteList._save_data l no_files |} in
  let ev :=
    {| KafkaClient.e_id := Some (KafkaClient.IdTok "1");
       KafkaClient.e_object_type := Some "RList";
       KafkaClient.e_object_identifier := Some "L1";
       KafkaClient.e_operation := Some "getItem";
       KafkaClient.e_args :=
         Some {| KafkaClient.a_item := None;
                 KafkaClient.a_index := Some (KafkaClient.IntLike 0);
                 KafkaClient.a_key := None |} |} in
  KafkaClient.fs (@KafkaClient.hacer_evento constant_hash ev w).2 =
  KafkaClient.fs w.
Proof.
  intros l w ev.
  apply (only_the_modifying_operations_write (H := constant_hash) ev w).
  simpl. intros Hin. repeat (apply elem_of_cons in Hin as [Hin|Hin]; [discriminate|]).
  by apply elem_of_nil in Hin.
Defined.

(** ** The dispatcher: stored and read back *)

Ltac in_names :=
  repeat first [by apply elem_of_cons; left | apply elem_of_cons; right].

Ltac not_in_names :=
  let Hin := fresh "Hin" in
  intros Hin;
  repeat (apply elem_of_cons in Hin as [Hin|Hin]; [discriminate|]);
  by apply elem_of_nil in Hin.

Section dispatcher_round_trip.
Context `{Py.Hash}.
Import KafkaClient.

Lemma get_rtype_proxy_rlist (identifier : string) (w : world) :
  let j := Factory.or_default (Some identifier) "default_rlist" in
  ∃ (w1 : world) (l : RemoteList.t),
    get_rtype_proxy "RList" identifier w = (Ok (Some (RListPrx j)), w1)
    ∧ Factory._rlists (factory w1) !! j = Some l
    ∧ (∀ l0, Factory._rlists (factory w) !! j = Some l0 → w1 = w).
Proof.
  intros j. subst j.
  unfold get_rtype_proxy, factory_get, bind, ret, Factory.get.
  repeat (rewrite decide_False by done). rewrite decide_True by done.
  generalize (Factory.or_default (Some identifier) "default_rlist"). intros j.
  unfold Factory._get_rlist.
  destruct (Factory._rlists (factory w) !! j) as [l|] eqn:Hj.
  - exists w, l. by destruct w.
  - eexists _, _. split; [done|]. split; [|done].
    cbn [factory Factory._rlists]. apply lookup_insert_eq.
Qed.

Lemma get_rtype_proxy_rdict (identifier : string) (w : world) :
  let j := Factory.or_default (Some identifier) "default_rdict" in
  ∃ (w1 : world) (d : RemoteDict.t),
    get_rtype_proxy "RDict" identifier w = (Ok (Some (RDictPrx j)), w1)
    ∧ Factory._rdicts (factory w1) !! j = Some d
    ∧ (∀ d0, Factory._rdicts (factory w) !! j = Some d0 → w1 = w).
Proof.
  intros j. subst j.
  unfold get_rtype_proxy, factory_get, bind, ret, Factory.get.
  repeat (rewrite decide_False by done). rewrite decide_True by done.
  generalize (Factory.or_default (Some identifier) "default_rdict"). intros j.
  unfold Factory._get_rdict.
  destruct (Factory._rdicts (factory w) !! j) as [d|] eqn:Hj.
  - exists w, d. by destruct w.
  - eexists _, _. split; [done|]. split; [|done].
    cbn [factory Factory._rdicts]. apply lookup_insert_eq.
Qed.

Lemma get_rtype_proxy_rset (identifier : string) (w : world) :
  let j := Factory.or_default (Some identifier) "default_rset" in
  ∃ (w1 : world) (s : RemoteSet.t),
    get_rtype_proxy "RSet" identifier w = (Ok (Some (RSetPrx j)), w1)
    ∧ Factory._rsets (factory w1) !! j = Some s
    ∧ (∀ s0, Factory._rsets (factory w) !! j = Some s0 → w1 = w).
Proof.
  intros j. subst j.
  unfold get_rtype_proxy, factory_get, bind, ret, Factory.get.
  repeat (rewrite decide_False by done). rewrite decide_True by done.
  generalize (Factory.or_default (Some identifier) "default_rset"). intros j.
  unfold Factory._get_rset.
  destruct (Factory._rsets (factory w) !! j) as [s|] eqn:Hj.
  - exists w, s. by destruct w.
  - eexists _, _. split; [done|]. split; [|done].
    cbn [factory Factory._rsets]. apply lookup_insert_eq.
Qed.

Lemma hacer_evento_descriptor (i : json_id)
    (object_type identifier operation : string) (a : args) (w : world) :
  hacer_evento (descriptor i object_type identifier operation a) w =
  match get_rtype_proxy object_type identifier w with
  | (Ok None, w1) => (Ok (None, Some "UnknownObjectType"), w1)
  | (Ok (Some rtype_prx), w1) =>
      match process_common_operation rtype_prx operation a w1 with
      | (Ok (result, error), w2) =>
          if decide (is_Some result ∨ is_Some error) then (Ok (result, error), w2)
          else
            match rtype_prx with
            | RListPrx j => process_rlist j operation a w2
            | RDictPrx j => process_rdict j operation a w2
            | RSetPrx j => process_rset j operation a w2
            end
      | (Raise e, w2) => (Raise e, w2)
      end
  | (Raise e, w1) => (Raise e, w1)
  end.
Proof.
  unfold hacer_evento, descriptor, bind, ret.
  cbn [e_id e_object_type e_object_identifier e_operation e_args default
       from_option id].
  destruct (get_rtype_proxy object_type identifier w) as [[[prx|]|e] w1];
    [|done|done].
  destruct (process_common_operation prx operation a w1)
    as [[[result error]|e] w2]; [|done].
  case_decide; [done|by destruct prx].
Qed.

Lemma process_common_operation_other (prx : proxy) (operation : string)
    (a : args) (w : world) :
  operation ∉ ["identifier"; "remove"; "length"; "contains"; "hash"; "iter"] →
  process_common_operation prx operation a w = (Ok (None, None), w).
Proof.
  intros Hop. unfold process_common_operation.
  repeat (rewrite decide_False by (intros ->; apply Hop; in_names)).
  done.
Qed.

Lemma not_is_Some_None_or {A B : Type} :
  ¬ (is_Some (@None A) ∨ is_Some (@None B)).
Proof. intros [[? ?]|[? ?]]; done. Qed.

Lemma two_descriptors (op1 op2 : event) (i1 i2 : json_id) (v : value)
    (w w2 : world) :
  e_id op1 = Some i1 → e_id op2 = Some i2 →
  hacer_evento op1 w = (Ok (None, None), w2) →
  (hacer_evento op2 w2).1 = Ok (Some v, None) →
  (consume_and_process_message (Some [op1; op2]) w).1 =
  Ok (Some [ {| r_id := i1; r_status := "ok"; r_result := None;
                r_error := None |};
             {| r_id := i2; r_status := "ok"; r_result := Some v;
                r_error := None |} ]).
Proof.
  intros Hi1 Hi2 Hfirst Hsecond.
  unfold consume_and_process_message. cbn [process_ops].
  unfold bind, process_op, bind. rewrite Hfirst. cbn [truthy].
  unfold op_id, subscript, ret. rewrite Hi1, Hi2. cbn [app].
  destruct (hacer_evento op2 w2) as [r w3]. simpl in Hsecond. by subst r.
Qed.

Lemma rlist_append_step (ia : json_id) (identifier item : string) (w : world) :
  let j := Factory.or_default (Some identifier) "default_rlist" in
  ∃ (w2 : world) (l2 : RemoteList.t),
    hacer_evento
      (descriptor ia "RList" identifier "append"
         {| a_item := Some item; a_index := None; a_key := None |}) w =
    (Ok (None, None), w2)
    ∧ Factory._rlists (factory w2) !! j = Some l2
    ∧ RemoteList.getItem (-1) l2 = Ok item.
Proof.
  intros j.
  destruct (get_rtype_proxy_rlist identifier w) as (w1 & l & Hget & Hl & _).
  fold j in Hget, Hl. clearbody j.
  rewrite hacer_evento_descriptor, Hget.
  rewrite process_common_operation_other by not_in_names.
  rewrite decide_False by apply not_is_Some_None_or.
  unfold process_rlist. rewrite decide_True by done.
  unfold bind, subscript, ret, on_rlist. cbn [a_item]. rewrite Hl.
  unfold RemoteList.append. eexists _, _. split; [done|].
  cbn [factory Factory._rlists]. split; [apply lookup_insert_eq|].
  unfold RemoteList.getItem, RemoteList.mutated. cbn [RemoteList._storage_].
  by rewrite list_getitem_last.
Qed.

Lemma rlist_getItem_step (ib : json_id) (identifier : string) (index : Z)
    (w : world) (l : RemoteList.t) (item : string) :
  let j := Factory.or_default (Some identifier) "default_rlist" in
  Factory._rlists (factory w) !! j = Some l →
  RemoteList.getItem index l = Ok item →
  (hacer_evento
     (descriptor ib "RList" identifier "getItem"
        {| a_item := None; a_index := Some (IntLike index); a_key := None |})
     w).1 = Ok (Some (VStr item), None).
Proof.
  intros j Hl Hitem.
  destruct (get_rtype_proxy_rlist identifier w) as (w1 & l1 & Hget & _ & Hhit).
  fold j in Hget, Hhit. clearbody j. rewrite (Hhit l Hl) in Hget.
  rewrite hacer_evento_descriptor, Hget.
  rewrite process_common_operation_other by not_in_names.
  rewrite decide_False by apply not_is_Some_None_or.
  unfold process_rlist. do 2 rewrite decide_False by done.
  rewrite decide_True by done.
  unfold bind, subscript, int, ret, on_rlist, attempt. cbn [a_index].
  by rewrite Hl, Hitem.
Qed.

Lemma rdict_setItem_step (ia : json_id) (identifier key item : string)
    (w : world) :
  let j := Factory.or_default (Some identifier) "default_rdict" in
  ∃ (w2 : world) (d2 : RemoteDict.t),
    hacer_evento
      (descriptor ia "RDict" identifier "setItem"
         {| a_item := Some item; a_index := None; a_key := Some key |}) w =
    (Ok (None, None), w2)
    ∧ Factory._rdicts (factory w2) !! j = Some d2
    ∧ RemoteDict.getItem key d2 = Ok item.
Proof.
  intros j.
  destruct (get_rtype_proxy_rdict identifier w) as (w1 & d & Hget & Hd & _).
  fold j in Hget, Hd. clearbody j.
  rewrite hacer_evento_descriptor, Hget.
  rewrite process_common_operation_other by not_in_names.
  rewrite decide_False by apply not_is_Some_None_or.
  unfold process_rdict. rewrite decide_True by done.
  unfold bind, subscript, ret, on_rdict. cbn [a_item a_key]. rewrite Hd.
  unfold RemoteDict.setItem. eexists _, _. split; [done|].
  cbn [factory Factory._rdicts]. split; [apply lookup_insert_eq|].
  unfold RemoteDict.getItem, RemoteDict.mutated. cbn [RemoteDict._storage_].
  by rewrite dict_get_set.
Qed.

Lemma rdict_getItem_step (ib : json_id) (identifier key : string)
    (w : world) (d : RemoteDict.t) (item : string) :
  let j := Factory.or_default (Some identifier) "default_rdict" in
  Factory._rdicts (factory w) !! j = Some d →
  RemoteDict.getItem key d = Ok item →
  (hacer_evento
     (descriptor ib "RDict" identifier "getItem"
        {| a_item := None; a_index := None; a_key := Some key |})
     w).1 = Ok (Some (VStr item), None).
Proof.
  intros j Hd Hitem.
  destruct (get_rtype_proxy_rdict identifier w) as (w1 & d1 & Hget & _ & Hhit).
  fold j in Hget, Hhit. clearbody j. rewrite (Hhit d Hd) in Hget.
  rewrite hacer_evento_descriptor, Hget.
  rewrite process_common_operation_other by not_in_names.
  rewrite decide_False by apply not_is_Some_None_or.
  unfold process_rdict. rewrite decide_False by done.
  rewrite decide_True by done.
  unfold bind, subscript, ret, on_rdict, attempt. cbn [a_key].
  by rewrite Hd, Hitem.
Qed.

Lemma rset_add_step (ia : json_id) (identifier item : string) (w : world) :
  let j := Factory.or_default (Some identifier) "default_rset" in
  ∃ (w2 : world) (s2 : RemoteSet.t),
    hacer_evento
      (descriptor ia "RSet" identifier "add"
         {| a_item := Some item; a_index := None; a_key := None |}) w =
    (Ok (None, None), w2)
    ∧ Factory._rsets (factory w2) !! j = Some s2
    ∧ RemoteSet.contains item s2 = true.
Proof.
  intros j.
  destruct (get_rtype_proxy_rset identifier w) as (w1 & s & Hget & Hs & _).
  fold j in Hget, Hs. clearbody j.
  rewrite hacer_evento_descriptor, Hget.
  rewrite process_common_operation_other by not_in_names.
  rewrite decide_False by apply not_is_Some_None_or.
  unfold process_rset. rewrite decide_True by done.
  unfold bind, subscript, ret, on_rset. cbn [a_item]. rewrite Hs.
  unfold RemoteSet.add, RemoteSet.contains.
  destruct (decide (item ∉ RemoteSet.data s)) as [Hnew|Hold%dec_stable].
  - eexists _, _. split; [done|].
    cbn [factory Factory._rsets]. split; [apply lookup_insert_eq|].
    apply bool_decide_eq_true_2. cbn [RemoteSet.mutated RemoteSet.data].
    apply elem_of_union. right. by apply elem_of_singleton.
  - eexists _, _. split; [done|].
    cbn [factory Factory._rsets]. split; [apply lookup_insert_eq|].
    by apply bool_decide_eq_true_2.
Qed.

Lemma rset_contains_step (ib : json_id) (identifier item : string)
    (w : world) (s : RemoteSet.t) :
  let j := Factory.or_default (Some identifier) "default_rset" in
  Factory._rsets (factory w) !! j = Some s →
  (hacer_evento
     (descriptor ib "RSet" identifier "contains"
        {| a_item := Some item; a_index := None; a_key := None |})
     w).1 = Ok (Some (VBool (RemoteSet.contains item s)), None).
Proof.
  intros j Hs.
  destruct (get_rtype_proxy_rset identifier w) as (w1 & s1 & Hget & _ & Hhit).
  fold j in Hget, Hhit. clearbody j. rewrite (Hhit s Hs) in Hget.
  rewrite hacer_evento_descriptor, Hget.
  unfold process_common_operation.
  do 3 rewrite decide_False by done. rewrite decide_True by done.
  unfold bind, subscript, ret, rtype_contains, on_rset, query. cbn [a_item].
  rewrite Hs. rewrite decide_True; [done|]. left. by eexists.
Qed.

(** What one descriptor stores, the next one of the batch reads back
    through the dispatcher, the factory and the servant, in whatever state
    these are and whether the collection exists already or not.  When the
    first descriptor, a list [append], a dictionary [setItem] or a set
    [add], is processed without an exception (so that its write went
    through), the second one, [getItem] of index -1, [getItem] of the key or
    [contains], returns the item (or true) in the world the first has left,
    and the batch is answered with two ["ok"] records, the second with that
    result. *)
Theorem dispatcher_reads_back_what_it_stored
    (ia ib : json_id) (identifier key item : string) (w : world) :
  (∀ (r : option value * option string) (w2 : world),
     let op_a := descriptor ia "RList" identifier "append"
                   {| a_item := Some item; a_index := None; a_key := None |} in
     let op_b := descriptor ib "RList" identifier "getItem"
                   {| a_item := None; a_index := Some (IntLike (-1));
                      a_key := None |} in
     hacer_evento op_a w = (Ok r, w2) →
     (hacer_evento op_b w2).1 = Ok (Some (VStr item), None)
     ∧ (consume_and_process_message (Some [op_a; op_b]) w).1 =
       Ok (Some [ {| r_id := ia; r_status := "ok"; r_result := None;
                     r_error := None |};
                  {| r_id := ib; r_status := "ok"; r_result := Some (VStr item);
                     r_error := None |} ]))
  ∧ (∀ (r : option value * option string) (w2 : world),
       let op_a := descriptor ia "RDict" identifier "setItem"
                     {| a_item := Some item; a_index := None;
                        a_key := Some key |} in
       let op_b := descriptor ib "RDict" identifier "getItem"
                     {| a_item := None; a_index := None; a_key := Some key |} in
       hacer_evento op_a w = (Ok r, w2) →
       (hacer_evento op_b w2).1 = Ok (Some (VStr item), None)
       ∧ (consume_and_process_message (Some [op_a; op_b]) w).1 =
         Ok (Some [ {| r_id := ia; r_status := "ok"; r_result := None;
                       r_error := None |};
                    {| r_id := ib; r_status := "ok";
                       r_result := Some (VStr item); r_error := None |} ]))
  ∧ (∀ (r : option value * option string) (w2 : world),
       let op_a := descriptor ia "RSet" identifier "add"
                     {| a_item := Some item; a_index := None; a_key := None |} in
       let op_b := descriptor ib "RSet" identifier "contains"
                     {| a_item := Some item; a_index := None; a_key := None |} in
       hacer_evento op_a w = (Ok r, w2) →
       (hacer_evento op_b w2).1 = Ok (Some (VBool true), None)
       ∧ (consume_and_process_message (Some [op_a; op_b]) w).1 =
         Ok (Some [ {| r_id := ia; r_status := "ok"; r_result := None;
                       r_error := None |};
                    {| r_id := ib; r_status := "ok";
                       r_result := Some (VBool true); r_error := None |} ])).
Proof.
  split; [|split]; intros r w2 op_a op_b Hreturned.
  - destruct (rlist_append_step ia identifier item w)
      as (w2' & l2 & Hfirst & Hl2 & Hlast).
    fold op_a in Hfirst. rewrite Hfirst in Hreturned.
    injection Hreturned as <- <-.
    assert (Hsecond : (hacer_evento op_b w2').1 = Ok (Some (VStr item), None))
      by (by eapply rlist_getItem_step).
    split; [exact Hsecond|].
    by eapply two_descriptors; [done|done|exact Hfirst|].
  - destruct (rdict_setItem_step ia identifier key item w)
      as (w2' & d2 & Hfirst & Hd2 & Hlast).
    fold op_a in Hfirst. rewrite Hfirst in Hreturned.
    injection Hreturned as <- <-.
    assert (Hsecond : (hacer_evento op_b w2').1 = Ok (Some (VStr item), None))
      by (by eapply rdict_getItem_step).
    split; [exact Hsecond|].
    by eapply two_descriptors; [done|done|exact Hfirst|].
  - destruct (rset_add_step ia identifier item w)
      as (w2' & s2 & Hfirst & Hs2 & Hlast).
    fold op_a in Hfirst. rewrite Hfirst in Hreturned.
    injection Hreturned as <- <-.
    assert (Hsecond : (hacer_evento op_b w2').1 = Ok (Some (VBool true), None)).
    { pose proof (rset_contains_step ib identifier item w2' s2 Hs2) as Hc.
      by rewrite Hlast in Hc. }
    split; [exact Hsecond|].
    by eapply two_descriptors; [done|done|exact Hfirst|].
Qed.

Lemma process_op_ok_nothing (op : event) (i : json_id) (w w' : world) :
  e_id op = Some i →
  hacer_evento op w = (Ok (None, None), w') →
  process_op op [] w =
  (Ok [ {| r_id := i; r_status := "ok"; r_result := None; r_error := None |} ],
   w').
Proof.
  intros Hi Hev. unfold process_op, bind. rewrite Hev. cbn [truthy].
  unfold op_id, subscript, ret. by rewrite Hi.
Qed.

(** An operation that no branch of the dispatcher handles for the type of
    the object is not refused: the descriptor is answered with an ["ok"]
    record that has no result. *)
Theorem an_operation_no_branch_handles_is_answered_ok
    (i : json_id) (identifier operation : string) (a : args) (w : world) :
  operation ∉ ["identifier"; "remove"; "length"; "contains"; "hash"; "iter"] →
  (operation ∉ ["append"; "pop"; "getItem"] →
   (process_op (descriptor i "RList" identifier operation a) [] w).1 =
   Ok [ {| r_id := i; r_status := "ok"; r_result := None; r_error := None |} ])
  ∧ (operation ∉ ["setItem"; "getItem"; "pop"] →
     (process_op (descriptor i "RDict" identifier operation a) [] w).1 =
     Ok [ {| r_id := i; r_status := "ok"; r_result := None; r_error := None |} ])
  ∧ (operation ∉ ["add"; "pop"] →
     (process_op (descriptor i "RSet" identifier operation a) [] w).1 =
     Ok [ {| r_id := i; r_status := "ok"; r_result := None; r_error := None |} ]).
Proof.
  intros Hcommon. split; [|split]; intros Hown.
  - destruct (get_rtype_proxy_rlist identifier w) as (w1 & l & Hget & _).
    erewrite process_op_ok_nothing; [done|done|].
    rewrite hacer_evento_descriptor, Hget.
    rewrite process_common_operation_other by done.
    rewrite decide_False by apply not_is_Some_None_or.
    unfold process_rlist.
    by repeat (rewrite decide_False by (intros ->; apply Hown; in_names)).
  - destruct (get_rtype_proxy_rdict identifier w) as (w1 & d & Hget & _).
    erewrite process_op_ok_nothing; [done|done|].
    rewrite hacer_evento_descriptor, Hget.
    rewrite process_common_operation_other by done.
    rewrite decide_False by apply not_is_Some_None_or.
    unfold process_rdict.
    by repeat (rewrite decide_False by (intros ->; apply Hown; in_names)).
  - destruct (get_rtype_proxy_rset identifier w) as (w1 & s & Hget & _).
    erewrite process_op_ok_nothing; [done|done|].
    rewrite hacer_evento_descriptor, Hget.
    rewrite process_common_operation_other by done.
    rewrite decide_False by apply not_is_Some_None_or.
    unfold process_rset.
    by repeat (rewrite decide_False by (intros ->; apply Hown; in_names)).
Qed.

End dispatcher_round_trip.

Lemma dispatcher_reads_back_what_it_stored_witness :
  let w0 := {| KafkaClient.factory := Factory.__init__;
               KafkaClient.fs := no_files |} in
  let op_a := descriptor (KafkaClient.IdTok "1") "RList" "L1" "append"
                {| KafkaClient.a_item := Some "x"; KafkaClient.a_index := None;
                   KafkaClient.a_key := None |} in
  let op_b := descriptor (KafkaClient.IdTok "2") "RList" "L1" "getItem"
                {| KafkaClient.a_item := None;
                   KafkaClient.a_index := Some (KafkaClient.IntLike (-1));
                   KafkaClient.a_key := None |} in
  let w2 := (@KafkaClient.hacer_evento constant_hash op_a w0).2 in
  @KafkaClient.hacer_evento constant_hash op_a w0 = (Ok (None, None), w2)
  ∧ (@KafkaClient.hacer_evento constant_hash op_b w2).1 =
    Ok (Some (KafkaClient.VStr "x"), None)
  ∧ (@KafkaClient.consume_and_process_message constant_hash
       (Some [op_a; op_b]) w0).1 =
    Ok (Some [ {| KafkaClient.r_id := KafkaClient.IdTok "1";
                  KafkaClient.r_status := "ok"; KafkaClient.r_result := None;
                  KafkaClient.r_error := None |};
               {| KafkaClient.r_id := KafkaClient.IdTok "2";
                  KafkaClient.r_status := "ok";
                  KafkaClient.r_result := Some (KafkaClient.VStr "x");
                  KafkaClient.r_error := None |} ]).
Proof.
  intros w0 op_a op_b w2.
  assert (Hreturned :
    @KafkaClient.hacer_evento constant_hash op_a w0 = (Ok (None, None), w2))
    by (vm_compute; reflexivity).
  split; [exact Hreturned|].
  exact (proj1 (dispatcher_reads_back_what_it_stored (H := constant_hash)
                  (KafkaClient.IdTok "1") (KafkaClient.IdTok "2")
                  "L1" "k" "x" w0)
           (None, None) w2 Hreturned).
Defined.

Lemma an_operation_no_branch_handles_is_answered_ok_witness :
  let w0 := {| KafkaClient.factory := Factory.__init__;
               KafkaClient.fs := no_files |} in
  (@KafkaClient.process_op constant_hash
     (descriptor (KafkaClient.IdTok "1") "RDict" "D1" "append"
        {| KafkaClient.a_item := Some "x"; KafkaClient.a_index := None;
           KafkaClient.a_key := None |}) [] w0).1 =
  Ok [ {| KafkaClient.r_id := KafkaClient.IdTok "1";
          KafkaClient.r_status := "ok"; KafkaClient.r_result := None;
          KafkaClient.r_error := None |} ].
Proof.
  intros w0.
  apply (an_operation_no_branch_handles_is_answered_ok (H := constant_hash)
           (KafkaClient.IdTok "1") "D1" "append"
           {| KafkaClient.a_item := Some "x"; KafkaClient.a_index := None;
              KafkaClient.a_key := None |} w0); not_in_names.
Defined.

(** ** StringSet *)

Section stringset_facts.
Context (upper : string → string).
Import StringSet.

(** What [add] has put into a StringSet is found by [in], with the flag
    [force_upper_case] or without it, and nothing that was found before is
    lost; adding something that is not a string raises ValueError and leaves
    the set as it was. *)
Theorem stringset_add_then_contains (item str : string) (o : object) (self : t) :
  let self' := (add upper (Str item) self).2 in
  (add upper (Str item) self).1 = Ok tt
  ∧ __contains__ upper (Str item) self' = true
  ∧ upper_case self' = upper_case self
  ∧ (__contains__ upper o self = true → __contains__ upper o self' = true)
  ∧ add upper (NotStr str) self =
    (Raise (PyValueError ("El elemento '" +:+ str +:+ "' no es una cadena")),
     self).
Proof.
  simpl. unfold __contains__. simpl.
  split; [done|]. split; [|split; [done|split; [|done]]].
  - apply bool_decide_eq_true_2, elem_of_union. right. by apply elem_of_singleton.
  - intros Hin%bool_decide_eq_true. apply bool_decide_eq_true_2, elem_of_union.
    by left.
Qed.

Lemma new_iterable_strings (flag : bool) (items : list string) :
  new_iterable upper flag (Str <$> items) = Ok (cased upper flag <$> items).
Proof.
  induction items as [|item items IH]; [done|].
  rewrite !fmap_cons. cbn [new_iterable]. by rewrite IH.
Qed.

Lemma new_iterable_first_other (flag : bool) (before : list string)
    (str : string) (rest : list object) :
  new_iterable upper flag ((Str <$> before) ++ NotStr str :: rest) =
  Raise (PyValueError ("El elemento '" +:+ str +:+ "' no es una cadena")).
Proof.
  induction before as [|item before IH]; [done|].
  rewrite fmap_cons, <- app_comm_cons. cbn [new_iterable]. by rewrite IH.
Qed.

(** A StringSet constructed from strings has the flag it was given and
    contains each of the strings; constructing one from an iterable with an
    element that is not a string raises ValueError for the first such
    element. *)
Theorem stringset_init_contains_the_items
    (force_upper_case : bool) (items : list string) (str : string)
    (rest : list object) :
  (∃ self : t,
     __init__ upper (Some (Str <$> items)) force_upper_case = Ok self
     ∧ upper_case self = force_upper_case
     ∧ ∀ item : string, item ∈ items → __contains__ upper (Str item) self = true)
  ∧ __init__ upper (Some ((Str <$> items) ++ NotStr str :: rest))
      force_upper_case =
    Raise (PyValueError ("El elemento '" +:+ str +:+ "' no es una cadena")).
Proof.
  split.
  - unfold __init__. rewrite new_iterable_strings. eexists.
    split; [done|]. split; [done|]. intros item Hin.
    unfold __contains__. simpl. apply bool_decide_eq_true_2.
    apply elem_of_list_to_set. by apply list_elem_of_fmap_2.
  - unfold __init__. by rewrite new_iterable_first_other.
Qed.

End stringset_facts.

Lemma stringset_add_then_contains_witness :
  let self := StringSet.Build true {[ "A" ]} in
  let self' := (StringSet.add (λ s, s) (StringSet.Str "b") self).2 in
  StringSet.__contains__ (λ s, s) (StringSet.Str "A") self = true
  ∧ StringSet.__contains__ (λ s, s) (StringSet.Str "A") self' = true.
Proof.
  intros self self'.
  destruct (stringset_add_then_contains (λ s, s) "b" "1" (StringSet.Str "A") self)
    as (_ & _ & _ & Hkeep & _).
  assert (Hbefore : StringSet.__contains__ (λ s, s) (StringSet.Str "A") self = true)
    by (vm_compute; reflexivity).
  split; [exact Hbefore|exact (Hkeep Hbefore)].
Defined.

Lemma stringset_init_contains_the_items_witness :
  ∃ self : StringSet.t,
    StringSet.__init__ (λ s, s) (Some (StringSet.Str <$> ["a"; "b"])) false =
      Ok self
    ∧ StringSet.__contains__ (λ s, s) (StringSet.Str "b") self = true.
Proof.
  destruct (stringset_init_contains_the_items (λ s, s) false ["a"; "b"] "1" [])
    as [(self & Hinit & _ & Hin) _].
  exists self. split; [exact Hinit|]. apply Hin.
  apply elem_of_cons. right. apply elem_of_cons. by left.
Defined.

(** ** PersistentObject *)

(** The initial record of a PersistentObject is written once: after a
    construction that succeeded, the file has a record for the identifier,
    and constructing an object for the same identifier and file again loads
    that record and writes nothing, whatever its own initial data are. *)
Theorem persistent_object_initial_record_is_written_once
    (initial initial' : list string) (identifier storage_file : string)
    (fs fs1 : disk) (self : PersistentObject.t) :
  PersistentObject.__init__ initial identifier storage_file fs = (Ok self, fs1) →
  is_Some (Py.dict_get identifier (PersistentObject._data self))
  ∧ PersistentObject.__init__ initial' identifier storage_file fs1 =
    (Ok self, fs1).
Proof.
  unfold PersistentObject.__init__.
  destruct (PersistentObject._load_from_file storage_file fs) as [data|] eqn:Hload;
    [|done].
  case_decide as Hid.
  - intros [= <- <-]. split; [done|]. rewrite Hload. by rewrite decide_True.
  - intros [= <- <-]. cbn [PersistentObject._data].
    assert (Hnew : is_Some (Py.dict_get identifier
                              (Py.dict_set identifier initial data))).
    { rewrite dict_get_set. by eexists. }
    split; [done|].
    unfold PersistentObject._load_from_file, PersistentObject._save_to_file.
    cbn [seq_files PersistentObject.storage_file PersistentObject._data].
    rewrite lookup_insert_eq. by rewrite decide_True.
Qed.

Lemma persistent_object_initial_record_is_written_once_witness :
  let self :=
    PersistentObject.Build "p" "objects.json" [("p", ["a"])] in
  let fs1 := PersistentObject._save_to_file self no_files in
  is_Some (Py.dict_get "p" (PersistentObject._data self))
  ∧ PersistentObject.__init__ ["b"] "p" "objects.json" fs1 = (Ok self, fs1).
Proof.
  intros self fs1.
  apply (persistent_object_initial_record_is_written_once
           ["a"] ["b"] "p" "objects.json" no_files fs1 self).
  reflexivity.
Defined.
